(** * Health-Insurance-Policy-Simplifier: segmenter, retrieval engine and
      answer normaliser

    A shallow embedding of the parts of [pdf_parser.py], [retriever.py],
    [agent.py] and [answer_chain.py] that the specification talks about,
    and of the code around them ([embeddings.py], [test_suite.py]),
    followed by the facts proved about them.  A theorem whose comment
    begins with one of C1 to C10 settles the property of the specification
    that carries this number; a theorem whose comment begins with X and a
    number states a further property of the code.

    Conventions of the embedding.
    - Python [int] is [Z]; [len(...)] is [Z.of_nat (length ...)].
    - Python [str] is [string]; the model covers text in the ASCII range
      (white space is 9-13 and 28-32; [lower] touches A-Z only).
    - A Python [float] is a rational [Q], an infinity or NaN.  The code
      only compares floats; a finite float is identified with the number it
      denotes and rounding to binary64 is not modelled.
    - A [dict] whose iteration order is observable is an association list
      in insertion order.
    - A [while] loop is a function with a counter: the outer chunking loop
      returns [None] when the counter runs out, the two inner loops are
      given a counter that is proved sufficient.
    - An exception that leaves a function is a [Raise] result.
    - Library calls are parameters of the definitions: the tokenizer (a
      total function giving the number of tokens of a sentence), the
      regular-expression engine on the sentence pattern, [Path.stem],
      [json.loads], [float] and [int] on strings, [str] on values that are
      neither strings nor integers, and the outcome of the calls to the
      vector store and to the generation service.  Module [Sample] gives
      small instances of the parsers, used to run the model on examples.
    - The text of a PDF page is what [extract_text] returned for it; the
      three header patterns of [is_section_header] are parameters like the
      sentence pattern.  The vector collection is a state passed along,
      with its [count] and [upsert] as parameters. *)

From Stdlib Require Import List ZArith QArith String Ascii Bool Lia.
From Stdlib Require Import Sorted Permutation DecimalString.
From Stdlib Require DecimalPos DecimalN.
Import ListNotations.

Set Warnings "-register-all".

Local Open Scope string_scope.
Local Open Scope list_scope.
Local Open Scope Z_scope.

(* ================================================================== *)
(** * Python primitives *)
(* ================================================================== *)

(** [len(l)]. *)
Definition len {A : Type} (l : list A) : Z := Z.of_nat (List.length l).

(** [l[i]] for an index the code keeps in range; [d] stands for the
    [IndexError] the source would raise outside it. *)
Definition item {A : Type} (d : A) (l : list A) (i : Z) : A :=
  nth (Z.to_nat i) l d.

(** [l[:n]]: a negative bound counts from the end. *)
Definition slice_to {A : Type} (n : Z) (l : list A) : list A :=
  if 0 <=? n then firstn (Z.to_nat n) l
  else firstn (Z.to_nat (len l + n)) l.

(** [not l]. *)
Definition is_empty {A : Type} (l : list A) : bool :=
  match l with [] => true | _ => false end.

(** [sum(f(x) for x in l)]. *)
Definition zsum (l : list Z) : Z := fold_right Z.add 0 l.

(** [range(lo, hi)] as a list of integers. *)
Definition zrange (lo hi : Z) : list Z :=
  map (fun k => lo + Z.of_nat k) (seq 0 (Z.to_nat (hi - lo))).

Module Str.

Definition chars (s : string) : list ascii := list_ascii_of_string s.
Definition of_chars (l : list ascii) : string := string_of_list_ascii l.

(** [len(s)]. *)
Definition slen (s : string) : Z := Z.of_nat (String.length s).

(** [c.isspace()] on the ASCII range. *)
Definition is_space (c : ascii) : bool :=
  let n := nat_of_ascii c in
  ((9 <=? n) && (n <=? 13))%nat || ((28 <=? n) && (n <=? 32))%nat.

Fixpoint lstrip_chars (l : list ascii) : list ascii :=
  match l with
  | c :: r => if is_space c then lstrip_chars r else l
  | [] => []
  end.

Definition rstrip_chars (l : list ascii) : list ascii :=
  rev (lstrip_chars (rev l)).

(** [s.strip()]. *)
Definition strip (s : string) : string :=
  of_chars (rstrip_chars (lstrip_chars (chars s))).

(** Truth value of a string: non-empty. *)
Definition truthy (s : string) : bool :=
  match s with EmptyString => false | _ => true end.

Definition lower_char (c : ascii) : ascii :=
  let n := nat_of_ascii c in
  if ((65 <=? n) && (n <=? 90))%nat then ascii_of_nat (n + 32) else c.

Definition upper_char (c : ascii) : ascii :=
  let n := nat_of_ascii c in
  if ((97 <=? n) && (n <=? 122))%nat then ascii_of_nat (n - 32) else c.

(** [s.lower()]. *)
Definition lower (s : string) : string := of_chars (map lower_char (chars s)).

(** [s.capitalize()]: first character upper-cased, the rest lower-cased. *)
Definition capitalize (s : string) : string :=
  match s with
  | EmptyString => EmptyString
  | String c r => String (upper_char c) (lower r)
  end.

(** [s.startswith(p)]. *)
Definition startswith (p s : string) : bool := String.prefix p s.

(** [p in s]: substring test. *)
Fixpoint contains (p s : string) : bool :=
  String.prefix p s ||
  match s with
  | EmptyString => false
  | String _ r => contains p r
  end.

(** [sep.join(parts)]. *)
Fixpoint join (sep : string) (parts : list string) : string :=
  match parts with
  | [] => ""
  | [p] => p
  | p :: rest => (p ++ sep ++ join sep rest)%string
  end.

(** [s.split(c)] for a one-character separator: the fields between
    successive occurrences, always at least one field. *)
Fixpoint split_char_aux (c : ascii) (cur : list ascii) (l : list ascii)
  : list string :=
  match l with
  | [] => [of_chars (rev cur)]
  | x :: r =>
      if Ascii.eqb x c then of_chars (rev cur) :: split_char_aux c [] r
      else split_char_aux c (x :: cur) r
  end.

Definition split_char (c : ascii) (s : string) : list string :=
  split_char_aux c [] (chars s).

(** [s[:n]] for a non-negative bound. *)
Definition take (n : nat) (s : string) : string := String.substring 0 n s.

Definition newline : ascii := ascii_of_nat 10.
Definition nl : string := String newline EmptyString.

(** The double-quote character, and a text between double quotes. *)
Definition dquote : ascii := ascii_of_nat 34.
Definition quoted (s : string) : string :=
  String dquote (s ++ String dquote EmptyString)%string.

(** [s.endswith(p)]. *)
Definition rev_string (s : string) : string := of_chars (rev (chars s)).

Definition endswith (suffix s : string) : bool :=
  String.prefix (rev_string suffix) (rev_string s).

(** [s.lstrip()] and [s.rstrip()]. *)
Definition lstrip (s : string) : string := of_chars (lstrip_chars (chars s)).
Definition rstrip (s : string) : string := of_chars (rstrip_chars (chars s)).

(** [s[:-n]]. *)
Definition drop_last (n : nat) (s : string) : string :=
  take (String.length s - n) s.

(** First occurrence of [sep] in [s]: the text before and after it. *)
Fixpoint find_sep (sep : string) (before : list ascii) (s : string)
  : option (string * string) :=
  if String.prefix sep s
  then Some (of_chars (rev before),
             String.substring (String.length sep) (String.length s) s)
  else match s with
       | EmptyString => None
       | String c r => find_sep sep (c :: before) r
       end.

(** [\w] on the ASCII range: letters, digits and the underscore. *)
Definition is_word_char (c : ascii) : bool :=
  let n := nat_of_ascii c in
  (((48 <=? n) && (n <=? 57)) || ((65 <=? n) && (n <=? 90))
   || ((97 <=? n) && (n <=? 122)) || (n =? 95))%nat.

(** Maximal runs of characters satisfying [p], in order. *)
Fixpoint runs_aux (p : ascii -> bool) (cur : list ascii) (l : list ascii)
  : list string :=
  match l with
  | [] => match cur with [] => [] | _ => [of_chars (rev cur)] end
  | c :: r =>
      if p c then runs_aux p (c :: cur) r
      else match cur with
           | [] => runs_aux p [] r
           | _ => of_chars (rev cur) :: runs_aux p [] r
           end
  end.

(** [re.findall(r"\w{3,}", s)]: the runs of word characters that are at
    least three long. *)
Definition words3 (s : string) : list string :=
  filter (fun w => (3 <=? String.length w)%nat)
         (runs_aux is_word_char [] (chars s)).

(** [s.split()]: the runs of characters that are not white space. *)
Definition split_ws (s : string) : list string :=
  runs_aux (fun c => negb (is_space c)) [] (chars s).

(** [re.split(r"(?<=[" ++ marks ++ "])\s+", s)]: cut at every run of
    white space that directly follows one of the [marks]; the run is
    dropped, the mark stays with the field before it. *)
Fixpoint split_after_aux (marks : list ascii) (skipping : bool)
    (prev : option ascii) (cur : list ascii) (l : list ascii) : list string :=
  match l with
  | [] => [of_chars (rev cur)]
  | c :: r =>
      if is_space c then
        if skipping then split_after_aux marks true prev cur r
        else
          match prev with
          | Some m =>
              if existsb (Ascii.eqb m) marks
              then of_chars (rev cur) :: split_after_aux marks true None [] r
              else split_after_aux marks false (Some c) (c :: cur) r
          | None => split_after_aux marks false (Some c) (c :: cur) r
          end
      else split_after_aux marks false (Some c) (c :: cur) r
  end.

Definition split_after (marks : string) (s : string) : list string :=
  split_after_aux (chars marks) false None [] (chars s).

(** Distinct elements, first occurrences kept: a [set] of strings. *)
Fixpoint dedup (l : list string) : list string :=
  match l with
  | [] => []
  | x :: r => x :: filter (fun y => negb (String.eqb x y)) (dedup r)
  end.

Definition mem (x : string) (l : list string) : bool :=
  existsb (String.eqb x) l.

(** [len(a & b)] for two sets of strings given by lists. *)
Definition inter_size (a b : list string) : Z :=
  len (filter (fun x => mem x b) (dedup a)).

(** [s.upper()]. *)
Definition upper (s : string) : string := of_chars (map upper_char (chars s)).

(** [c.isalpha()] on the ASCII range. *)
Definition is_alpha (c : ascii) : bool :=
  let n := nat_of_ascii c in
  (((65 <=? n) && (n <=? 90)) || ((97 <=? n) && (n <=? 122)))%nat.

(** [s.count(c)] for a one-character [c]. *)
Definition count_char (c : ascii) (s : string) : Z :=
  len (filter (Ascii.eqb c) (chars s)).

End Str.

(* ================================================================== *)
(** * Python values as the normaliser sees them *)
(* ================================================================== *)

Module Py.

(** A [float]: a finite value (the rational it rounds from), an
    infinity or NaN. *)
Inductive float := Fin (q : Q) | PosInf | NegInf | NaN.

(** What [json.loads] can return. A [dict] keeps its insertion order. *)
Inductive value :=
| VNone
| VBool (b : bool)
| VInt (z : Z)
| VFloat (f : float)
| VStr (s : string)
| VList (l : list value)
| VDict (d : list (string * value)).

Inductive exn :=
| TypeError | ValueError | OverflowError | AttributeError | RecursionError.

(** Outcome of a call that may raise. *)
Inductive result (A : Type) := Ok (a : A) | Raise (e : exn).
Arguments Ok {A} a.
Arguments Raise {A} e.

Definition bind {A B : Type} (r : result A) (k : A -> result B) : result B :=
  match r with Ok a => k a | Raise e => Raise e end.

(** Outcome of [json.loads] where only [json.JSONDecodeError] is caught:
    the value, the decode error, or another exception, which the caller
    lets through (a plain [ValueError] on an integer literal of more
    than 4300 digits, a [RecursionError] on deep nesting). *)
Inductive loaded :=
| Loaded (v : value)
| JSONDecodeError
| LoadsRaised (e : exn).

(** [a < b] on floats; every comparison with NaN is false. *)
Definition flt (a b : float) : bool :=
  match a, b with
  | NaN, _ | _, NaN => false
  | _, NegInf => false
  | NegInf, _ => true
  | PosInf, _ => false
  | Fin _, PosInf => true
  | Fin x, Fin y => negb (Qle_bool y x)
  end.

(** [min(a, b)] and [max(a, b)] of two arguments: the first one is kept
    unless the second is strictly smaller (larger). *)
Definition min2 (a b : float) : float := if flt b a then b else a.
Definition max2 (a b : float) : float := if flt a b then b else a.

Definition zero : float := Fin 0.
Definition one : float := Fin 1.
Definition half : float := Fin (1 # 2).

(** Truth value of a float: false for 0.0 only. *)
Definition float_truthy (f : float) : bool :=
  match f with Fin q => negb (Qeq_bool q 0) | _ => true end.

(** Integers from this magnitude on do not convert to a float:
    [float(n)] raises [OverflowError]. *)
Definition FLOAT_INT_LIMIT : Z := 2 ^ 1024 - 2 ^ 970.

(** [float(v)].  [float_of_str] is [float] on a string ([None] for
    [ValueError]). *)
Definition to_float (float_of_str : string -> option float) (v : value)
  : result float :=
  match v with
  | VFloat f => Ok f
  | VInt z =>
      if Z.abs z <? FLOAT_INT_LIMIT then Ok (Fin (inject_Z z))
      else Raise OverflowError
  | VBool b => Ok (if b then one else zero)
  | VStr s =>
      match float_of_str s with Some f => Ok f | None => Raise ValueError end
  | VNone | VList _ | VDict _ => Raise TypeError
  end.

(** [int(v)].  [int_of_str] is [int] on a string. *)
Definition to_int (int_of_str : string -> option Z) (v : value) : result Z :=
  match v with
  | VInt z => Ok z
  | VBool b => Ok (if b then 1 else 0)
  | VFloat (Fin q) => Ok (Z.quot (Qnum q) (Z.pos (Qden q)))
  | VFloat NaN => Raise ValueError
  | VFloat _ => Raise OverflowError
  | VStr s =>
      match int_of_str s with Some z => Ok z | None => Raise ValueError end
  | VNone | VList _ | VDict _ => Raise TypeError
  end.

(** [str(n)] for an integer. *)
Definition str_of_int (z : Z) : string := NilZero.string_of_int (Z.to_int z).

(** [str(v)]: a string is itself, an integer is printed in decimal, [repr]
    prints the other values. *)
Definition to_str (repr : value -> string) (v : value) : string :=
  match v with
  | VStr s => s
  | VInt z => str_of_int z
  | _ => repr v
  end.

(** [d.get(k)] and [d.get(k, default)] on an insertion-ordered dict. *)
Fixpoint lookup {A : Type} (k : string) (d : list (string * A)) : option A :=
  match d with
  | [] => None
  | (k', v) :: r => if String.eqb k' k then Some v else lookup k r
  end.

Definition get {A : Type} (k : string) (d : list (string * A)) (default : A) : A :=
  match lookup k d with Some v => v | None => default end.

Definition has_key {A : Type} (k : string) (d : list (string * A)) : bool :=
  match lookup k d with Some _ => true | None => false end.

(** [d[k] = v]: an existing key keeps its place. *)
Fixpoint set {A : Type} (k : string) (v : A) (d : list (string * A))
  : list (string * A) :=
  match d with
  | [] => [(k, v)]
  | (k', v') :: r =>
      if String.eqb k' k then (k', v) :: r else (k', v') :: set k v r
  end.

(** [sorted(l, key=..., reverse=True)] / [l.sort(key=lambda x: -key(x))]:
    a stable sort, larger keys first.  [leb a b] is [key a <= key b]. *)
Fixpoint insert_desc {A : Type} (leb : A -> A -> bool) (x : A) (l : list A)
  : list A :=
  match l with
  | [] => [x]
  | y :: r => if leb y x then x :: l else y :: insert_desc leb x r
  end.

Definition sorted_desc {A : Type} (leb : A -> A -> bool) (l : list A) : list A :=
  fold_right (insert_desc leb) [] l.

(** Truth value of a value, and [a or b]. *)
Definition truthy (v : value) : bool :=
  match v with
  | VNone => false
  | VBool b => b
  | VInt z => negb (z =? 0)
  | VFloat f => float_truthy f
  | VStr s => Str.truthy s
  | VList l => negb (is_empty l)
  | VDict d => negb (is_empty d)
  end.

Definition or_else (a b : value) : value := if truthy a then a else b.

End Py.

(* ================================================================== *)
(** * Segmenter: [pdf_parser.py] *)
(* ================================================================== *)

Module Segmenter.

Record PageText := mkPageText
  { pt_page_number : Z; pt_text : string; char_count : Z; line_count : Z }.

Record Section_ := mkSection
  { title : string; sec_page_number : Z; line_index : Z }.

Record Chunk := mkChunk
  { chunk_id : string;
    text : string;
    token_count : Z;
    filename : string;
    page_number : Z;
    page_end : Z;
    section_title : string;
    char_start : Z;
    char_end : Z }.

Definition TARGET_TOKENS : Z := 800.
Definition OVERLAP_TOKENS : Z := 100.

(** [_split_sentences]: [re_split] is [_SENT_BOUNDARY.split], the
    regular-expression engine applied to the sentence pattern. *)
Definition _split_sentences (re_split : string -> list string)
    (text : string) : list string :=
  let parts := filter (fun p => Str.truthy (Str.strip p)) (re_split text) in
  let parts :=
    match parts with
    | [] => filter (fun p => Str.truthy (Str.strip p))
                   (Str.split_char Str.newline text)
    | _ => parts
    end in
  match parts with
  | [] => [text]
  | _ => parts
  end.

(** [_build_page_map]. *)
Fixpoint build_page_map_from (offset : Z) (pages : list PageText)
  : list (Z * Z) :=
  match pages with
  | [] => []
  | page :: rest =>
      (pt_page_number page, offset)
        :: build_page_map_from (offset + char_count page + 1) rest
  end.

Definition _build_page_map (pages : list PageText) : list (Z * Z) :=
  build_page_map_from 0 pages.

(** The [for ... break] scan shared by [_page_for_offset] and
    [_section_for_offset]: keep the value of the last entry whose start
    is not beyond [offset], stopping at the first that is. *)
Fixpoint scan_until {A : Type} (offset : Z) (result : A)
    (entries : list (A * Z)) : A :=
  match entries with
  | [] => result
  | (v, start) :: rest =>
      if offset <? start then result else scan_until offset v rest
  end.

(** [_page_for_offset].  On an empty map the source raises [IndexError]
    at [page_map[0][0]]; [chunk_document] returns before calling it then
    (no page, empty text), and the model answers 0. *)
Definition _page_for_offset (page_map : list (Z * Z)) (offset : Z) : Z :=
  match page_map with
  | [] => 0
  | (p0, _) :: _ => scan_until offset p0 page_map
  end.

(** First entry of the page map for page [pnum], else 0. *)
Fixpoint page_start_offset (page_map : list (Z * Z)) (pnum : Z) : Z :=
  match page_map with
  | [] => 0
  | (p, poff) :: rest => if p =? pnum then poff else page_start_offset rest pnum
  end.

(** Text of the first page numbered [pnum], else the empty string. *)
Fixpoint page_text_of (pages : list PageText) (pnum : Z) : string :=
  match pages with
  | [] => ""
  | p :: rest =>
      if pt_page_number p =? pnum then pt_text p else page_text_of rest pnum
  end.

Definition section_offset (pages : list PageText) (page_map : list (Z * Z))
    (sec : Section_) : Z :=
  let lines := Str.split_char Str.newline (page_text_of pages (sec_page_number sec)) in
  let line_offset :=
    zsum (map (fun i => Str.slen (item "" lines i) + 1)
              (zrange 0 (Z.min (line_index sec) (len lines)))) in
  page_start_offset page_map (sec_page_number sec) + line_offset.

(** [_section_for_offset]. *)
Definition _section_for_offset (sections : list Section_)
    (pages : list PageText) (page_map : list (Z * Z)) (offset : Z) : string :=
  match sections with
  | [] => "Unknown"
  | s0 :: _ =>
      scan_until offset (title s0)
        (map (fun sec => (title sec, section_offset pages page_map sec)) sections)
  end.

(** [f"{n:04d}"] for the non-negative chunk counter. *)
Definition format_04d (n : Z) : string :=
  let digits := NilZero.string_of_uint (N.to_uint (Z.to_N n)) in
  let pad := (4 - String.length digits)%nat in
  (Str.of_chars (repeat "0"%char pad) ++ digits)%string.

(** One pass of the body of the [while i < len(sentences)] loop, with the
    loop variables it leaves behind: where the chunk started, where the
    cursor stood when the chunk was closed, and where the overlap rewind
    put it for the next pass. *)
Record Step := mkStep
  { start_sent_idx : Z;
    end_sent_idx : Z;
    next_cursor : Z;
    emitted : Chunk }.

Section ChunkLoop.

(** [len(enc.encode(s))]: the tokenizer, a library call. *)
Variable encode_len : string -> nat.
(** [Path(filename).stem], a library call. *)
Variable path_stem : string -> string.

Variable pages : list PageText.
Variable sections : list Section_.
Variable fname : string.
Variable target_tokens overlap_tokens : Z.
Variable sentences : list string.

Definition sent_tokens : list Z :=
  map (fun s => Z.of_nat (encode_len s)) sentences.

(** Inner loop [while i < len(sentences) and chunk_tok_count +
    sent_tokens[i] <= target_tokens].  The counter [n] bounds the number
    of passes; [length sentences] is always enough (lemma
    [accumulate_exit] shows the guard is false on return). *)
Fixpoint accumulate (n : nat) (i : Z) (chunk_sents : list string)
    (chunk_tok_count : Z) : Z * list string * Z :=
  match n with
  | O => (i, chunk_sents, chunk_tok_count)
  | S n' =>
      if (i <? len sentences)
         && (chunk_tok_count + item 0 sent_tokens i <=? target_tokens)
      then accumulate n' (i + 1)
             (chunk_sents ++ [item "" sentences i])
             (chunk_tok_count + item 0 sent_tokens i)
      else (i, chunk_sents, chunk_tok_count)
  end.

(** Overlap loop [while j >= start_sent_idx and rewind_tokens <
    overlap_tokens]; returns [(j, rewind_tokens, rewind_count)]. *)
Fixpoint rewind (n : nat) (start_idx j rewind_tokens rewind_count : Z)
  : Z * Z * Z :=
  match n with
  | O => (j, rewind_tokens, rewind_count)
  | S n' =>
      if (start_idx <=? j) && (rewind_tokens <? overlap_tokens)
      then rewind n' start_idx (j - 1)
             (rewind_tokens + item 0 sent_tokens j) (rewind_count + 1)
      else (j, rewind_tokens, rewind_count)
  end.

(** Tokens and sentences of the index range [a, b). *)
Definition tok_range (a b : Z) : Z :=
  zsum (map (item 0 sent_tokens) (zrange a b)).

Definition sent_range (a b : Z) : list string :=
  map (item "" sentences) (zrange a b).

Definition build_chunk (start_idx : Z) (chunk_sents : list string)
    (chunk_tok_count chunk_idx : Z) : Chunk :=
  let page_map := _build_page_map pages in
  let chunk_text := Str.join " " chunk_sents in
  let char_start_approx :=
    zsum (map (fun j => Str.slen (item "" sentences j) + 1)
              (zrange 0 start_idx)) in
  let char_end_approx := char_start_approx + Str.slen chunk_text in
  {| chunk_id := (path_stem fname ++ "__chunk_" ++ format_04d chunk_idx)%string;
     text := chunk_text;
     token_count := chunk_tok_count;
     filename := fname;
     page_number := _page_for_offset page_map char_start_approx;
     page_end := _page_for_offset page_map char_end_approx;
     section_title :=
       _section_for_offset sections pages page_map char_start_approx;
     char_start := char_start_approx;
     char_end := char_end_approx |}.

(** The loop body for cursor [i] and counter [chunk_idx]; [None] is the
    [break] taken when no sentence was collected. *)
Definition chunk_step (i chunk_idx : Z) : option Step :=
  let start_idx := i in
  let '(i, chunk_sents, chunk_tok_count) :=
    accumulate (List.length sentences) i [] 0 in
  let '(i, chunk_sents, chunk_tok_count) :=
    if is_empty chunk_sents && (i <? len sentences)
    then (i + 1, chunk_sents ++ [item "" sentences i], item 0 sent_tokens i)
    else (i, chunk_sents, chunk_tok_count) in
  if is_empty chunk_sents then None
  else
    let chunk :=
      build_chunk start_idx chunk_sents chunk_tok_count (chunk_idx + 1) in
    let i' :=
      if i <? len sentences then
        let '(_, _, rewind_count) :=
          rewind (List.length sentences) start_idx (i - 1) 0 0 in
        Z.max (i - rewind_count) (start_idx + 1)
      else i in
    Some (mkStep start_idx i i' chunk).

(** [while i < len(sentences)]: [None] when the fuel runs out. *)
Fixpoint chunk_loop (fuel : nat) (i chunk_idx : Z) : option (list Step) :=
  match fuel with
  | O => None
  | S fuel' =>
      if i <? len sentences then
        match chunk_step i chunk_idx with
        | None => Some []
        | Some st =>
            option_map (cons st)
              (chunk_loop fuel' (next_cursor st) (chunk_idx + 1))
        end
      else Some []
  end.

(** What one pass of the body at cursor [i] leaves behind: the chunk is
    made of the sentences [i, e), it holds every sentence that fits (or the
    one sentence that does not), and the cursor [nx] for the next pass is
    beyond [i]. *)
Definition step_ok (i : Z) (st : Step) : Prop :=
  let n := len sentences in
  let tk := item 0 sent_tokens in
  let e := end_sent_idx st in
  let nx := next_cursor st in
  start_sent_idx st = i /\ i < e /\ e <= n /\
  text (emitted st) = Str.join " " (sent_range i e) /\
  token_count (emitted st) = tok_range i e /\
  (tok_range i e <= target_tokens \/ (e = i + 1 /\ target_tokens < tk i)) /\
  (e < n -> target_tokens < tok_range i (e + 1)) /\
  (e < n ->
     i < nx /\ nx <= e /\
     (nx < e -> tok_range (nx + 1) e < overlap_tokens) /\
     (nx = i + 1 \/ overlap_tokens <= tok_range nx e) /\
     (i + 2 <= e -> 0 < overlap_tokens -> nx < e)) /\
  (n <= e -> nx = e).

(** The steps of a run from cursor [i]: each is the body's pass at the
    cursor the previous one left. *)
Inductive chain : Z -> list Step -> Prop :=
| chain_done i : len sentences <= i -> chain i []
| chain_step i st rest :
    0 <= i < len sentences -> step_ok i st -> chain (next_cursor st) rest ->
    chain i (st :: rest).

End ChunkLoop.

(** ["\n".join(p.text for p in pages)]. *)
Definition full_text (pages : list PageText) : string :=
  Str.join Str.nl (map pt_text pages).

(** [chunk_document], with the steps of its loop. *)
Definition chunk_document_steps (encode_len : string -> nat)
    (path_stem : string -> string) (re_split : string -> list string)
    (fuel : nat) (pages : list PageText) (sections : list Section_)
    (fname : string) (target_tokens overlap_tokens : Z)
  : option (list Step) :=
  if negb (Str.truthy (Str.strip (full_text pages))) then Some []
  else
    let sentences := _split_sentences re_split (full_text pages) in
    chunk_loop encode_len path_stem pages sections fname
      target_tokens overlap_tokens sentences fuel 0 0.

Definition chunk_document (encode_len : string -> nat)
    (path_stem : string -> string) (re_split : string -> list string)
    (fuel : nat) (pages : list PageText) (sections : list Section_)
    (fname : string) (target_tokens overlap_tokens : Z)
  : option (list Chunk) :=
  option_map (map emitted)
    (chunk_document_steps encode_len path_stem re_split fuel pages sections
       fname target_tokens overlap_tokens).

(** ** Properties stated about the steps of a run *)

(** [P] holds of every element and its successor. *)
Fixpoint adjacent_pairs {A : Type} (P : A -> A -> Prop) (l : list A) : Prop :=
  match l with
  | [] => True
  | a :: rest =>
      match rest with [] => True | b :: _ => P a b end
      /\ adjacent_pairs P rest
  end.

(** The chunk of a step is made of the sentences [start, end). *)
Definition covers (encode_len : string -> nat) (sentences : list string)
    (st : Step) : Prop :=
  text (emitted st)
    = Str.join " " (sent_range sentences (start_sent_idx st) (end_sent_idx st))
  /\ token_count (emitted st)
    = tok_range encode_len sentences (start_sent_idx st) (end_sent_idx st).

(** Within the budget, or one sentence that is over it on its own. *)
Definition budget_ok (encode_len : string -> nat) (target_tokens : Z)
    (sentences : list string) (st : Step) : Prop :=
  token_count (emitted st) <= target_tokens
  \/ (end_sent_idx st = start_sent_idx st + 1
      /\ 0 <= start_sent_idx st < len sentences
      /\ text (emitted st) = item "" sentences (start_sent_idx st)
      /\ token_count (emitted st) = Z.of_nat (encode_len (text (emitted st)))
      /\ target_tokens < token_count (emitted st)).

Definition chunk_budget_ok (encode_len : string -> nat) (target_tokens : Z)
    (sentences : list string) (c : Chunk) : Prop :=
  token_count c <= target_tokens
  \/ (In (text c) sentences
      /\ token_count c = Z.of_nat (encode_len (text c))
      /\ target_tokens < token_count c).

(** Tokens of the sentences that close chunk [a] and open chunk [b]. *)
Definition shared_tokens (encode_len : string -> nat)
    (sentences : list string) (a b : Step) : Z :=
  tok_range encode_len sentences (start_sent_idx b) (end_sent_idx a).

(** The overlap as the specification words it: at most the overlap
    budget, and at least one sentence. *)
Definition overlap_as_specified (encode_len : string -> nat)
    (overlap_tokens : Z) (sentences : list string) (a b : Step) : Prop :=
  shared_tokens encode_len sentences a b <= overlap_tokens
  /\ start_sent_idx b < end_sent_idx a.

(** The overlap as the loop produces it. *)
Definition overlap_as_built (encode_len : string -> nat)
    (overlap_tokens : Z) (sentences : list string) (a b : Step) : Prop :=
  end_sent_idx a < len sentences
  /\ start_sent_idx b = next_cursor a
  /\ start_sent_idx a < start_sent_idx b
  /\ start_sent_idx b <= end_sent_idx a
  /\ end_sent_idx a <= end_sent_idx b
  /\ (start_sent_idx b = end_sent_idx a
      \/ tok_range encode_len sentences (start_sent_idx b + 1) (end_sent_idx a)
         < overlap_tokens)
  /\ (end_sent_idx a = start_sent_idx a + 1
      \/ overlap_tokens <= 0
      \/ start_sent_idx b < end_sent_idx a)
  /\ (start_sent_idx b = start_sent_idx a + 1
      \/ overlap_tokens <= shared_tokens encode_len sentences a b).

(** A property [P] of the overlap as the specification claims it for the
    run on a sentence list: [P] holds of every chunk that is followed by
    another one while sentences remain, and is not among the last two. *)
Definition overlap_claim_for (P : Step -> Step -> Prop)
    (encode_len : string -> nat)
    (path_stem : string -> string) (pages : list PageText)
    (sections : list Section_) (fname : string)
    (target_tokens overlap_tokens : Z) (sentences : list string) : Prop :=
  forall steps l1 a b l2,
    chunk_loop encode_len path_stem pages sections fname target_tokens
      overlap_tokens sentences (S (List.length sentences)) 0 0 = Some steps ->
    steps = l1 ++ a :: b :: l2 ->
    l2 <> [] ->
    end_sent_idx a < len sentences ->
    P a b.

(** The overlap property of the specification: at most the overlap budget
    and at least one sentence. *)
Definition overlap_claim (encode_len : string -> nat)
    (path_stem : string -> string) (pages : list PageText)
    (sections : list Section_) (fname : string)
    (target_tokens overlap_tokens : Z) (sentences : list string) : Prop :=
  overlap_claim_for (overlap_as_specified encode_len overlap_tokens sentences)
    encode_len path_stem pages sections fname target_tokens overlap_tokens
    sentences.

(** A run used as an example: six sentences of 3, 4, 2, 13, 2 and 3
    tokens (one token per character), target 10, overlap 4. *)
Definition overlap_sample_page : PageText :=
  {| pt_page_number := 1;
     pt_text := "aaa bbbb cc ddddddddddddd ee fff";
     char_count := 32;
     line_count := 1 |}.

Definition overlap_sample_sentences : list string :=
  ["aaa"; "bbbb"; "cc"; "ddddddddddddd"; "ee"; "fff"].

End Segmenter.

(* ================================================================== *)
(** * Pages, section headers and the pipeline of one file:
      [pdf_parser.py] *)
(* ================================================================== *)

Module Parser.
Import Segmenter.

Section Headers.

(** [_RE_NUMBERED.match], [_RE_ALLCAPS.match] and
    [_SECTION_KEYWORDS.match]: the regular-expression engine applied to
    the three header patterns. *)
Variable re_numbered re_allcaps re_keywords : string -> bool.

(** [is_section_header]. *)
Definition is_section_header (line : string) : bool :=
  let stripped := Str.strip line in
  if negb (Str.truthy stripped) || (120 <? Str.slen stripped) then false
  else if Str.slen stripped <? 4 then false
  else if re_numbered stripped then true
  else
    let alpha_chars := len (filter Str.is_alpha (Str.chars stripped)) in
    if (4 <=? alpha_chars) && String.eqb stripped (Str.upper stripped)
       && re_allcaps stripped
    then true
    else if re_keywords stripped then true
    else false.

(** [clean_header]. *)
Definition clean_header (raw : string) : string :=
  Str.take 100 (Str.strip raw).

(** [enumerate(l)], counting from [k]. *)
Fixpoint enumerate_from {A : Type} (k : Z) (l : list A) : list (Z * A) :=
  match l with
  | [] => []
  | x :: r => (k, x) :: enumerate_from (k + 1) r
  end.

(** The headers of one page. *)
Definition page_sections (page : PageText) : list Section_ :=
  flat_map
    (fun '(line_idx, line) =>
       if is_section_header line
       then [ {| title := clean_header line;
                 sec_page_number := pt_page_number page;
                 line_index := line_idx |} ]
       else [])
    (enumerate_from 0 (Str.split_char Str.newline (pt_text page))).

(** [detect_sections]. *)
Definition detect_sections (pages : list PageText) : list Section_ :=
  flat_map page_sections pages.

End Headers.

(** The page record [extract_pages] builds for the [i]-th page, from
    what [page.extract_text()] returned. *)
Definition page_of_text (i : Z) (extracted : option string) : PageText :=
  let text := match extracted with Some t => t | None => "" end in
  {| pt_page_number := i;
     pt_text := text;
     char_count := Str.slen text;
     line_count :=
       if Str.truthy text then Str.count_char Str.newline text + 1 else 0 |}.

(** [extract_pages], the document given as the results of
    [extract_text] on its pages, in order. *)
Definition extract_pages (extracted : list (option string)) : list PageText :=
  map (fun '(i, t) => page_of_text i t) (enumerate_from 1 extracted).

(** [parse_pdf]: extract, detect sections, chunk with the default token
    budgets; [name] is [pdf_path.name]. *)
Definition parse_pdf (encode_len : string -> nat)
    (path_stem : string -> string) (re_split : string -> list string)
    (re_numbered re_allcaps re_keywords : string -> bool)
    (fuel : nat) (extracted : list (option string)) (name : string)
  : option (list Chunk) :=
  let pages := extract_pages extracted in
  let sections := detect_sections re_numbered re_allcaps re_keywords pages in
  chunk_document encode_len path_stem re_split fuel pages sections name
    TARGET_TOKENS OVERLAP_TOKENS.

End Parser.
(* ================================================================== *)
(** * Retrieval engine: [retriever.py] *)
(* ================================================================== *)

Module Retriever.

(** Metadata stored with a vector.  The store returns what ingestion
    ([embeddings.py]) wrote, where each of these keys is present, so the
    defaults of [m.get(key, default)] are never used. *)
Record Metadata := mkMetadata
  { md_filename : string;
    md_page_number : Z;
    md_page_end : Z;
    md_section_title : string }.

(** A hit returned by [EmbeddingStore.query]. *)
Record Hit := mkHit
  { chunk_id : string;
    text : string;
    score : Q;
    metadata : Metadata }.

Definition TOP_K_PER_QUERY : Z := 8.
Definition FINAL_TOP_K : Z := 10.
Definition NUM_QUERY_VARIANTS : Z := 3.

(** Outcome of [_call_ollama]: the text, or an exception. *)
Inductive Outcome := Raised (msg : string) | Returned (raw : string).

(** [s.split(sep, 1)[-1]]: what follows the first [sep], or [s]. *)
Definition split1_last (sep s : string) : string :=
  match Str.find_sep sep [] s with Some (_, after) => after | None => s end.

(** [s.rsplit(sep, 1)[0]]: what precedes the last [sep], or [s]. *)
Definition rsplit1_first (sep s : string) : string :=
  match Str.find_sep (Str.rev_string sep) [] (Str.rev_string s) with
  | Some (_, after) => Str.rev_string after
  | None => s
  end.

Definition fence : string := "```".

(** The fence stripping of [expand_query]. *)
Definition strip_fences (raw : string) : string :=
  let cleaned := Str.strip raw in
  let cleaned :=
    if Str.startswith fence cleaned then split1_last Str.nl cleaned
    else cleaned in
  let cleaned :=
    if Str.endswith fence cleaned then rsplit1_first fence cleaned
    else cleaned in
  Str.strip cleaned.

(** [_heuristic_expand]. *)
Definition _heuristic_expand (question : string) (n : Z) : list string :=
  let variants :=
    [ question;
      ("coverage policy benefits " ++ question)%string;
      ("exclusions waiting period sub-limit " ++ question)%string ] in
  slice_to n variants.

(** [expand_query].  [call] is the outcome of [_call_ollama] on the
    expansion prompt, [json_loads] is [json.loads] ([None] when it
    raises), [repr] prints a value that is not a string.  Every exception
    raised inside the [try] lands in the [except Exception] handler. *)
Definition expand_query (json_loads : string -> option Py.value)
    (repr : Py.value -> string) (call : Outcome)
    (question : string) (n : Z) : list string :=
  match call with
  | Raised _ => _heuristic_expand question n
  | Returned raw =>
      match json_loads (strip_fences raw) with
      | None => _heuristic_expand question n
      | Some (Py.VList variants) =>
          if 1 <=? len variants
          then map (Py.to_str repr) (slice_to n variants)
          else _heuristic_expand question n
      | Some _ => _heuristic_expand question n
      end
  end.

(** The query list of [retrieve]: the question, then the variants that
    differ from it when both are lower-cased. *)
Definition all_queries (question : string) (variants : list string)
  : list string :=
  question
    :: filter (fun v => negb (String.eqb (Str.lower v) (Str.lower question)))
              variants.

(** [score(a) <= score(b)]. *)
Definition score_leb (a b : Hit) : bool := Qle_bool (score a) (score b).

(** One pass of [for hit in all_hits]: the hit replaces the entry of its
    chunk id when there is none or when its score is strictly higher. *)
Definition merge_hit (best_by_id : list (string * Hit)) (hit : Hit)
  : list (string * Hit) :=
  let cid := chunk_id hit in
  match Py.lookup cid best_by_id with
  | None => Py.set cid hit best_by_id
  | Some old =>
      if negb (Qle_bool (score hit) (score old))
      then Py.set cid hit best_by_id
      else best_by_id
  end.

Definition merge_hits (all_hits : list Hit) : list (string * Hit) :=
  fold_left merge_hit all_hits [].

Record Retrieval := mkRetrieval
  { r_question : string;
    query_variants : list string;
    total_retrieved : Z;
    unique_chunks : Z;
    results : list Hit }.

(** Steps 3 and 4 of [retrieve] on the collected hits. *)
Definition rank (all_hits : list Hit) (final_top_k : Z) : list Hit :=
  let best_by_id := merge_hits all_hits in
  let unique_sorted := Py.sorted_desc score_leb (map snd best_by_id) in
  slice_to final_top_k unique_sorted.

(** [MultiQueryRetriever.retrieve].  [expand] is [expand_query] with the
    generation service behind it, [store_query] is
    [self.store.query]. *)
Definition retrieve (expand : string -> Z -> list string)
    (store_query : string -> Z -> list Hit)
    (question : string) (top_k_per_query final_top_k num_variants : Z)
  : Retrieval :=
  let variants := expand question num_variants in
  let queries := all_queries question variants in
  let all_hits := flat_map (fun q => store_query q top_k_per_query) queries in
  {| r_question := question;
     query_variants := queries;
     total_retrieved := len all_hits;
     unique_chunks := len (merge_hits all_hits);
     results := rank all_hits final_top_k |}.

(** ** Properties stated about the retrieval *)

(** Case-insensitive equality of two queries. *)
Definition same_query (a b : string) : Prop := Str.lower a = Str.lower b.

(** No two elements of the list are case-insensitively equal. *)
Fixpoint pairwise_distinct_queries (l : list string) : Prop :=
  match l with
  | [] => True
  | q :: r => Forall (fun v => ~ same_query q v) r /\ pairwise_distinct_queries r
  end.

(** [h] carries the best score seen for its chunk id among [hits]. *)
Definition best_of (hits : list Hit) (h : Hit) : Prop :=
  In h hits
  /\ Forall (fun h' => chunk_id h' = chunk_id h -> Qle (score h') (score h)) hits.

(** Scores never increase along the list. *)
Definition descending (l : list Hit) : Prop :=
  Sorted (fun a b => Qle (score b) (score a)) l.

(** What the dictionary holds once the hits [seen] have been merged. *)
Definition merged_inv (best : list (string * Hit)) (seen : list Hit) : Prop :=
  NoDup (map fst best)
  /\ (forall k h, In (k, h) best -> k = chunk_id h /\ best_of seen h)
  /\ (forall h, In h seen -> In (chunk_id h) (map fst best)).

(** The de-duplication as the specification states it: no two executed
    queries are equal up to case. *)
Definition query_dedup_claim : Prop :=
  forall (expand : string -> Z -> list string)
         (store_query : string -> Z -> list Hit)
         (question : string) (top_k_per_query final_top_k num_variants : Z),
    pairwise_distinct_queries
      (query_variants
         (retrieve expand store_query question top_k_per_query final_top_k
            num_variants)).

(** The generation-service call of [expand_query] failed: it raised, or
    its output is not a parseable JSON array. *)
Definition expansion_failed (json_loads : string -> option Py.value)
    (call : Outcome) : Prop :=
  match call with
  | Raised _ => True
  | Returned raw =>
      match json_loads (strip_fences raw) with
      | None => True
      | Some (Py.VList _) => False
      | Some _ => True
      end
  end.

(** The hits of the de-duplication self-test. *)
Definition sample_hit (cid : string) (s : Q) (t : string) : Hit :=
  {| chunk_id := cid; text := t; score := s;
     metadata := mkMetadata "" 0 0 "" |}.

Definition sample_hits : list Hit :=
  [ sample_hit "a" (8 # 10) "t1";
    sample_hit "b" (7 # 10) "t2";
    sample_hit "a" (9 # 10) "t1";
    sample_hit "c" (6 # 10) "t3" ].

End Retriever.

(* ================================================================== *)
(** * Ingestion into the vector store: [embeddings.py] *)
(* ================================================================== *)

Module Store.

Definition BATCH_SIZE : Z := 128.

(** [range(lo, hi, step)] for a positive step. *)
Definition range_step (lo hi step : Z) : list Z :=
  map (fun k => lo + k * step) (zrange 0 ((hi - lo + step - 1) / step)).

(** [l[a:b]] for [0 <= a <= b]. *)
Definition slice {A : Type} (a b : Z) (l : list A) : list A :=
  firstn (Z.to_nat (b - a)) (skipn (Z.to_nat a) l).

(** The metadata stored with a vector: seven keys of the chunk. *)
Record StoredMetadata := mkStoredMetadata
  { sm_filename : string;
    sm_page_number : Z;
    sm_page_end : Z;
    sm_section_title : string;
    sm_token_count : Z;
    sm_char_start : Z;
    sm_char_end : Z }.

Definition metadata_of (c : Segmenter.Chunk) : StoredMetadata :=
  {| sm_filename := Segmenter.filename c;
     sm_page_number := Segmenter.page_number c;
     sm_page_end := Segmenter.page_end c;
     sm_section_title := Segmenter.section_title c;
     sm_token_count := Segmenter.token_count c;
     sm_char_start := Segmenter.char_start c;
     sm_char_end := Segmenter.char_end c |}.

(** The arguments of one [collection.upsert] call. *)
Record UpsertCall (E : Type) := mkUpsertCall
  { ids : list string;
    documents : list string;
    embeddings : list E;
    metadatas : list StoredMetadata }.
Arguments mkUpsertCall {E} _ _ _ _.
Arguments ids {E} _.
Arguments documents {E} _.
Arguments embeddings {E} _.
Arguments metadatas {E} _.

(** What [ingest_chunks] returns (timings left out). *)
Inductive Summary :=
| Skipped (existing_count expected_count : Z)
| Success (chunks_ingested collection_count : Z).

Section Ingest.

(** Vectors and the collection are the libraries' own; [embed_texts] is
    [self.embed_texts], [count] and [upsert] are the collection's
    methods, the collection being passed as state. *)
Variable E Coll : Type.
Variable embed_texts : list string -> list E.
Variable count : Coll -> Z.
Variable upsert : Coll -> UpsertCall E -> Coll.

(** The batches [chunks[batch_start : batch_start + BATCH_SIZE]] of the
    loop over [range(0, len(chunks), BATCH_SIZE)]. *)
Definition batches (chunks : list Segmenter.Chunk)
  : list (list Segmenter.Chunk) :=
  map (fun batch_start => slice batch_start (batch_start + BATCH_SIZE) chunks)
      (range_step 0 (len chunks) BATCH_SIZE).

Definition call_of (batch : list Segmenter.Chunk) : UpsertCall E :=
  {| ids := map Segmenter.chunk_id batch;
     documents := map Segmenter.text batch;
     embeddings := embed_texts (map Segmenter.text batch);
     metadatas := map metadata_of batch |}.

(** One pass of the loop on the collection and [total_embedded]. *)
Definition ingest_step (st : Coll * Z) (batch : list Segmenter.Chunk)
  : Coll * Z :=
  (upsert (fst st) (call_of batch), snd st + len batch).

(** [ingest_chunks]. *)
Definition ingest_chunks (collection : Coll)
    (chunks : list Segmenter.Chunk) (force : bool) : Summary * Coll :=
  let existing := count collection in
  if (len chunks <=? existing) && negb force
  then (Skipped existing (len chunks), collection)
  else
    let st := fold_left ingest_step (batches chunks) (collection, 0) in
    (Success (snd st) (count (fst st)), fst st).

End Ingest.

End Store.
(* ================================================================== *)
(** * Answer normaliser: [agent.py] *)
(* ================================================================== *)

Module Agent.

Import Py.

Record Citation := mkCitation
  { file : string; page : Z; section : string; quote : string }.

(** The ["_meta"] record.  Wall-clock timings are left out; an absent key
    is [None] (or [false] for the ["fallback"] flag). *)
Record Meta := mkMeta
  { m_question : string;
    m_error : option string;
    m_fallback : bool;
    m_raw_response : option string;
    m_filename_filter : option string;
    m_model : option string;
    m_chunks_retrieved : option Z;
    m_query_variants : list string }.

Record Verdict := mkVerdict
  { covered : string;
    confidence : float;
    explanation : string;
    citations : list Citation;
    caveats : list string;
    meta : option Meta }.

(** ** JSON helpers *)

(** [re.sub(r"^```(?:json)?\s*\n?", "", s)] on a string that starts with
    the fence: the fence, an optional [json] tag and the white space
    after them go. *)
Definition strip_fence_open (s : string) : string :=
  if Str.startswith "```" s then
    let rest := String.substring 3 (String.length s) s in
    let rest :=
      if Str.startswith "json" rest
      then String.substring 4 (String.length rest) rest
      else rest in
    Str.lstrip rest
  else s.

(** [re.sub(r"\n?```\s*$", "", s)]: a closing fence at the end of the
    text, the white space after it and one newline before it go. *)
Definition strip_fence_close (s : string) : string :=
  let t := Str.rstrip s in
  if Str.endswith "```" t then
    let u := Str.drop_last 3 t in
    if Str.endswith Str.nl u then Str.drop_last 1 u else u
  else s.

(** [re.search(r"\{[\s\S]*\}", s)]: from the first opening brace to the
    last closing brace after it. *)
Definition brace_span (s : string) : option string :=
  match Str.find_sep "{" [] s with
  | None => None
  | Some (_, after) =>
      match Str.find_sep "}" [] (Str.rev_string after) with
      | None => None
      | Some (_, inner_rev) =>
          Some ("{" ++ Str.rev_string inner_rev ++ "}")%string
      end
  end.

(** The text [_extract_json] parses: stripped, and without its fence
    when it starts with one. *)
Definition clean_text (text : string) : string :=
  let cleaned := Str.strip text in
  if Str.startswith "```" cleaned
  then Str.strip (strip_fence_close (strip_fence_open cleaned))
  else cleaned.

(** One [try: obj = json.loads(s) ... except json.JSONDecodeError: pass]
    of [_extract_json]: the object when the text parses to a dict,
    nothing when it parses to something else or [json.loads] reports a
    decode error; any other exception of [json.loads] is not caught. *)
Definition try_loads (json_loads : string -> loaded) (s : string)
  : result (option (list (string * value))) :=
  match json_loads s with
  | Loaded (VDict obj) => Ok (Some obj)
  | Loaded _ => Ok None
  | JSONDecodeError => Ok None
  | LoadsRaised e => Raise e
  end.

(** [_extract_json]; [json_loads] is [json.loads]. *)
Definition _extract_json (json_loads : string -> loaded) (text : string)
  : result (option (list (string * value))) :=
  let cleaned := clean_text text in
  bind (try_loads json_loads cleaned) (fun direct =>
    match direct with
    | Some obj => Ok (Some obj)
    | None =>
        match brace_span cleaned with
        | Some span => try_loads json_loads span
        | None => Ok None
        end
    end).

(** [_flatten_value]. *)
Fixpoint _flatten_value (val : value) : value :=
  match val with
  | VDict d =>
      let fix find_value (d : list (string * value)) : option value :=
        match d with
        | [] => None
        | (k, v) :: r =>
            if String.eqb k "value" then Some (_flatten_value v)
            else find_value r
        end in
      let fix flatten_items (d : list (string * value))
        : list (string * value) :=
        match d with
        | [] => []
        | (k, v) :: r => (k, _flatten_value v) :: flatten_items r
        end in
      match (if len d <=? 3 then find_value d else None) with
      | Some v => v
      | None => VDict (flatten_items d)
      end
  | VList l => VList (map _flatten_value l)
  | _ => val
  end.

(** [_safe_int]: [TypeError] and [ValueError] give 0; an [OverflowError]
    (an infinite float) is not caught. *)
Definition _safe_int (int_of_str : string -> option Z) (val : value)
  : result Z :=
  match to_int int_of_str val with
  | Ok z => Ok z
  | Raise TypeError | Raise ValueError => Ok 0
  | Raise e => Raise e
  end.

(** ** [_validate_response], field by field *)

Section Validate.

Variable float_of_str : string -> option float.
Variable int_of_str : string -> option Z.
Variable repr : value -> string.

Definition valid_covered : list string := ["Yes"; "No"; "Partial"; "Unknown"].

Definition validate_covered (data : list (string * value)) : string :=
  match get "covered" data (get "answer" data (VStr "Unknown")) with
  | VStr covered =>
      if Str.mem (Str.capitalize covered) valid_covered
      then Str.capitalize covered
      else "Unknown"
  | _ => "Unknown"
  end.

Definition validate_confidence (data : list (string * value))
  : result float :=
  match to_float float_of_str (get "confidence" data (VFloat zero)) with
  | Ok conf => Ok (max2 zero (min2 one conf))
  | Raise TypeError | Raise ValueError => Ok zero
  | Raise e => Raise e
  end.

Definition validate_explanation (data : list (string * value)) : string :=
  match get "explanation" data (VStr "") with
  | VStr s => Str.strip s
  | VDict d =>
      match lookup "value" d with
      | Some v => Str.strip (to_str repr v)
      | None => to_str repr (VDict d)
      end
  | other => to_str repr other
  end.

(** One entry of the raw citation list; entries that are not dicts
    are skipped. *)
Definition validate_citation (c : value) : result (option Citation) :=
  match c with
  | VDict _ =>
      match _flatten_value c with
      | VDict c =>
          bind (_safe_int int_of_str
                  (get "page" c (get "page_number" c (VInt 0))))
            (fun p =>
               Ok (Some
                 {| file := to_str repr (get "file" c (get "filename" c (VStr "")));
                    page := p;
                    section := to_str repr
                                 (get "section" c (get "section_title" c (VStr "")));
                    quote := to_str repr (get "quote" c (get "text" c (VStr ""))) |}))
      | _ => Raise AttributeError
      end
  | _ => Ok None
  end.

Fixpoint validate_citation_list (l : list value) : result (list Citation) :=
  match l with
  | [] => Ok []
  | c :: r =>
      bind (validate_citation c) (fun oc =>
      bind (validate_citation_list r) (fun rest =>
      Ok (match oc with Some cit => cit :: rest | None => rest end)))
  end.

Definition validate_citations (data : list (string * value))
  : result (list Citation) :=
  match get "citations" data (VList []) with
  | VList l => validate_citation_list l
  | _ => Ok []
  end.

(** First string value of a dict-shaped caveat that is not blank. *)
Fixpoint first_text (d : list (string * value)) : list string :=
  match d with
  | [] => []
  | (_, VStr v) :: r =>
      if Str.truthy (Str.strip v) then [Str.strip v] else first_text r
  | _ :: r => first_text r
  end.

(** A blank string falls through to the last branch and is kept as it
    is ([str(cv)]). *)
Definition validate_caveat (cv : value) : list string :=
  match cv with
  | VStr s => if Str.truthy (Str.strip s) then [Str.strip s] else [s]
  | VDict d => first_text d
  | VNone => []
  | other => [to_str repr other]
  end.

Definition validate_caveats (data : list (string * value)) : list string :=
  match get "caveats" data (VList []) with
  | VList l => flat_map validate_caveat l
  | VStr s => if Str.truthy (Str.strip s) then [Str.strip s] else []
  | _ => []
  end.

Definition known_keys : list string :=
  ["covered"; "answer"; "confidence"; "explanation";
   "citations"; "caveats"; "type"; "value"].

Fixpoint collect_extras (data : list (string * value)) : list string :=
  match data with
  | [] => []
  | (k, VStr v) :: r =>
      if negb (Str.mem k known_keys) && (10 <? Str.slen v)
      then v :: collect_extras r
      else collect_extras r
  | _ :: r => collect_extras r
  end.

(** [_validate_response].  After flattening, [data.get] needs a dict;
    on anything else the source raises [AttributeError]. *)
Definition _validate_response (data : list (string * value))
  : result Verdict :=
  match _flatten_value (VDict data) with
  | VDict data =>
      let covered := validate_covered data in
      bind (validate_confidence data) (fun conf =>
      let explanation := validate_explanation data in
      bind (validate_citations data) (fun citations =>
      let caveats := validate_caveats data in
      let extras := collect_extras data in
      let explanation :=
        if negb (is_empty extras) && (Str.slen explanation <? 30)
        then Str.take 1000 (Str.join " " extras)
        else explanation in
      Ok {| covered := covered;
            confidence := conf;
            explanation := explanation;
            citations := citations;
            caveats := caveats;
            meta := None |}))
  | _ => Raise AttributeError
  end.

End Validate.

(** [_fallback_response]. *)
Definition _fallback_response (question error : string) : Verdict :=
  {| covered := "Unknown";
     confidence := zero;
     explanation :=
       ("Could not determine coverage. The model response "
        ++ "could not be parsed as valid JSON. Error: " ++ error)%string;
     citations := [];
     caveats := [];
     meta := Some {| m_question := question;
                     m_error := Some error;
                     m_fallback := true;
                     m_raw_response := None;
                     m_filename_filter := None;
                     m_model := None;
                     m_chunks_retrieved := None;
                     m_query_variants := [] |} |}.

(** ** Citation backfill *)

(** [_best_sentence]. *)
Definition score_sentences (q_words : list string) (sentences : list string)
  : list (Z * string) :=
  flat_map
    (fun s =>
       let s := Str.strip s in
       if Str.slen s <? 20 then []
       else [(Str.inter_size q_words (Str.words3 (Str.lower s)), s)])
    sentences.

Definition _best_sentence (text question : string) : string :=
  let q_words := Str.words3 (Str.lower question) in
  let sentences := Str.split_after ".;" text in
  let scored :=
    sorted_desc (fun a b => fst a <=? fst b)
                (score_sentences q_words sentences) in
  match scored with
  | (_, s) :: _ => s
  | [] =>
      match filter (fun s => 30 <=? Str.slen (Str.strip s)) sentences with
      | s :: _ => Str.strip s
      | [] => Str.take 300 text
      end
  end.

(** [cit.get("quote", "").strip()] is empty. *)
Definition blank (s : string) : bool := negb (Str.truthy (Str.strip s)).

Definition set_quote (cit : Citation) (q : string) : Citation :=
  {| file := file cit; page := page cit; section := section cit; quote := q |}.

(** [fname.lower() in m.get("filename", "").lower()]. *)
Definition file_match (cit : Citation) (chunk : Retriever.Hit) : bool :=
  Str.contains (Str.lower (file cit))
    (Str.lower (Retriever.md_filename (Retriever.metadata chunk))).

(** The file matches and [page_number <= page <= page_end]. *)
Definition exact_match (cit : Citation) (chunk : Retriever.Hit) : bool :=
  file_match cit chunk
  && (Retriever.md_page_number (Retriever.metadata chunk) <=? page cit)
  && (page cit <=? Retriever.md_page_end (Retriever.metadata chunk)).

(** The body of [for cit in citations]. *)
Definition backfill_one (chunks : list Retriever.Hit) (question : string)
    (cit : Citation) : Citation :=
  if negb (blank (quote cit)) then cit
  else
    let cit :=
      match find (exact_match cit) chunks with
      | Some chunk =>
          set_quote cit (_best_sentence (Retriever.text chunk) question)
      | None => cit
      end in
    if blank (quote cit) then
      match find (file_match cit) chunks with
      | Some chunk =>
          set_quote cit (_best_sentence (Retriever.text chunk) question)
      | None => cit
      end
    else cit.

(** A citation made from one of the top chunks. *)
Definition citation_of_chunk (question : string) (chunk : Retriever.Hit)
  : Citation :=
  let m := Retriever.metadata chunk in
  {| file := Retriever.md_filename m;
     page := Retriever.md_page_number m;
     section := Retriever.md_section_title m;
     quote := _best_sentence (Retriever.text chunk) question |}.

(** [_backfill_citations]. *)
Definition _backfill_citations (citations : list Citation)
    (chunks : list Retriever.Hit) (question : string) : list Citation :=
  let citations := map (backfill_one chunks question) citations in
  let citations :=
    match citations with
    | [] => map (citation_of_chunk question) (slice_to 3 chunks)
    | _ => citations
    end in
  filter (fun c => negb (blank (quote c))) citations.

(** ** [CoverageAgent.ask] *)

(** Outcome of the generation-service call at step 4. *)
Inductive Llm :=
| ConnectionError
| OtherError (msg : string)
| Response (raw : string).

Definition with_citations (v : Verdict) (c : list Citation) : Verdict :=
  {| covered := covered v; confidence := confidence v;
     explanation := explanation v; citations := c;
     caveats := caveats v; meta := meta v |}.

Definition with_meta (v : Verdict) (m : Meta) : Verdict :=
  {| covered := covered v; confidence := confidence v;
     explanation := explanation v; citations := citations v;
     caveats := caveats v; meta := Some m |}.

Definition with_explanation (v : Verdict) (e : string) : Verdict :=
  {| covered := covered v; confidence := confidence v;
     explanation := e; citations := citations v;
     caveats := caveats v; meta := meta v |}.

Definition with_raw_response (v : Verdict) (raw : string) : Verdict :=
  match meta v with
  | Some m =>
      with_meta v
        {| m_question := m_question m; m_error := m_error m;
           m_fallback := m_fallback m; m_raw_response := Some raw;
           m_filename_filter := m_filename_filter m; m_model := m_model m;
           m_chunks_retrieved := m_chunks_retrieved m;
           m_query_variants := m_query_variants m |}
  | None => v
  end.

(** Step 5 when the text does not parse. *)
Definition unparseable_response (question raw_response : string) : Verdict :=
  let result := _fallback_response question "Response was not valid JSON" in
  let result :=
    if 20 <? Str.slen (Str.strip raw_response)
    then with_explanation result (Str.take 1000 (Str.strip raw_response))
    else result in
  with_raw_response result (Str.take 2000 raw_response).

(** Steps 5 to 7: from the raw text of the generation service to the
    verdict. *)
Definition normalise (json_loads : string -> loaded)
    (float_of_str : string -> option float)
    (int_of_str : string -> option Z) (repr : value -> string)
    (model : string) (retrieval : Retriever.Retrieval)
    (chunks : list Retriever.Hit) (question : string)
    (filename_filter : option string) (raw_response : string)
  : result Verdict :=
  bind (_extract_json json_loads raw_response) (fun parsed =>
  match parsed with
  | None => Ok (unparseable_response question raw_response)
  | Some parsed =>
      bind (_validate_response float_of_str int_of_str repr parsed)
        (fun result =>
           let result :=
             with_citations result
               (_backfill_citations (citations result) chunks question) in
           Ok (with_meta result
                 {| m_question := question;
                    m_error := None;
                    m_fallback := false;
                    m_raw_response := None;
                    m_filename_filter := filename_filter;
                    m_model := Some model;
                    m_chunks_retrieved := Some (len chunks);
                    m_query_variants := Retriever.query_variants retrieval |}))
  end).

(** Step 2 of [ask]: the optional filename filter. *)
Definition apply_filename_filter (filename_filter : option string)
    (chunks : list Retriever.Hit) : list Retriever.Hit :=
  match filename_filter with
  | Some f =>
      if Str.truthy f
      then filter (fun c =>
                     Str.contains (Str.lower f)
                       (Str.lower (Retriever.md_filename (Retriever.metadata c))))
                  chunks
      else chunks
  | None => chunks
  end.

(** [CoverageAgent.ask].  [retrieval] is what [self.retriever.retrieve]
    returned and [llm] the outcome of [_call_ollama]. *)
Definition ask (json_loads : string -> loaded)
    (float_of_str : string -> option float)
    (int_of_str : string -> option Z) (repr : value -> string)
    (model base_url : string) (retrieval : Retriever.Retrieval) (llm : Llm)
    (question : string) (filename_filter : option string)
  : result Verdict :=
  let chunks :=
    apply_filename_filter filename_filter (Retriever.results retrieval) in
  if is_empty chunks then
    Ok {| covered := "Unknown";
          confidence := zero;
          explanation := "No relevant policy excerpts were found for this question.";
          citations := [];
          caveats := [];
          meta := Some {| m_question := question;
                          m_error := None;
                          m_fallback := false;
                          m_raw_response := None;
                          m_filename_filter := filename_filter;
                          m_model := None;
                          m_chunks_retrieved := Some 0;
                          m_query_variants := [] |} |}
  else
    match llm with
    | ConnectionError =>
        Ok (_fallback_response question
              ("Ollama not reachable at " ++ base_url)%string)
    | OtherError msg => Ok (_fallback_response question msg)
    | Response raw_response =>
        normalise json_loads float_of_str int_of_str repr model retrieval
          chunks question filename_filter raw_response
    end.

(** ** Properties stated about the normaliser *)

(** The fallback verdict: Unknown, confidence 0.0, no citation, no
    caveat, and the fallback flag of the metadata set. *)
Definition fallback_shape (r : result Verdict) : Prop :=
  exists v m,
    r = Ok v
    /\ covered v = "Unknown"
    /\ confidence v = zero
    /\ citations v = []
    /\ caveats v = []
    /\ meta v = Some m
    /\ m_fallback m = true.

(** A float between 0.0 and 1.0. *)
Definition in_unit_interval (f : float) : Prop :=
  exists q, f = Fin q /\ Qle 0 q /\ Qle q 1.

(** The confidence rule as the specification states it, for a
    normaliser that stores [stored data] under ["confidence"]: a value
    that is not a wrapper object is coerced with [float], 0.0 is stored
    when the coercion fails, and the coerced value is clamped to the unit
    interval. *)
Definition confidence_claim (float_of_str : string -> option float)
    (stored : list (string * value) -> result float) : Prop :=
  forall data conf,
    lookup "confidence" data = Some conf ->
    (match conf with VDict _ => false | _ => true end) = true ->
    match to_float float_of_str conf with
    | Ok f => stored data = Ok (max2 zero (min2 one f))
    | Raise _ => stored data = Ok zero
    end.

(** The source chunk of a citation as the specification states it: exact
    match, else filename match, else the top-ranked chunk. *)
Definition specified_source (cit : Citation) (chunks : list Retriever.Hit)
  : option Retriever.Hit :=
  match find (exact_match cit) chunks with
  | Some chunk => Some chunk
  | None =>
      match find (file_match cit) chunks with
      | Some chunk => Some chunk
      | None => hd_error chunks
      end
  end.

(** The backfill as the specification states it: a citation without
    quote receives the sentence picked from its specified source. *)
Definition backfill_claim : Prop :=
  forall citations chunks question cit chunk,
    In cit citations ->
    blank (quote cit) = true ->
    specified_source cit chunks = Some chunk ->
    blank (_best_sentence (Retriever.text chunk) question) = false ->
    In (set_quote cit (_best_sentence (Retriever.text chunk) question))
       (_backfill_citations citations chunks question).

(** A retrieved chunk, a question and a retrieval used in examples. *)
Definition sample_chunk : Retriever.Hit :=
  {| Retriever.chunk_id := "a__chunk_0001";
     Retriever.text :=
       "The policy covers hospitalization. Knee replacement is included under surgical benefits. Dental is excluded.";
     Retriever.score := 9 # 10;
     Retriever.metadata := Retriever.mkMetadata "a.pdf" 1 5 "Benefits" |}.

Definition sample_question : string := "Is knee replacement covered?".

Definition sample_retrieval : Retriever.Retrieval :=
  {| Retriever.r_question := sample_question;
     Retriever.query_variants := [sample_question];
     Retriever.total_retrieved := 1;
     Retriever.unique_chunks := 1;
     Retriever.results := [sample_chunk] |}.

(** The raw text of a well-formed answer: a Partial verdict with one
    citation whose quote is empty. *)
Definition sample_answer_text : string :=
  ("{" ++ Str.quoted "covered" ++ ": " ++ Str.quoted "Partial" ++ ", "
   ++ Str.quoted "confidence" ++ ": 0.85, "
   ++ Str.quoted "explanation" ++ ": " ++ Str.quoted "Covered with conditions." ++ ", "
   ++ Str.quoted "citations" ++ ": [{"
   ++ Str.quoted "file" ++ ": " ++ Str.quoted "a.pdf" ++ ", "
   ++ Str.quoted "page" ++ ": 3, "
   ++ Str.quoted "section" ++ ": " ++ Str.quoted "S1" ++ ", "
   ++ Str.quoted "quote" ++ ": " ++ Str.quoted "" ++ "}], "
   ++ Str.quoted "caveats" ++ ": [" ++ Str.quoted "30-day wait" ++ "]}")%string.

End Agent.

(* ================================================================== *)
(** * Prompt context: [agent._build_context] and
      [answer_chain.build_context] *)
(* ================================================================== *)

Module Context.

Definition MAX_CONTEXT_CHARS : Z := 12000.

(** The en dash and the horizontal ellipsis of the source text.  Python
    counts each as one character, so each is one character here (their
    Windows-1252 codes). *)
Definition en_dash : string := String (ascii_of_nat 150) EmptyString.
Definition ellipsis : string := String (ascii_of_nat 133) EmptyString.

Definition truncated_mark : string :=
  (Str.nl ++ ellipsis ++ "[truncated]")%string.

(** The header line of excerpt [i]. *)
Definition header (i : Z) (r : Retriever.Hit) : string :=
  let m := Retriever.metadata r in
  ("[Excerpt " ++ Py.str_of_int i ++ "]  "
   ++ "File: " ++ Retriever.md_filename m ++ "  |  "
   ++ "Page: " ++ Py.str_of_int (Retriever.md_page_number m) ++ en_dash
   ++ Py.str_of_int (Retriever.md_page_end m) ++ "  |  "
   ++ "Section: " ++ Retriever.md_section_title m)%string.

Definition block (i : Z) (r : Retriever.Hit) : string :=
  (header i r ++ Str.nl ++ Retriever.text r ++ Str.nl)%string.

(** The loop [for i, r in enumerate(results, 1)], from excerpt number
    [i] with [total] characters already taken: the parts it appends. *)
Fixpoint context_parts (i total : Z) (results : list Retriever.Hit)
    (max_chars : Z) : list string :=
  match results with
  | [] => []
  | r :: rest =>
      let b := block i r in
      if max_chars <? total + Str.slen b then
        let remaining := max_chars - total in
        if 200 <? remaining
        then [(Str.take (Z.to_nat remaining) b ++ truncated_mark)%string]
        else []
      else b :: context_parts (i + 1) (total + Str.slen b) rest max_chars
  end.

(** [agent._build_context]. *)
Definition _build_context (results : list Retriever.Hit) (max_chars : Z)
  : string :=
  Str.join Str.nl (context_parts 1 0 results max_chars).

(** [answer_chain.build_context]: the same code. *)
Definition build_context (results : list Retriever.Hit) (max_chars : Z)
  : string :=
  Str.join Str.nl (context_parts 1 0 results max_chars).

(** A chunk whose text is [n] times the letter a. *)
Definition filler_chunk (n : nat) : Retriever.Hit :=
  {| Retriever.chunk_id := "p__chunk_0001";
     Retriever.text := Str.of_chars (repeat "a"%char n);
     Retriever.score := 1;
     Retriever.metadata := Retriever.mkMetadata "p.pdf" 1 1 "Scope" |}.

End Context.

(* ================================================================== *)
(** * Validation suite: [test_suite.py] *)
(* ================================================================== *)

Module Suite.

Import Py.

(** The record appended to [results] for one question (the response
    time left out). *)
Record TestResult := mkTestResult
  { t_question : string;
    t_covered : string;
    t_confidence : float;
    t_citations : Z;
    t_caveats : Z;
    t_json_ok : bool;
    t_retrieval_ok : bool;
    t_passed : bool }.

(** One pass of the loop over the questions; [outcome] is what
    [agent.ask(question)] did.  An exception is caught and counted as a
    failed parse. *)
Definition run_case (question : string) (outcome : result Agent.Verdict)
  : TestResult :=
  let '(covered, confidence, citation_count, caveat_count, meta_error, json_ok) :=
    match outcome with
    | Ok answer =>
        (Agent.covered answer, Agent.confidence answer,
         len (Agent.citations answer), len (Agent.caveats answer),
         match Agent.meta answer with
         | Some m => Agent.m_error m
         | None => None
         end,
         true)
    | Raise _ => ("ERROR", zero, 0, 0, None, false)
    end in
  let json_ok :=
    match meta_error with
    | Some e => if Str.truthy e then false else json_ok
    | None => json_ok
    end in
  let retrieval_ok := 0 <? citation_count in
  {| t_question := question;
     t_covered := covered;
     t_confidence := confidence;
     t_citations := citation_count;
     t_caveats := caveat_count;
     t_json_ok := json_ok;
     t_retrieval_ok := retrieval_ok;
     t_passed := json_ok && retrieval_ok |}.

(** [sum(1 for r in results if p(r))]. *)
Definition count_if (p : TestResult -> bool) (results : list TestResult) : Z :=
  len (filter p results).

Definition pass_count (results : list TestResult) : Z :=
  count_if t_passed results.

Definition fail_count (results : list TestResult) : Z :=
  len results - pass_count results.

Definition json_fails (results : list TestResult) : Z :=
  count_if (fun r => negb (t_json_ok r)) results.

Definition retrieval_fails (results : list TestResult) : Z :=
  count_if (fun r => negb (t_retrieval_ok r)) results.

(** The reasons printed for a failed test. *)
Definition reasons (r : TestResult) : list string :=
  (if negb (t_json_ok r) then ["JSON parse failure"] else [])
  ++ (if negb (t_retrieval_ok r) then ["0 citations"] else []).

(** The argument of [sys.exit]. *)
Definition exit_code (results : list TestResult) : Z :=
  if fail_count results =? 0 then 0 else 1.

End Suite.
(* ================================================================== *)
(** * Answer chain: [answer_chain.py] *)
(* ================================================================== *)

Module AnswerChain.

Import Py.

(** [AnswerChain._flatten_value]. *)
Fixpoint _flatten_value (v : value) : value :=
  match v with
  | VDict d =>
      let fix find_value (d : list (string * value)) : option value :=
        match d with
        | [] => None
        | (k, x) :: r =>
            if String.eqb k "value" then Some (_flatten_value x)
            else find_value r
        end in
      let fix first_other (d : list (string * value)) : option value :=
        match d with
        | [] => None
        | (k, x) :: r =>
            if negb (String.eqb k "type") then Some (_flatten_value x)
            else first_other r
        end in
      match find_value d with
      | Some x => x
      | None =>
          if has_key "type" d && (len d <=? 2) then
            match first_other d with
            | Some x => x
            | None => v
            end
          else v
      end
  | VList l => VList (map _flatten_value l)
  | _ => v
  end.

(** Step 1 of [_normalise_llm_output]: every top-level value is
    flattened in place. *)
Definition flatten_all (data : list (string * value)) : list (string * value) :=
  map (fun kv => (fst kv, _flatten_value (snd kv))) data.

Section Normalise.

Variable float_of_str : string -> option float.
Variable repr : value -> string.

(** Step 2: [answer_val]. *)
Definition answer_val (data : list (string * value)) : string :=
  let a := get "answer" data (VStr "") in
  let a :=
    match a with
    | VDict d =>
        let s := to_str repr (get "value" d (VStr "")) in
        VStr (if Str.truthy s then s else to_str repr a)
    | _ => a
    end in
  let a :=
    match a with
    | VList l => VStr (Str.join ", " (map (to_str repr) l))
    | _ => a
    end in
  Str.strip (to_str repr a).

(** Step 3: the value stored under ["confidence"]. *)
Definition coerce_confidence (data : list (string * value)) : result float :=
  let conf := get "confidence" data (VInt 0) in
  let conf :=
    match conf with
    | VStr s =>
        match float_of_str s with
        | Some f => VFloat f
        | None => VFloat half
        end
    | _ => conf
    end in
  let conf :=
    match conf with
    | VInt _ | VBool _ | VFloat _ => conf
    | _ => VFloat half
    end in
  to_float float_of_str conf.

Definition valid_answers : list string := ["yes"; "no"; "partial"].

End Normalise.

(** ** [AnswerChain._backfill_citations] *)

(** A citation as [_normalise_llm_output] leaves it: the page is the raw
    value. *)
Record Citation := mkCitation
  { filename : string; page : value; section : string; quote : string }.

Definition set_quote (cit : Citation) (q : string) : Citation :=
  {| filename := filename cit; page := page cit; section := section cit;
     quote := q |}.

(** The horizontal ellipsis appended to a cut quote (its UTF-8 bytes). *)
Definition ellipsis : string :=
  String (ascii_of_nat 226) (String (ascii_of_nat 128)
    (String (ascii_of_nat 166) EmptyString)).

(** [_best_sentences(text)] with its default [n = 3]; [question_words] is
    [set(question.lower().split())]. *)
Definition score_sentences (question_words : list string)
    (sentences : list string) : list (Z * string) :=
  flat_map
    (fun s =>
       let s_clean := Str.strip s in
       if Str.slen s_clean <? 10 then []
       else [(Str.inter_size question_words (Str.split_ws (Str.lower s_clean)),
              s_clean)])
    sentences.

Definition _best_sentences (question_words : list string) (text : string)
  : string :=
  let sentences := Str.split_after ".!?" (Str.strip text) in
  let scored :=
    sorted_desc (fun a b => fst a <=? fst b)
                (score_sentences question_words sentences) in
  let top := map snd (slice_to 3 scored) in
  let ordered := filter (fun s => Str.mem (Str.strip s) top) sentences in
  let ordered :=
    match ordered with
    | [] => map Str.strip (slice_to 3 sentences)
    | _ => ordered
    end in
  let result := Str.join " " ordered in
  if 500 <? Str.slen result then (Str.take 500 result ++ ellipsis)%string
  else result.

(** The key of [chunk_lookup]: file name and printed start page. *)
Definition chunk_key (c : Retriever.Hit) : string * string :=
  (Retriever.md_filename (Retriever.metadata c),
   str_of_int (Retriever.md_page_number (Retriever.metadata c))).

Definition key_eqb (a b : string * string) : bool :=
  String.eqb (fst a) (fst b) && String.eqb (snd a) (snd b).

Definition lookup_key (k : string * string)
    (d : list ((string * string) * Retriever.Hit)) : option Retriever.Hit :=
  option_map snd (find (fun e => key_eqb (fst e) k) d).

(** [chunk_lookup]: the first chunk of each key, in insertion order. *)
Fixpoint build_lookup (chunks : list Retriever.Hit)
    (chunk_lookup : list ((string * string) * Retriever.Hit))
  : list ((string * string) * Retriever.Hit) :=
  match chunks with
  | [] => chunk_lookup
  | c :: r =>
      build_lookup r
        (match lookup_key (chunk_key c) chunk_lookup with
         | Some _ => chunk_lookup
         | None => chunk_lookup ++ [(chunk_key c, c)]
         end)
  end.

Section Backfill.

Variable repr : value -> string.

(** [not cit.get("quote") or len(str(cit.get("quote", ""))) < 5]. *)
Definition needs_quote (cit : Citation) : bool :=
  negb (Str.truthy (quote cit)) || (Str.slen (quote cit) <? 5).

(** The body of [for cit in citations]. *)
Definition backfill_one (chunks : list Retriever.Hit)
    (question_words : list string) (cit : Citation) : Citation :=
  let chunk_lookup := build_lookup chunks [] in
  if needs_quote cit then
    let key := (filename cit, to_str repr (page cit)) in
    let cit :=
      match lookup_key key chunk_lookup with
      | Some chunk =>
          set_quote cit (_best_sentences question_words (Retriever.text chunk))
      | None =>
          match find (fun e => String.eqb (fst (fst e)) (filename cit))
                     chunk_lookup with
          | Some (_, ch) =>
              set_quote cit (_best_sentences question_words (Retriever.text ch))
          | None => cit
          end
      end in
    match chunks with
    | top :: _ =>
        if negb (Str.truthy (quote cit))
        then set_quote cit (_best_sentences question_words (Retriever.text top))
        else cit
    | [] => cit
    end
  else cit.

Definition citation_of_chunk (question_words : list string)
    (c : Retriever.Hit) : Citation :=
  let m := Retriever.metadata c in
  {| filename := Retriever.md_filename m;
     page := VInt (Retriever.md_page_number m);
     section := Retriever.md_section_title m;
     quote := _best_sentences question_words (Retriever.text c) |}.

(** [_backfill_citations] on the citation list of [parsed]; [question] is
    [parsed["_meta"]["question"]]. *)
Definition _backfill_citations (citations : list Citation)
    (chunks : list Retriever.Hit) (question : string) : list Citation :=
  let question_words := Str.split_ws (Str.lower question) in
  let citations := map (backfill_one chunks question_words) citations in
  let citations :=
    match citations with
    | [] => map (citation_of_chunk question_words) (slice_to 3 chunks)
    | _ => citations
    end in
  filter (fun c => Str.truthy (quote c)) citations.

(** The quote a citation in need of one ends with, in the words of the
    three tiers: the first chunk whose file name and start page equal the
    citation's, else the first chunk with the same file name, else (the
    quote being still empty) the top-ranked chunk. *)
Definition tiered_quote (chunks : list Retriever.Hit)
    (question_words : list string) (cit : Citation) : string :=
  let same_file c :=
    String.eqb (Retriever.md_filename (Retriever.metadata c)) (filename cit) in
  let same_page c :=
    String.eqb (str_of_int (Retriever.md_page_number (Retriever.metadata c)))
               (to_str repr (page cit)) in
  let q :=
    match find (fun c => same_file c && same_page c) chunks with
    | Some chunk => _best_sentences question_words (Retriever.text chunk)
    | None =>
        match find same_file chunks with
        | Some chunk => _best_sentences question_words (Retriever.text chunk)
        | None => quote cit
        end
    end in
  if Str.truthy q then q
  else match chunks with
       | top :: _ => _best_sentences question_words (Retriever.text top)
       | [] => q
       end.

End Backfill.

(** ** The answer [_normalise_llm_output] settles on *)

Section Answer.

Variable float_of_str : string -> option float.
Variable repr : value -> string.

Definition standard_keys : list string :=
  ["answer"; "explanation"; "confidence"; "citations"; "caveats"].

(** Step 6, what one element of a list under a non-standard key adds to
    [extra_parts]. *)
Definition item_parts (item : value) : list string :=
  match item with
  | VDict d =>
      let desc :=
        or_else (or_else (get "description" d (VStr ""))
                         (get "desc" d (VStr "")))
                (VStr "") in
      if truthy desc then [to_str repr desc] else []
  | VStr s => [s]
  | _ => []
  end.

(** Step 6: [extra_parts], over the keys in insertion order. *)
Definition extra_parts (data : list (string * value)) : list string :=
  flat_map
    (fun kv =>
       if Str.mem (fst kv) standard_keys then []
       else
         match snd kv with
         | VStr s => if Str.truthy s then [s] else []
         | VList l => flat_map item_parts l
         | _ => []
         end)
    data.

(** Step 6: [explanation_val] when the step is over. *)
Definition explanation_val (data : list (string * value)) : value :=
  let explanation := or_else (get "explanation" data (VStr "")) (VStr "") in
  let parts := extra_parts data in
  if negb (is_empty parts) && negb (truthy explanation)
  then VStr (Str.take 1500 (Str.join ". " (slice_to 5 parts)))
  else explanation.

(** [any(w in s for w in words)]. *)
Definition any_in (words : list string) (s : string) : bool :=
  existsb (fun w => Str.contains w s) words.

(** [v.lower()]: only a string has the method. *)
Definition lower_of (v : value) : result string :=
  match v with
  | VStr s => Ok (Str.lower s)
  | _ => Raise AttributeError
  end.

(** Step 7: the answer inferred from the lower-cased text. *)
Definition infer_answer (combined : string) : string :=
  if any_in ["covered"; "eligible"; "payable"; "included"] combined then
    if any_in ["condition"; "waiting"; "sub-limit"; "co-pay"; "limit"] combined
    then "Partial"
    else "Yes"
  else if any_in ["excluded"; "not covered"; "not eligible"; "not mentioned"]
            combined
  then "No"
  else "Partial".

(** The text step 7 searches when the answer is none of
    [valid_answers]: [(explanation_val or str(answer_val) or "").lower()],
    which raises when the explanation is truthy and not a string. *)
Definition combined_text (data : list (string * value)) (answer : string)
  : result string :=
  lower_of (or_else (explanation_val data)
              (or_else (VStr answer) (VStr ""))).

(** The value of [data["confidence"]] when [_normalise_llm_output]
    returns: steps 1 to 3, and in step 7, when the answer is not one of
    [valid_answers], the reset of a zero confidence to 0.5, which comes
    after the lower-casing of the text and is not reached when that
    raises.  Steps 4 to 6 do not touch the key. *)
Definition normalised_confidence (data : list (string * value))
  : result float :=
  let data := flatten_all data in
  let answer := answer_val repr data in
  bind (coerce_confidence float_of_str data) (fun conf =>
    if Str.mem (Str.lower answer) valid_answers then Ok conf
    else
      bind (combined_text data answer) (fun _ =>
        if float_truthy conf then Ok conf else Ok half)).

(** The value of [data["answer"]] when [_normalise_llm_output] returns.
    [answer_val] is a string once step 2 is over, so the last [else] of
    step 7 is never taken.  Step 3 comes first and may raise. *)
Definition normalised_answer (data : list (string * value)) : result string :=
  let data := flatten_all data in
  let answer := answer_val repr data in
  bind (coerce_confidence float_of_str data) (fun _ =>
    if Str.mem (Str.lower answer) valid_answers
    then Ok (Str.capitalize answer)
    else
      bind (combined_text data answer)
        (fun combined => Ok (infer_answer combined))).

End Answer.

(** ** [_parse_response] and [AnswerChain.answer] *)

Section Reply.

Variable json_loads : string -> loaded.
(** [re.search] of the fence pattern, [m.group(1)] when it matches. *)
Variable fence_search : string -> option string.
Variable float_of_str : string -> option float.
Variable repr : value -> string.







End Reply.

(** A reply that says the treatment is not covered, with an answer that
    is none of yes, no and partial. *)
Definition sample_not_covered : list (string * value) :=
  [ ("answer", VStr "Unknown");
    ("explanation", VStr "Dental treatment is not covered.");
    ("confidence", VFloat (Fin (9 # 10))) ].

End AnswerChain.
(* ================================================================== *)
(** * Instances of the library parameters

    Small stand-ins for [json.loads], [float], [int] and [str], used to
    run the model on concrete inputs.  They accept a fragment of what the
    Python functions accept (no escapes in strings, no exponents) and
    agree with them on that fragment. *)
(* ================================================================== *)

Module Sample.

Import Py.

Definition is_digit (c : ascii) : bool :=
  let n := nat_of_ascii c in ((48 <=? n) && (n <=? 57))%nat.

Definition digit_val (c : ascii) : Z := Z.of_nat (nat_of_ascii c - 48).

Definition digits_val (l : list ascii) : Z :=
  fold_left (fun acc c => 10 * acc + digit_val c) l 0.

Fixpoint span_digits (l : list ascii) : list ascii * list ascii :=
  match l with
  | c :: r =>
      if is_digit c then let '(d, rest) := span_digits r in (c :: d, rest)
      else ([], l)
  | [] => ([], [])
  end.

(** An optional sign: the factor and what follows. *)
Definition take_sign (l : list ascii) : Z * list ascii :=
  match l with
  | "-"%char :: r => (-1, r)
  | "+"%char :: r => (1, r)
  | _ => (1, l)
  end.

(** [int(s)] for an optionally signed run of digits. *)
Definition int_of_str (s : string) : option Z :=
  let '(sign, l) := take_sign (Str.chars (Str.strip s)) in
  match span_digits l with
  | ((_ :: _) as d, []) => Some (sign * digits_val d)
  | _ => None
  end.

Definition decimal (sign : Z) (ip fp : list ascii) : float :=
  Fin (Qmake (sign * (digits_val ip * 10 ^ len fp + digits_val fp))
             (Z.to_pos (10 ^ len fp))).

(** [float(s)] for [inf], [nan] and signed decimals without exponent. *)
Definition float_of_str (s : string) : option float :=
  let '(sign, l) := take_sign (Str.chars (Str.strip s)) in
  let name := Str.lower (Str.of_chars l) in
  if String.eqb name "nan" then Some NaN
  else if String.eqb name "inf" || String.eqb name "infinity"
  then Some (if sign <? 0 then NegInf else PosInf)
  else
    match span_digits l with
    | (ip, []) => match ip with [] => None | _ => Some (decimal sign ip []) end
    | (ip, "."%char :: r) =>
        match span_digits r with
        | (fp, []) =>
            match ip, fp with
            | [], [] => None
            | _, _ => Some (decimal sign ip fp)
            end
        | _ => None
        end
    | _ => None
    end.

(** [str(v)] of [None], booleans and integers; other values are not
    printed by this instance. *)
Definition repr (v : value) : string :=
  match v with
  | VNone => "None"
  | VBool true => "True"
  | VBool false => "False"
  | VInt z => NilZero.string_of_int (Z.to_int z)
  | VStr s => s
  | _ => "<value>"
  end.

Definition is_json_ws (c : ascii) : bool :=
  let n := nat_of_ascii c in ((n =? 32) || (n =? 9) || (n =? 10) || (n =? 13))%nat.

Fixpoint skip_ws (l : list ascii) : list ascii :=
  match l with
  | c :: r => if is_json_ws c then skip_ws r else l
  | [] => []
  end.

(** The characters of a string literal up to its closing quote; escapes
    and control characters are refused. *)
Fixpoint string_body (acc : list ascii) (l : list ascii)
  : option (string * list ascii) :=
  match l with
  | [] => None
  | c :: r =>
      if Ascii.eqb c Str.dquote then Some (Str.of_chars (rev acc), r)
      else if Ascii.eqb c "\"%char || (nat_of_ascii c <? 32)%nat then None
      else string_body (c :: acc) r
  end.

Definition number (l : list ascii) : option (value * list ascii) :=
  let '(sign, l1) :=
    match l with "-"%char :: r => (-1, r) | _ => (1, l) end in
  match span_digits l1 with
  | ([], _) => None
  | ("0"%char :: _ :: _, _) => None
  | (ip, "."%char :: r) =>
      match span_digits r with
      | ([], _) => None
      | (fp, rest) => Some (VFloat (decimal sign ip fp), rest)
      end
  | (ip, rest) => Some (VInt (sign * digits_val ip), rest)
  end.

Definition literal (name : string) (v : value) (l : list ascii)
  : option (value * list ascii) :=
  let n := String.length name in
  if String.eqb (Str.of_chars (firstn n l)) name then Some (v, skipn n l)
  else None.

Section Containers.

Variable parse_value : list ascii -> option (value * list ascii).

(** Elements after an opening bracket, up to the closing one. *)
Fixpoint elements (n : nat) (acc : list value) (l : list ascii)
  : option (value * list ascii) :=
  match n with
  | O => None
  | S n' =>
      match parse_value l with
      | None => None
      | Some (v, rest) =>
          match skip_ws rest with
          | ","%char :: r => elements n' (v :: acc) r
          | "]"%char :: r => Some (VList (rev (v :: acc)), r)
          | _ => None
          end
      end
  end.

(** Members after an opening brace; a repeated key keeps its place and
    takes the last value. *)
Fixpoint members (n : nat) (acc : list (string * value)) (l : list ascii)
  : option (value * list ascii) :=
  match n with
  | O => None
  | S n' =>
      match skip_ws l with
      | c :: r =>
          if Ascii.eqb c Str.dquote then
            match string_body [] r with
            | None => None
            | Some (k, rest) =>
                match skip_ws rest with
                | ":"%char :: r2 =>
                    match parse_value r2 with
                    | None => None
                    | Some (v, rest2) =>
                        match skip_ws rest2 with
                        | ","%char :: r3 => members n' (set k v acc) r3
                        | "}"%char :: r3 => Some (VDict (set k v acc), r3)
                        | _ => None
                        end
                    end
                | _ => None
                end
            end
          else None
      | [] => None
      end
  end.

End Containers.

Fixpoint value_of (fuel : nat) (l : list ascii) : option (value * list ascii) :=
  match fuel with
  | O => None
  | S fuel' =>
      match skip_ws l with
      | "{"%char :: r =>
          match skip_ws r with
          | "}"%char :: r' => Some (VDict [], r')
          | _ => members (value_of fuel') (List.length r) [] r
          end
      | "["%char :: r =>
          match skip_ws r with
          | "]"%char :: r' => Some (VList [], r')
          | _ => elements (value_of fuel') (List.length r) [] r
          end
      | ("t"%char :: _) as l' => literal "true" (VBool true) l'
      | ("f"%char :: _) as l' => literal "false" (VBool false) l'
      | ("n"%char :: _) as l' => literal "null" VNone l'
      | (c :: r) as l' =>
          if Ascii.eqb c Str.dquote then
            match string_body [] r with
            | Some (s, rest) => Some (VStr s, rest)
            | None => None
            end
          else number l'
      | [] => None
      end
  end.

(** [json.loads(s)]. *)
Definition json_loads (s : string) : option value :=
  match value_of (S (String.length s)) (Str.chars s) with
  | Some (v, rest) =>
      match skip_ws rest with [] => Some v | _ => None end
  | None => None
  end.

(** [json.loads(s)] with its exceptions.  A text that starts with an
    integer literal of more than 4300 digits raises the [ValueError] of
    the integer conversion before anything after the literal is looked
    at; every other rejected text is a decode error. *)
Definition starts_with_digit (l : list ascii) : bool :=
  match l with c :: _ => is_digit c | [] => false end.

(** What follows the integer part makes the literal a float: a
    fraction, or an exponent. *)
Definition float_tail (l : list ascii) : bool :=
  match l with
  | "."%char :: r => starts_with_digit r
  | "e"%char :: r | "E"%char :: r =>
      match r with
      | "+"%char :: r' | "-"%char :: r' => starts_with_digit r'
      | _ => starts_with_digit r
      end
  | _ => false
  end.

Definition over_long_integer (s : string) : bool :=
  let l := skip_ws (Str.chars s) in
  let l := match l with "-"%char :: r => r | _ => l end in
  match span_digits l with
  | ("0"%char :: _, _) => false
  | (d, rest) => negb (float_tail rest) && (4300 <? len d)
  end.

Definition loads (s : string) : loaded :=
  if over_long_integer s then LoadsRaised ValueError
  else match json_loads s with
       | Some v => Loaded v
       | None => JSONDecodeError
       end.

(** A reply made of 4301 times the digit 1. *)
Definition long_integer : string := Str.of_chars (repeat "1"%char 4301).

End Sample.

(* ================================================================== *)
(** * Predicates used to state further properties *)
(* ================================================================== *)

(** [P k x] holds of every element [x] of the list, [k] counting the
    elements from [k0] on. *)
Fixpoint numbered {A : Type} (P : Z -> A -> Prop) (k0 : Z) (l : list A) : Prop :=
  match l with
  | [] => True
  | x :: r => P k0 x /\ numbered P (k0 + 1) r
  end.

(** Induction on a Python value, with the hypothesis available for every
    element of a list and every value of a dict. *)
Section ValueInduction.

Variable P : Py.value -> Prop.
Hypothesis HNone : P Py.VNone.
Hypothesis HBool : forall b, P (Py.VBool b).
Hypothesis HInt : forall z, P (Py.VInt z).
Hypothesis HFloat : forall f, P (Py.VFloat f).
Hypothesis HStr : forall s, P (Py.VStr s).
Hypothesis HList : forall l, Forall P l -> P (Py.VList l).
Hypothesis HDict : forall d, Forall (fun kv => P (snd kv)) d -> P (Py.VDict d).

Fixpoint value_nested_ind (v : Py.value) : P v :=
  match v with
  | Py.VNone => HNone
  | Py.VBool b => HBool b
  | Py.VInt z => HInt z
  | Py.VFloat f => HFloat f
  | Py.VStr s => HStr s
  | Py.VList l =>
      HList l
        ((fix all (l : list Py.value) : Forall P l :=
            match l with
            | [] => Forall_nil P
            | x :: r => Forall_cons x (value_nested_ind x) (all r)
            end) l)
  | Py.VDict d =>
      HDict d
        ((fix all (d : list (string * Py.value))
            : Forall (fun kv => P (snd kv)) d :=
            match d with
            | [] => Forall_nil _
            | kv :: r =>
                Forall_cons kv (value_nested_ind (snd kv)) (all r)
            end) d)
  end.

End ValueInduction.

(** No dict of at most three entries with a ["value"] key occurs
    anywhere in the value: nothing is left for [agent._flatten_value]
    to unwrap. *)
Fixpoint wrapper_free (v : Py.value) : bool :=
  match v with
  | Py.VDict d =>
      negb (Py.has_key "value" d && (len d <=? 3))
      && (fix all (d : list (string * Py.value)) : bool :=
            match d with
            | [] => true
            | (_, x) :: r => wrapper_free x && all r
            end) d
  | Py.VList l =>
      (fix all (l : list Py.value) : bool :=
         match l with
         | [] => true
         | x :: r => wrapper_free x && all r
         end) l
  | _ => true
  end.

(* ================================================================== *)
(** * Facts about the segmenter *)
(* ================================================================== *)

Import Segmenter.

Section RangeFacts.

Lemma zrange_length lo hi : List.length (zrange lo hi) = Z.to_nat (hi - lo).
Proof. unfold zrange. now rewrite length_map, length_seq. Qed.

Lemma zrange_nil lo hi : hi <= lo -> zrange lo hi = [].
Proof.
  intros H. unfold zrange.
  replace (Z.to_nat (hi - lo)) with 0%nat by lia. reflexivity.
Qed.

Lemma zrange_snoc lo hi : lo <= hi -> zrange lo (hi + 1) = zrange lo hi ++ [hi].
Proof.
  intros H. unfold zrange.
  replace (Z.to_nat (hi + 1 - lo)) with (S (Z.to_nat (hi - lo))) by lia.
  rewrite seq_S, map_app. simpl. f_equal. f_equal. lia.
Qed.

Lemma zrange_cons lo hi : lo < hi -> zrange lo hi = lo :: zrange (lo + 1) hi.
Proof.
  intros H. unfold zrange.
  replace (Z.to_nat (hi - lo)) with (S (Z.to_nat (hi - (lo + 1)))) by lia.
  simpl. f_equal; [lia|].
  rewrite <- seq_shift, map_map. apply map_ext. intros k. lia.
Qed.

Lemma zrange_app a b c :
  a <= b -> b <= c -> zrange a c = zrange a b ++ zrange b c.
Proof.
  intros Hab Hbc.
  remember (Z.to_nat (c - b)) as k eqn:Hk. revert c Hbc Hk.
  induction k as [|k IH]; intros c Hbc Hk.
  - assert (c = b) by lia. subst c.
    rewrite (zrange_nil b b) by lia. now rewrite app_nil_r.
  - replace c with ((c - 1) + 1) by lia.
    rewrite !zrange_snoc by lia.
    rewrite (IH (c - 1)) by lia. now rewrite app_assoc.
Qed.

Lemma zsum_app l1 l2 : zsum (l1 ++ l2) = zsum l1 + zsum l2.
Proof. induction l1 as [|x l1 IH]; simpl; lia. Qed.

Lemma zsum_nonneg l : Forall (fun x => 0 <= x) l -> 0 <= zsum l.
Proof. induction 1; simpl; lia. Qed.

End RangeFacts.

Section ChunkLoopFacts.

Variable encode_len : string -> nat.
Variable path_stem : string -> string.
Variable pages : list PageText.
Variable sections : list Section_.
Variable fname : string.
Variable target_tokens overlap_tokens : Z.
Variable sentences : list string.

Local Abbreviation n := (len sentences).
Local Abbreviation tk := (item 0 (sent_tokens encode_len sentences)).
Local Abbreviation tokr := (tok_range encode_len sentences).
Local Abbreviation sentr := (sent_range sentences).
Local Abbreviation accumulate' := (accumulate encode_len target_tokens sentences).
Local Abbreviation rewind' := (rewind encode_len overlap_tokens sentences).
Local Abbreviation step' :=
  (chunk_step encode_len path_stem pages sections fname
     target_tokens overlap_tokens sentences).
Local Abbreviation step_ok' :=
  (step_ok encode_len target_tokens overlap_tokens sentences).
Local Abbreviation chain' :=
  (chain encode_len target_tokens overlap_tokens sentences).
Local Abbreviation loop' :=
  (chunk_loop encode_len path_stem pages sections fname
     target_tokens overlap_tokens sentences).

Lemma tk_nonneg i : 0 <= tk i.
Proof.
  unfold item, sent_tokens.
  destruct (nth_in_or_default (Z.to_nat i)
              (map (fun s => Z.of_nat (encode_len s)) sentences) 0) as [Hin|Hd].
  - apply in_map_iff in Hin. destruct Hin as [s [Hs _]]. rewrite <- Hs. lia.
  - rewrite Hd. lia.
Qed.

Lemma tk_item i :
  0 <= i < n -> tk i = Z.of_nat (encode_len (item "" sentences i)).
Proof.
  intros H. unfold item, sent_tokens, len in *.
  rewrite (nth_indep _ 0 (Z.of_nat (encode_len ""))).
  - exact (map_nth (fun s => Z.of_nat (encode_len s)) sentences "" (Z.to_nat i)).
  - rewrite length_map. lia.
Qed.

Lemma item_In i : 0 <= i < n -> In (item "" sentences i) sentences.
Proof. intros H. unfold item, len in *. apply nth_In. lia. Qed.

Lemma tokr_nil a b : b <= a -> tokr a b = 0.
Proof. intros H. unfold tok_range. now rewrite zrange_nil. Qed.

Lemma tokr_snoc a b : a <= b -> tokr a (b + 1) = tokr a b + tk b.
Proof.
  intros H. unfold tok_range.
  rewrite zrange_snoc, map_app, zsum_app by lia. simpl. lia.
Qed.

Lemma tokr_cons a b : a < b -> tokr a b = tk a + tokr (a + 1) b.
Proof. intros H. unfold tok_range. now rewrite zrange_cons. Qed.

Lemma tokr_app a b c : a <= b -> b <= c -> tokr a c = tokr a b + tokr b c.
Proof.
  intros H1 H2. unfold tok_range.
  now rewrite (zrange_app a b c), map_app, zsum_app.
Qed.

Lemma tokr_nonneg a b : 0 <= tokr a b.
Proof.
  unfold tok_range. apply zsum_nonneg, Forall_forall.
  intros x Hx. apply in_map_iff in Hx. destruct Hx as [i [<- _]].
  apply tk_nonneg.
Qed.

Lemma tokr_one a : tokr a (a + 1) = tk a.
Proof. rewrite tokr_snoc, tokr_nil; lia. Qed.

(** A sub-range never carries more tokens than the range around it. *)
Lemma tokr_mono a b c d : a <= b -> b <= c -> c <= d -> tokr b c <= tokr a d.
Proof.
  intros H1 H2 H3.
  rewrite (tokr_app a b d), (tokr_app b c d) by lia.
  pose proof (tokr_nonneg a b). pose proof (tokr_nonneg c d). lia.
Qed.

Lemma sentr_nil a b : b <= a -> sentr a b = [].
Proof. intros H. unfold sent_range. now rewrite zrange_nil. Qed.

Lemma sentr_cons a b :
  a < b -> sentr a b = item "" sentences a :: sentr (a + 1) b.
Proof. intros H. unfold sent_range. now rewrite zrange_cons. Qed.

Lemma sentr_one a : sentr a (a + 1) = [item "" sentences a].
Proof. rewrite sentr_cons, sentr_nil; auto; lia. Qed.

Lemma sentr_length a b : List.length (sentr a b) = Z.to_nat (b - a).
Proof. unfold sent_range. now rewrite length_map, zrange_length. Qed.

Lemma sentr_empty a b : is_empty (sentr a b) = true <-> b <= a.
Proof.
  pose proof (sentr_length a b) as Hl.
  destruct (sentr a b); simpl in *; split; intros; try lia; try discriminate;
    try reflexivity.
Qed.

(** ** The accumulation loop *)

Lemma accumulate_spec k : forall i cs tok i' cs' tok',
  accumulate' k i cs tok = (i', cs', tok') ->
  i <= i' /\ (i < i' -> i' <= n) /\
  cs' = cs ++ sentr i i' /\
  tok' = tok + tokr i i' /\
  (i < i' -> tok' <= target_tokens) /\
  (n - i <= Z.of_nat k ->
   (i' <? n) && (tok' + tk i' <=? target_tokens) = false).
Proof.
  induction k as [|k IH]; intros i cs tok i' cs' tok' H; simpl in H.
  - inversion H; subst. rewrite sentr_nil, tokr_nil, app_nil_r by lia.
    split; [lia|]. split; [lia|]. split; [reflexivity|].
    split; [lia|]. split; [lia|].
    intros Hk. apply andb_false_iff. left. apply Z.ltb_ge. lia.
  - destruct ((i <? n) && (tok + tk i <=? target_tokens)) eqn:G.
    + apply andb_true_iff in G. destruct G as [G1 G2].
      apply Z.ltb_lt in G1. apply Z.leb_le in G2.
      apply IH in H. destruct H as (H1 & H2 & H3 & H4 & H5 & H6).
      assert (Hlt : i < i') by lia.
      rewrite (sentr_cons i i'), (tokr_cons i i') by lia.
      split; [lia|]. split.
      { intros _. destruct (Z.eq_dec i' (i + 1)) as [E|E]; [lia|].
        apply H2. lia. }
      split. { rewrite H3, <- app_assoc. reflexivity. }
      split; [lia|]. split.
      { intros _. destruct (Z.eq_dec i' (i + 1)) as [E|E].
        - subst i'. rewrite tokr_nil in H4 by lia. lia.
        - apply H5. lia. }
      intros Hk. apply H6. lia.
    + inversion H; subst. rewrite sentr_nil, tokr_nil, app_nil_r by lia.
      split; [lia|]. split; [lia|]. split; [reflexivity|].
      split; [lia|]. split; [lia|]. intros _. exact G.
Qed.

Lemma accumulate_exit i i' cs' tok' :
  0 <= i ->
  accumulate' (List.length sentences) i [] 0 = (i', cs', tok') ->
  (i' <? n) && (tok' + tk i' <=? target_tokens) = false.
Proof.
  intros Hi H. apply accumulate_spec in H.
  destruct H as (_ & _ & _ & _ & _ & H). apply H. unfold len. lia.
Qed.

(** ** The overlap loop *)

Lemma rewind_spec k : forall start j rt rc j' rt' rc',
  rewind' k start j rt rc = (j', rt', rc') ->
  j' + rc' = j + rc /\ rc <= rc' /\
  rt' = rt + tokr (j' + 1) (j + 1) /\
  (rc < rc' -> rt' - tk (j' + 1) < overlap_tokens /\ start <= j' + 1) /\
  (j + 1 - start <= Z.of_nat k ->
   (start <=? j') && (rt' <? overlap_tokens) = false) /\
  ((0 < k)%nat -> start <= j -> rt < overlap_tokens -> rc < rc').
Proof.
  induction k as [|k IH]; intros start j rt rc j' rt' rc' H; simpl in H.
  - inversion H; subst. rewrite tokr_nil by lia.
    split; [lia|]. split; [lia|]. split; [lia|]. split; [lia|].
    split; [|lia].
    intros Hk. apply andb_false_iff. left. apply Z.leb_gt. lia.
  - destruct ((start <=? j) && (rt <? overlap_tokens)) eqn:G.
    + apply andb_true_iff in G. destruct G as [G1 G2].
      apply Z.leb_le in G1. apply Z.ltb_lt in G2.
      apply IH in H. destruct H as (H1 & H2 & H3 & H4 & H5 & _).
      replace (j - 1 + 1) with j in H3 by lia.
      rewrite (tokr_snoc (j' + 1) j) by lia.
      split; [lia|]. split; [lia|]. split; [lia|]. split.
      { intros _. destruct (Z.eq_dec rc' (rc + 1)) as [E|E].
        - assert (j' = j - 1) by lia. subst j'.
          replace (j - 1 + 1) with j in * by lia.
          rewrite tokr_nil in H3 by lia. lia.
        - apply H4. lia. }
      split; [|lia].
      intros Hk. apply H5. lia.
    + inversion H; subst. rewrite tokr_nil by lia.
      split; [lia|]. split; [lia|]. split; [lia|]. split; [lia|].
      split; [intros _; exact G|].
      intros _ Hs Hr. exfalso.
      apply andb_false_iff in G. destruct G as [G|G].
      * apply Z.leb_gt in G. lia.
      * apply Z.ltb_ge in G. lia.
Qed.

(** Where the cursor lands after the rewind of a chunk [start, e). *)
Lemma rewind_cursor start e j' rt' rc' :
  0 <= start -> start < e -> e <= n ->
  rewind' (List.length sentences) start (e - 1) 0 0 = (j', rt', rc') ->
  let nx := Z.max (e - rc') (start + 1) in
  start < nx /\ nx <= e /\
  (nx < e -> tokr (nx + 1) e < overlap_tokens) /\
  (nx = start + 1 \/ overlap_tokens <= tokr nx e) /\
  (start + 2 <= e -> 0 < overlap_tokens -> nx < e).
Proof.
  intros Hs Hse Hen H nx.
  apply rewind_spec in H. destruct H as (H1 & H2 & H3 & H4 & H5 & H6).
  replace (e - 1 + 1) with e in * by lia.
  assert (Hj : j' + 1 = e - rc') by lia.
  assert (Hlen : (0 < List.length sentences)%nat) by (unfold len in Hen; lia).
  split; [lia|]. split; [lia|]. split; [|split].
  - intros Hnx. assert (Hrc : 0 < rc') by lia.
    destruct (H4 Hrc) as [H4a H4b].
    rewrite H3, (tokr_cons (j' + 1) e) in H4a by lia.
    pose proof (tokr_mono (j' + 1 + 1) (nx + 1) e e) as Hm.
    lia.
  - assert (Hex : (start <=? j') && (rt' <? overlap_tokens) = false).
    { apply H5. unfold len in Hen. lia. }
    apply andb_false_iff in Hex. destruct Hex as [G|G].
    + apply Z.leb_gt in G. left. lia.
    + apply Z.ltb_ge in G.
      destruct (Z_le_gt_dec (start + 1) (j' + 1)) as [L|L].
      * right. replace nx with (j' + 1) by lia. lia.
      * left. lia.
  - intros H2s Hov. assert (0 < rc') by (apply H6; lia). lia.
Qed.

(** ** One pass of the loop body *)

Lemma chunk_step_spec i idx :
  0 <= i < n -> exists st, step' i idx = Some st /\ step_ok' i st.
Proof.
  intros Hi. unfold chunk_step.
  destruct (accumulate' (List.length sentences) i [] 0)
    as [[i1 cs1] tok1] eqn:Hacc.
  apply accumulate_spec in Hacc.
  destruct Hacc as (A1 & A2 & A3 & A4 & A5 & A6).
  simpl in A3. subst cs1. rewrite Z.add_0_l in A4. subst tok1.
  assert (Hexit : (i1 <? n) && (tokr i i1 + tk i1 <=? target_tokens) = false)
    by (apply A6; unfold len; lia).
  clear A6.
  destruct (Z.eq_dec i1 i) as [E|E].
  - (* nothing fitted: the sentence at the cursor is taken alone *)
    subst i1. rewrite sentr_nil by lia. simpl.
    replace (i <? n) with true by (symmetry; apply Z.ltb_lt; lia).
    simpl.
    rewrite tokr_nil in Hexit by lia.
    apply andb_false_iff in Hexit.
    destruct Hexit as [G|G]; [apply Z.ltb_ge in G; lia|].
    apply Z.leb_gt in G.
    destruct (i + 1 <? n) eqn:Hn.
    + apply Z.ltb_lt in Hn.
      destruct (rewind' (List.length sentences) i (i + 1 - 1) 0 0)
        as [[j' rt'] rc'] eqn:Hrw.
      apply rewind_cursor in Hrw; try lia.
      eexists. split; [reflexivity|].
      unfold step_ok; simpl.
      rewrite sentr_one, tokr_one. simpl.
      split; [reflexivity|]. split; [lia|]. split; [lia|].
      split; [reflexivity|]. split; [reflexivity|].
      split; [right; lia|]. split.
      { intros _. rewrite (tokr_cons i (i + 1 + 1)) by lia.
        pose proof (tokr_nonneg (i + 1) (i + 1 + 1)). lia. }
      split; [intros _; exact Hrw | lia].
    + apply Z.ltb_ge in Hn.
      eexists. split; [reflexivity|].
      unfold step_ok; simpl.
      rewrite sentr_one, tokr_one. simpl.
      split; [reflexivity|]. split; [lia|]. split; [lia|].
      split; [reflexivity|]. split; [reflexivity|].
      split; [right; lia|]. split; [lia|]. split; [lia|]. reflexivity.
  - (* at least one sentence fitted *)
    assert (Hlt : i < i1) by lia.
    assert (Hne : is_empty (sentr i i1) = false).
    { destruct (is_empty (sentr i i1)) eqn:Em; [|reflexivity].
      apply sentr_empty in Em. lia. }
    rewrite Hne. simpl. rewrite Hne.
    specialize (A2 Hlt). specialize (A5 Hlt).
    assert (Hmax : i1 < n -> target_tokens < tokr i (i1 + 1)).
    { intros Hn. rewrite tokr_snoc by lia.
      apply andb_false_iff in Hexit.
      destruct Hexit as [G|G]; [apply Z.ltb_ge in G; lia|].
      apply Z.leb_gt in G. lia. }
    destruct (i1 <? n) eqn:Hn.
    + apply Z.ltb_lt in Hn.
      destruct (rewind' (List.length sentences) i (i1 - 1) 0 0)
        as [[j' rt'] rc'] eqn:Hrw.
      apply rewind_cursor in Hrw; try lia.
      eexists. split; [reflexivity|].
      unfold step_ok; simpl.
      split; [reflexivity|]. split; [lia|]. split; [lia|].
      split; [reflexivity|]. split; [reflexivity|].
      split; [left; lia|]. split; [exact Hmax|].
      split; [intros _; exact Hrw | lia].
    + apply Z.ltb_ge in Hn.
      eexists. split; [reflexivity|].
      unfold step_ok; simpl.
      split; [reflexivity|]. split; [lia|]. split; [lia|].
      split; [reflexivity|]. split; [reflexivity|].
      split; [left; lia|]. split; [lia|]. split; [lia|]. reflexivity.
Qed.

(** ** The outer loop *)

Lemma step_ok_progress i st : step_ok' i st -> i < next_cursor st /\ next_cursor st <= n.
Proof.
  unfold step_ok. intros (_ & H1 & H2 & _ & _ & _ & _ & H3 & H4).
  destruct (Z_lt_ge_dec (end_sent_idx st) n) as [L|L].
  - specialize (H3 L). lia.
  - assert (next_cursor st = end_sent_idx st) by (apply H4; lia). lia.
Qed.

Lemma chunk_loop_chain fuel : forall i idx,
  0 <= i -> (Z.to_nat (n - i) < fuel)%nat ->
  exists steps, loop' fuel i idx = Some steps /\ chain' i steps.
Proof.
  induction fuel as [|fuel IH]; intros i idx Hi Hf; [lia|].
  simpl. destruct (i <? n) eqn:Hn.
  - apply Z.ltb_lt in Hn.
    destruct (chunk_step_spec i idx) as [st [Hst Hok]]; [lia|].
    rewrite Hst.
    pose proof (step_ok_progress i st Hok) as [Hp1 Hp2].
    destruct (IH (next_cursor st) (idx + 1)) as [rest [Hr Hc]]; [lia|lia|].
    exists (st :: rest). rewrite Hr. split; [reflexivity|].
    apply chain_step; auto; lia.
  - apply Z.ltb_ge in Hn. exists []. split; [reflexivity|].
    now apply chain_done.
Qed.

(** More fuel than needed changes nothing. *)
Lemma chunk_loop_fuel f1 : forall f2 i idx s1 s2,
  loop' f1 i idx = Some s1 -> loop' f2 i idx = Some s2 -> s1 = s2.
Proof.
  induction f1 as [|f1 IH]; intros f2 i idx s1 s2 H1 H2; [discriminate|].
  destruct f2 as [|f2]; [discriminate|].
  simpl in H1, H2.
  destruct (i <? n); [|congruence].
  destruct (step' i idx) as [st|]; [|congruence].
  destruct (loop' f1 (next_cursor st) (idx + 1)) as [r1|] eqn:E1; [|discriminate].
  destruct (loop' f2 (next_cursor st) (idx + 1)) as [r2|] eqn:E2; [|discriminate].
  simpl in H1, H2. inversion H1; inversion H2; subst.
  f_equal. eapply IH; eauto.
Qed.

Lemma chain_head i st rest :
  chain' i (st :: rest) -> 0 <= i < n /\ step_ok' i st /\ chain' (next_cursor st) rest.
Proof. inversion 1; subst; auto. Qed.

(** A step that has a successor closed its chunk before the last
    sentence. *)
Lemma chain_successor i a b rest :
  chain' i (a :: b :: rest) ->
  step_ok' i a /\ step_ok' (next_cursor a) b /\ end_sent_idx a < n.
Proof.
  intros H. apply chain_head in H. destruct H as (Hi & Ha & Hc).
  apply chain_head in Hc. destruct Hc as (Hnx & Hb & _).
  split; [exact Ha|]. split; [exact Hb|].
  destruct Ha as (_ & _ & _ & _ & _ & _ & _ & _ & H4).
  destruct (Z_lt_ge_dec (end_sent_idx a) n) as [L|L]; [exact L|].
  assert (next_cursor a = end_sent_idx a) by (apply H4; lia). lia.
Qed.

(** The accumulation from a cursor takes every sentence that fits. *)
Lemma step_ok_reaches i st m :
  step_ok' i st -> i <= m -> m <= n -> tokr i m <= target_tokens ->
  m <= end_sent_idx st.
Proof.
  intros (_ & H1 & H2 & _ & _ & _ & Hmax & _) Him Hmn Hfit.
  destruct (Z_le_gt_dec m (end_sent_idx st)) as [L|L]; [exact L|].
  exfalso. assert (He : end_sent_idx st < n) by lia.
  specialize (Hmax He).
  pose proof (tokr_mono i i (end_sent_idx st + 1) m). lia.
Qed.

End ChunkLoopFacts.

(* ------------------------------------------------------------------ *)
(** ** Results on the chunking loop *)

Section ChunkLoopResults.

Variable encode_len : string -> nat.
Variable path_stem : string -> string.
Variable pages : list PageText.
Variable sections : list Section_.
Variable fname : string.
Variable target_tokens overlap_tokens : Z.
Variable sentences : list string.

Local Abbreviation loop' :=
  (chunk_loop encode_len path_stem pages sections fname
     target_tokens overlap_tokens sentences).
Local Abbreviation ok := (step_ok encode_len target_tokens overlap_tokens sentences).
Local Abbreviation chain' := (chain encode_len target_tokens overlap_tokens sentences).

Lemma chunk_loop_total extra :
  exists steps,
    loop' (S (List.length sentences) + extra)%nat 0 0 = Some steps
    /\ chain' 0 steps.
Proof. apply chunk_loop_chain; unfold len; lia. Qed.

Lemma step_ok_budget i st :
  0 <= i < len sentences -> ok i st ->
  covers encode_len sentences st
  /\ budget_ok encode_len target_tokens sentences st.
Proof.
  intros Hi (Hs & H1 & H2 & Ht & Hc & Hb & _).
  rewrite <- Hs in *. split; [split; assumption|].
  destruct Hb as [Hb|[He Hb]]; [left; lia|right].
  rewrite He in Ht, Hc. rewrite sentr_one in Ht. rewrite tokr_one in Hc.
  simpl in Ht.
  split; [exact He|]. split; [lia|]. split; [exact Ht|]. split.
  - rewrite Hc, Ht. apply tk_item. lia.
  - lia.
Qed.

Lemma chain_budget i steps :
  chain' i steps ->
  Forall (fun st => covers encode_len sentences st
                    /\ budget_ok encode_len target_tokens sentences st) steps.
Proof.
  induction 1 as [|i st rest Hi Hok Hc IH]; constructor; auto.
  eapply step_ok_budget; eauto.
Qed.

Lemma budget_ok_chunk st :
  budget_ok encode_len target_tokens sentences st ->
  chunk_budget_ok encode_len target_tokens sentences (emitted st).
Proof.
  intros [H|(He & Hi & Ht & Hc & Hb)]; [left; exact H|right].
  split; [|split; assumption].
  rewrite Ht. apply item_In. exact Hi.
Qed.

Lemma chain_progress i steps :
  chain' i steps ->
  Forall (fun st => start_sent_idx st < next_cursor st
                    /\ next_cursor st <= end_sent_idx st) steps.
Proof.
  induction 1 as [|i st rest Hi Hok Hc IH]; constructor; auto.
  pose proof (step_ok_progress _ _ _ _ _ _ Hok) as [Hp _].
  destruct Hok as (Hs & H1 & H2 & _ & _ & _ & _ & H3 & H4).
  rewrite Hs. split; [exact Hp|].
  destruct (Z_lt_ge_dec (end_sent_idx st) (len sentences)) as [L|L].
  - specialize (H3 L). lia.
  - rewrite H4; lia.
Qed.

Lemma successor_overlap i a b rest :
  chain' i (a :: b :: rest) ->
  overlap_as_built encode_len overlap_tokens sentences a b.
Proof.
  intros H. pose proof (chain_head _ _ _ _ _ _ _ H) as (Hi & _ & _).
  apply chain_successor in H. destruct H as (Ha & Hb & Hlt).
  pose proof Ha as (Hsa & A1 & A2 & _ & _ & Abud & _ & A3 & _).
  pose proof Hb as (Hsb & B1 & B2 & _).
  specialize (A3 Hlt). destruct A3 as (N1 & N2 & N3 & N4 & N5).
  unfold overlap_as_built, shared_tokens. rewrite Hsa, Hsb.
  split; [exact Hlt|]. split; [reflexivity|]. split; [exact N1|].
  split; [exact N2|]. split.
  { destruct (Z.eq_dec (next_cursor a) (end_sent_idx a)) as [E|E]; [lia|].
    eapply step_ok_reaches; [exact Hb|lia|lia|].
    destruct Abud as [Ab|[Ab _]]; [|lia].
    pose proof (tokr_mono encode_len sentences i (next_cursor a)
                  (end_sent_idx a) (end_sent_idx a)). lia. }
  split.
  { destruct (Z.eq_dec (next_cursor a) (end_sent_idx a)) as [E|E];
      [left; exact E|right; apply N3; lia]. }
  split.
  { destruct (Z.eq_dec (end_sent_idx a) (i + 1)) as [E|E]; [left; exact E|].
    destruct (Z_le_gt_dec overlap_tokens 0) as [L|L]; [right; left; exact L|].
    right; right. apply N5; lia. }
  exact N4.
Qed.

Lemma chain_overlap i steps :
  chain' i steps ->
  adjacent_pairs (overlap_as_built encode_len overlap_tokens sentences) steps.
Proof.
  induction 1 as [|i st rest Hi Hok Hc IH]; simpl; [exact I|].
  split; [|exact IH].
  destruct rest as [|b rest']; [exact I|].
  eapply successor_overlap. eapply chain_step; eauto.
Qed.

End ChunkLoopResults.

Lemma adjacent_pairs_impl {A : Type} (P Q : A -> A -> Prop) (l : list A) :
  (forall a b, P a b -> Q a b) -> adjacent_pairs P l -> adjacent_pairs Q l.
Proof.
  intros HPQ. induction l as [|a rest IH]; simpl; [auto|].
  intros [H1 H2]. split; [|auto].
  destruct rest; auto.
Qed.

(** C1.  Every chunk produced by [chunk_document] has a token count within
    the target budget, except a chunk that consists of exactly one sentence
    whose own token count exceeds the budget; the text of such a chunk is
    that sentence.  Stated for the loop on any sentence list (with the
    sentence range each chunk is made of) and for [chunk_document] itself,
    both of which return a result. *)
Theorem chunk_within_budget :
  forall (encode_len : string -> nat) (path_stem : string -> string)
         (re_split : string -> list string)
         (pages : list PageText) (sections : list Section_) (fname : string)
         (target_tokens overlap_tokens : Z),
    (forall (sentences : list string) (extra : nat),
       exists steps,
         chunk_loop encode_len path_stem pages sections fname target_tokens
           overlap_tokens sentences (S (List.length sentences) + extra) 0 0
         = Some steps
         /\ Forall (fun st => covers encode_len sentences st
                              /\ budget_ok encode_len target_tokens sentences st)
                   steps)
    /\ (forall extra : nat,
          exists chunks,
            chunk_document encode_len path_stem re_split
              (S (List.length (_split_sentences re_split (full_text pages))) + extra)
              pages sections fname target_tokens overlap_tokens
            = Some chunks
            /\ Forall (chunk_budget_ok encode_len target_tokens
                         (_split_sentences re_split (full_text pages)))
                      chunks).
Proof.
  intros encode_len path_stem re_split pages sections fname target overlap.
  assert (Hloop : forall sentences extra,
             exists steps,
               chunk_loop encode_len path_stem pages sections fname target
                 overlap sentences (S (List.length sentences) + extra) 0 0
               = Some steps
               /\ Forall (fun st => covers encode_len sentences st
                                    /\ budget_ok encode_len target sentences st)
                         steps).
  { intros sentences extra.
    destruct (chunk_loop_total encode_len path_stem pages sections fname
                target overlap sentences extra) as [steps [Hs Hc]].
    exists steps. split; [exact Hs|]. eapply chain_budget; eauto. }
  split; [exact Hloop|].
  intros extra. unfold chunk_document, chunk_document_steps.
  destruct (negb (Str.truthy (Str.strip (full_text pages)))).
  - exists []. split; [reflexivity|constructor].
  - destruct (Hloop (_split_sentences re_split (full_text pages)) extra)
      as [steps [Hs Hb]].
    exists (map emitted steps). rewrite Hs. split; [reflexivity|].
    apply Forall_map. eapply Forall_impl; [|exact Hb].
    intros st [_ H]. now apply budget_ok_chunk.
Qed.

(** C5.  The chunking loop of [chunk_document] terminates for every
    sentence list and every pair of budgets: with fuel beyond the number of
    sentences it returns its chunks, the same whatever the surplus of fuel;
    after each chunk the cursor is strictly beyond the chunk's starting
    sentence (the rewind never goes back to it), and the next chunk starts
    at that cursor. *)
Theorem chunk_loop_terminates :
  forall (encode_len : string -> nat) (path_stem : string -> string)
         (re_split : string -> list string)
         (pages : list PageText) (sections : list Section_) (fname : string)
         (target_tokens overlap_tokens : Z),
    (forall (sentences : list string) (extra : nat),
       exists steps,
         chunk_loop encode_len path_stem pages sections fname target_tokens
           overlap_tokens sentences (S (List.length sentences) + extra) 0 0
         = Some steps
         /\ Forall (fun st => start_sent_idx st < next_cursor st
                              /\ next_cursor st <= end_sent_idx st) steps
         /\ adjacent_pairs (fun a b => start_sent_idx b = next_cursor a) steps
         /\ chunk_loop encode_len path_stem pages sections fname target_tokens
              overlap_tokens sentences (S (List.length sentences)) 0 0
            = Some steps)
    /\ (forall extra : nat,
          exists chunks,
            chunk_document encode_len path_stem re_split
              (S (List.length (_split_sentences re_split (full_text pages))) + extra)
              pages sections fname target_tokens overlap_tokens
            = Some chunks).
Proof.
  intros encode_len path_stem re_split pages sections fname target overlap.
  split.
  - intros sentences extra.
    destruct (chunk_loop_total encode_len path_stem pages sections fname
                target overlap sentences extra) as [steps [Hs Hc]].
    exists steps. split; [exact Hs|]. split; [|split].
    + eapply chain_progress; eauto.
    + eapply adjacent_pairs_impl; [|eapply chain_overlap; eauto].
      intros a b H. apply H.
    + destruct (chunk_loop_total encode_len path_stem pages sections fname
                  target overlap sentences 0) as [steps0 [Hs0 _]].
      rewrite Nat.add_0_r in Hs0. rewrite Hs0. f_equal.
      eapply chunk_loop_fuel; eauto.
  - intros extra. unfold chunk_document, chunk_document_steps.
    destruct (negb (Str.truthy (Str.strip (full_text pages)))).
    + exists []. reflexivity.
    + destruct (chunk_loop_total encode_len path_stem pages sections fname
                  target overlap (_split_sentences re_split (full_text pages))
                  extra) as [steps [Hs _]].
      exists (map emitted steps). now rewrite Hs.
Qed.

(** C4, as the code has it.  When chunk [a] is followed by chunk [b], more
    sentences remained after [a]; [b] starts strictly after the start of
    [a] and no later than its end, and reaches at least as far; the shared
    sentences, leaving out the earliest of them, total fewer tokens than
    the overlap budget (so the overlap may pass the budget by part of one
    sentence); at least one sentence is shared unless [a] is a single
    sentence or the budget is not positive; and the overlap reaches the
    budget unless it already holds all of [a] but its first sentence. *)
Theorem overlap_between_chunks :
  forall (encode_len : string -> nat) (path_stem : string -> string)
         (pages : list PageText) (sections : list Section_) (fname : string)
         (target_tokens overlap_tokens : Z)
         (sentences : list string) (extra : nat),
    exists steps,
      chunk_loop encode_len path_stem pages sections fname target_tokens
        overlap_tokens sentences (S (List.length sentences) + extra) 0 0
      = Some steps
      /\ adjacent_pairs (overlap_as_built encode_len overlap_tokens sentences)
           steps.
Proof.
  intros encode_len path_stem pages sections fname target overlap
         sentences extra.
  destruct (chunk_loop_total encode_len path_stem pages sections fname
              target overlap sentences extra) as [steps [Hs Hc]].
  exists steps. split; [exact Hs|]. eapply chain_overlap; eauto.
Qed.

Example overlap_sample_run :
  option_map
    (map (fun st => (start_sent_idx st, end_sent_idx st, next_cursor st,
                     text (emitted st), token_count (emitted st))))
    (chunk_loop String.length (fun s => s) [overlap_sample_page] [] "a.pdf"
       10 4 overlap_sample_sentences 7 0 0)
  = Some [ (0, 3, 1, "aaa bbbb cc", 9);
           (1, 3, 2, "bbbb cc", 6);
           (2, 3, 3, "cc", 2);
           (3, 4, 4, "ddddddddddddd", 13);
           (4, 6, 6, "ee fff", 5) ].
Proof. vm_compute. reflexivity. Qed.

(** C4, as the specification states it, fails on the run above, in both
    bounds.  The first chunk shares its last two sentences (4 + 2 = 6
    tokens) with the second one, over the budget of 4; the third chunk,
    the single sentence "cc", shares nothing with the fourth. *)
Lemma overlap_claim_counterexample :
  ~ overlap_claim String.length (fun s => s) [overlap_sample_page] [] "a.pdf"
      10 4 overlap_sample_sentences
  /\ ~ overlap_claim_for
         (fun a b => shared_tokens String.length overlap_sample_sentences a b <= 4)
         String.length (fun s => s) [overlap_sample_page] [] "a.pdf"
         10 4 overlap_sample_sentences
  /\ ~ overlap_claim_for
         (fun a b => start_sent_idx b < end_sent_idx a)
         String.length (fun s => s) [overlap_sample_page] [] "a.pdf"
         10 4 overlap_sample_sentences.
Proof.
  assert (Hupper :
            ~ overlap_claim_for
                (fun a b =>
                   shared_tokens String.length overlap_sample_sentences a b <= 4)
                String.length (fun s => s) [overlap_sample_page] [] "a.pdf"
                10 4 overlap_sample_sentences).
  { intros H. unfold overlap_claim_for in H.
    destruct (chunk_loop String.length (fun s => s) [overlap_sample_page] []
                "a.pdf" 10 4 overlap_sample_sentences
                (S (List.length overlap_sample_sentences)) 0 0)
      as [steps|] eqn:E; vm_compute in E; [|discriminate].
    destruct steps as [|a [|b l2]]; try discriminate.
    specialize (H (a :: b :: l2) [] a b l2 eq_refl eq_refl).
    inversion E; subst; clear E.
    assert (Hshared : shared_tokens String.length overlap_sample_sentences
                        (mkStep 0 3 1
                           (mkChunk "a.pdf__chunk_0001" "aaa bbbb cc" 9 "a.pdf"
                              1 1 "Unknown" 0 11))
                        (mkStep 1 3 2
                           (mkChunk "a.pdf__chunk_0002" "bbbb cc" 6 "a.pdf"
                              1 1 "Unknown" 4 11)) <= 4).
    { apply H; [discriminate | vm_compute; reflexivity]. }
    vm_compute in Hshared. apply Hshared. reflexivity. }
  split; [|split; [exact Hupper|]].
  - intros H. apply Hupper. intros steps l1 a b l2 Hs Hl Hn He.
    apply (H steps l1 a b l2 Hs Hl Hn He).
  - intros H. unfold overlap_claim_for in H.
    destruct (chunk_loop String.length (fun s => s) [overlap_sample_page] []
                "a.pdf" 10 4 overlap_sample_sentences
                (S (List.length overlap_sample_sentences)) 0 0)
      as [steps|] eqn:E; vm_compute in E; [|discriminate].
    destruct steps as [|s0 [|s1 [|a [|b l2]]]]; try discriminate.
    specialize (H (s0 :: s1 :: a :: b :: l2) [s0; s1] a b l2 eq_refl eq_refl).
    inversion E; subst; clear E.
    assert (Hone : 3 < 3).
    { apply H; [discriminate | vm_compute; reflexivity]. }
    lia.
Qed.

(* ================================================================== *)
(** * Facts about the retrieval engine *)
(* ================================================================== *)

Section DictFacts.

Context {A : Type}.
Implicit Types (d : list (string * A)) (k : string) (v : A).

Lemma lookup_None k d : Py.lookup k d = None <-> ~ In k (map fst d).
Proof.
  induction d as [|[k0 v0] r IH]; simpl.
  - split; auto.
  - destruct (String.eqb k0 k) eqn:E.
    + apply String.eqb_eq in E. subst. split; [discriminate|].
      intros H. exfalso. apply H. now left.
    + apply String.eqb_neq in E. rewrite IH. split.
      * intros H [H1|H1]; auto.
      * intros H H1. apply H. now right.
Qed.

Lemma lookup_In k d v : Py.lookup k d = Some v -> In (k, v) d.
Proof.
  induction d as [|[k0 v0] r IH]; simpl; [discriminate|].
  destruct (String.eqb k0 k) eqn:E.
  - apply String.eqb_eq in E. subst. intros H. inversion H. now left.
  - intros H. right. auto.
Qed.

Lemma In_lookup k d v :
  NoDup (map fst d) -> In (k, v) d -> Py.lookup k d = Some v.
Proof.
  induction d as [|[k0 v0] r IH]; simpl; [contradiction|].
  intros Hnd [H|H].
  - inversion H; subst. now rewrite String.eqb_refl.
  - inversion Hnd; subst.
    destruct (String.eqb k0 k) eqn:E.
    + apply String.eqb_eq in E. subst. exfalso. apply H2.
      apply in_map_iff. exists (k, v). auto.
    + auto.
Qed.

Lemma set_new k v d : Py.lookup k d = None -> Py.set k v d = d ++ [(k, v)].
Proof.
  induction d as [|[k0 v0] r IH]; simpl; [reflexivity|].
  destruct (String.eqb k0 k); [discriminate|].
  intros H. now rewrite IH.
Qed.

Lemma set_keys k v d :
  Py.lookup k d <> None -> map fst (Py.set k v d) = map fst d.
Proof.
  induction d as [|[k0 v0] r IH]; simpl; [congruence|].
  destruct (String.eqb k0 k); simpl; [reflexivity|].
  intros H. now rewrite IH.
Qed.

Lemma In_set k v d k' v' :
  NoDup (map fst d) -> In (k', v') (Py.set k v d) ->
  (k' = k /\ v' = v) \/ (k' <> k /\ In (k', v') d).
Proof.
  induction d as [|[k0 v0] r IH]; simpl.
  - intros _ [H|[]]. inversion H. now left.
  - intros Hnd. inversion Hnd; subst.
    destruct (String.eqb k0 k) eqn:E.
    + apply String.eqb_eq in E. subst k0. intros [H|H].
      * inversion H. now left.
      * right. split; [|now right].
        intros ->. apply H1. apply in_map_iff. exists (k, v'). auto.
    + apply String.eqb_neq in E. intros [H|H].
      * inversion H; subst. right. split; [congruence|now left].
      * destruct (IH H2 H) as [L|[R1 R2]]; [now left|].
        right. split; [exact R1|now right].
Qed.

End DictFacts.

Section SortFacts.

Context {A : Type} (leb : A -> A -> bool).

Lemma insert_desc_perm x l : Permutation (Py.insert_desc leb x l) (x :: l).
Proof.
  induction l as [|y r IH]; simpl; [reflexivity|].
  destruct (leb y x); [reflexivity|].
  rewrite IH. apply perm_swap.
Qed.

Lemma sorted_desc_perm l : Permutation (Py.sorted_desc leb l) l.
Proof.
  induction l as [|x r IH]; simpl; [reflexivity|].
  rewrite insert_desc_perm. now constructor.
Qed.

(** Sortedness for any order [R] that [leb] decides in the sense needed
    by the insertion. *)
Variable R : A -> A -> Prop.
Hypothesis leb_true : forall y x, leb y x = true -> R x y.
Hypothesis leb_false : forall y x, leb y x = false -> R y x.

Lemma insert_desc_sorted x l :
  Sorted R l -> Sorted R (Py.insert_desc leb x l).
Proof.
  induction l as [|y r IH]; simpl; intros Hs.
  - repeat constructor.
  - destruct (leb y x) eqn:E.
    + constructor; [exact Hs|]. constructor. now apply leb_true.
    + inversion Hs; subst. constructor; [now apply IH|].
      destruct r as [|z r']; simpl.
      * constructor. now apply leb_false.
      * destruct (leb z x); constructor.
        -- now apply leb_false.
        -- inversion H2; subst. assumption.
Qed.

Lemma sorted_desc_sorted l : Sorted R (Py.sorted_desc leb l).
Proof.
  induction l as [|x r IH]; simpl; [constructor|].
  now apply insert_desc_sorted.
Qed.

End SortFacts.

Lemma Sorted_firstn {A : Type} (R : A -> A -> Prop) (n : nat) (l : list A) :
  Sorted R l -> Sorted R (firstn n l).
Proof.
  revert l. induction n as [|n IH]; intros l Hs; simpl; [constructor|].
  destruct l as [|x r]; [constructor|].
  inversion Hs; subst. constructor; [now apply IH|].
  destruct n; simpl; [constructor|].
  destruct r; [constructor|]. inversion H2; subst. now constructor.
Qed.

Lemma slice_to_prefix {A : Type} (n : Z) (l : list A) :
  exists rest, l = slice_to n l ++ rest.
Proof.
  unfold slice_to. destruct (0 <=? n); eexists; symmetry; apply firstn_skipn.
Qed.

Lemma slice_to_nat {A : Type} (k : nat) (l : list A) :
  slice_to (Z.of_nat k) l = firstn k l.
Proof.
  unfold slice_to. replace (0 <=? Z.of_nat k) with true
    by (symmetry; apply Z.leb_le; lia).
  now rewrite Nat2Z.id.
Qed.

Section MergeFacts.

Import Retriever.

Lemma Qle_bool_false a b : Qle_bool a b = false -> Qle b a.
Proof.
  intros H. apply Qlt_le_weak. apply Qnot_le_lt.
  intros L. apply Qle_bool_iff in L. congruence.
Qed.

Lemma best_of_snoc_other seen h hit :
  best_of seen h -> chunk_id hit <> chunk_id h -> best_of (seen ++ [hit]) h.
Proof.
  intros [Hin Hall] Hne. split; [apply in_or_app; now left|].
  apply Forall_app. split; [exact Hall|].
  constructor; [|constructor]. intros E. contradiction.
Qed.

Lemma merge_hit_inv best seen hit :
  merged_inv best seen -> merged_inv (merge_hit best hit) (seen ++ [hit]).
Proof.
  intros (Hnd & Hent & Hcov). unfold merge_hit.
  destruct (Py.lookup (chunk_id hit) best) as [old|] eqn:L.
  - pose proof (lookup_In _ _ _ L) as Hold.
    destruct (Hent _ _ Hold) as [Hk [Hoin Hoall]].
    assert (Lne : Py.lookup (chunk_id hit) best <> None) by congruence.
    destruct (negb (Qle_bool (score hit) (score old))) eqn:G.
    + (* the new hit is strictly better *)
      apply negb_true_iff in G. apply Qle_bool_false in G.
      split; [now rewrite set_keys|]. split.
      * intros k h Hin. apply In_set in Hin; [|exact Hnd].
        destruct Hin as [[-> ->]|[Hne Hin]].
        -- split; [reflexivity|]. split; [apply in_or_app; right; now left|].
           apply Forall_app. split.
           ++ eapply Forall_impl; [|exact Hoall]. simpl.
              intros h' Hh' E. eapply Qle_trans; [|exact G].
              apply Hh'. congruence.
           ++ constructor; [|constructor]. intros _. apply Qle_refl.
        -- destruct (Hent _ _ Hin) as [Hk' Hb]. split; [exact Hk'|].
           apply best_of_snoc_other; [exact Hb|congruence].
      * intros h Hin. rewrite set_keys by exact Lne.
        apply in_app_or in Hin. destruct Hin as [Hin|[<-|[]]]; [auto|].
        apply in_map_iff. exists (chunk_id hit, old). auto.
    + (* the entry stays *)
      apply negb_false_iff in G. apply Qle_bool_iff in G.
      split; [exact Hnd|]. split.
      * intros k h Hin. destruct (Hent _ _ Hin) as [Hk' [Hb1 Hb2]].
        split; [exact Hk'|].
        destruct (string_dec (chunk_id hit) (chunk_id h)) as [E|E].
        -- assert (h = old).
           { rewrite Hk', <- E in Hin.
             apply (In_lookup _ _ _ Hnd) in Hin. congruence. }
           subst h. split; [apply in_or_app; now left|].
           apply Forall_app. split; [exact Hb2|].
           constructor; [|constructor]. intros _. exact G.
        -- apply best_of_snoc_other; [split; assumption|exact E].
      * intros h Hin. apply in_app_or in Hin.
        destruct Hin as [Hin|[<-|[]]]; [auto|].
        apply in_map_iff. exists (chunk_id hit, old). auto.
  - (* first hit with this chunk id *)
    rewrite set_new by exact L.
    pose proof (proj1 (lookup_None _ _) L) as Hfresh.
    split.
    { rewrite map_app. simpl.
      eapply Permutation_NoDup; [apply Permutation_cons_append|].
      constructor; [exact Hfresh|exact Hnd]. }
    split.
    + intros k h Hin. apply in_app_or in Hin.
      destruct Hin as [Hin|[Hin|[]]].
      * destruct (Hent _ _ Hin) as [Hk' Hb]. split; [exact Hk'|].
        apply best_of_snoc_other; [exact Hb|].
        intros E. apply Hfresh. rewrite E, <- Hk'.
        apply in_map_iff. exists (k, h). auto.
      * inversion Hin; subst. split; [reflexivity|].
        split; [apply in_or_app; right; now left|].
        apply Forall_app. split.
        -- apply Forall_forall. intros h' Hh' E. exfalso.
           apply Hfresh. rewrite <- E. auto.
        -- constructor; [|constructor]. intros _. apply Qle_refl.
    + intros h Hin. rewrite map_app. apply in_or_app.
      apply in_app_or in Hin. destruct Hin as [Hin|[<-|[]]]; [left; auto|].
      right. now left.
Qed.

Lemma fold_merge_inv hits : forall best seen,
  merged_inv best seen ->
  merged_inv (fold_left merge_hit hits best) (seen ++ hits).
Proof.
  induction hits as [|hit rest IH]; intros best seen H; simpl.
  - now rewrite app_nil_r.
  - replace (seen ++ hit :: rest) with ((seen ++ [hit]) ++ rest)
      by (now rewrite <- app_assoc).
    apply IH. now apply merge_hit_inv.
Qed.

Lemma merge_hits_inv hits : merged_inv (merge_hits hits) hits.
Proof.
  unfold merge_hits. apply (fold_merge_inv hits [] []).
  split; [constructor|]. split; intros; contradiction.
Qed.

Lemma merged_ids best seen :
  merged_inv best seen -> map chunk_id (map snd best) = map fst best.
Proof.
  intros (_ & Hent & _). rewrite map_map.
  apply map_ext_in. intros [k h] Hin. simpl.
  destruct (Hent _ _ Hin) as [-> _]. reflexivity.
Qed.

Lemma rank_descending hits k : descending (rank hits k).
Proof.
  unfold rank, descending, slice_to.
  assert (Hs : Sorted (fun a b => Qle (score b) (score a))
                 (Py.sorted_desc score_leb (map snd (merge_hits hits)))).
  { apply sorted_desc_sorted.
    - intros y x H. now apply Qle_bool_iff.
    - intros y x H. now apply Qle_bool_false. }
  destruct (0 <=? k); now apply Sorted_firstn.
Qed.

End MergeFacts.

(** C2.  Merging collapses the hits that carry the same chunk identifier
    and keeps, for each identifier, a hit whose score is the maximum seen
    (one of the observed hits, not an average); the result of [retrieve] is
    that set sorted by score descending and cut to [final_top_k].  On the
    hits a:0.8, b:0.7, a:0.9, c:0.6 the merge is a:0.9, b:0.7, c:0.6 and
    the top two are a(0.9), b(0.7). *)
Theorem merge_keeps_best_score :
  (forall hits : list Retriever.Hit,
     let merged := map snd (Retriever.merge_hits hits) in
     NoDup (map Retriever.chunk_id merged)
     /\ Forall (Retriever.best_of hits) merged
     /\ Forall (fun h => In (Retriever.chunk_id h) (map Retriever.chunk_id merged))
               hits
     /\ Permutation (Py.sorted_desc Retriever.score_leb merged) merged
     /\ (forall final_top_k : Z,
           Retriever.descending (Retriever.rank hits final_top_k)
           /\ exists rest,
               Py.sorted_desc Retriever.score_leb merged
               = Retriever.rank hits final_top_k ++ rest)
     /\ (forall k : nat,
           Retriever.rank hits (Z.of_nat k)
           = firstn k (Py.sorted_desc Retriever.score_leb merged)))
  /\ (forall expand store_query question top_k_per_query final_top_k num_variants,
        Retriever.results
          (Retriever.retrieve expand store_query question top_k_per_query
             final_top_k num_variants)
        = Retriever.rank
            (flat_map (fun q => store_query q top_k_per_query)
               (Retriever.all_queries question (expand question num_variants)))
            final_top_k)
  /\ Retriever.merge_hits Retriever.sample_hits
     = [ ("a", Retriever.sample_hit "a" (9 # 10) "t1");
         ("b", Retriever.sample_hit "b" (7 # 10) "t2");
         ("c", Retriever.sample_hit "c" (6 # 10) "t3") ]
  /\ Retriever.rank Retriever.sample_hits 2
     = [ Retriever.sample_hit "a" (9 # 10) "t1";
         Retriever.sample_hit "b" (7 # 10) "t2" ].
Proof.
  split; [|split; [reflexivity|split; vm_compute; reflexivity]].
  intros hits merged.
  pose proof (merge_hits_inv hits) as Hinv.
  pose proof Hinv as (Hnd & Hent & Hcov).
  pose proof (merged_ids _ _ Hinv) as Hids.
  split; [unfold merged; now rewrite Hids|].
  split.
  { apply Forall_forall. intros h Hin. unfold merged in Hin.
    apply in_map_iff in Hin. destruct Hin as [[k h'] [<- Hin]].
    apply (Hent _ _ Hin). }
  split.
  { apply Forall_forall. intros h Hin. unfold merged. rewrite Hids. auto. }
  split; [apply sorted_desc_perm|].
  split.
  - intros k. split; [apply rank_descending|].
    unfold Retriever.rank. apply slice_to_prefix.
  - intros k. unfold Retriever.rank. apply slice_to_nat.
Qed.

(** C7, as the specification states it, fails: two variants that differ
    only by case are both executed. *)
Lemma query_dedup_counterexample : ~ Retriever.query_dedup_claim.
Proof.
  intros H.
  specialize (H (Retriever.expand_query Sample.json_loads Sample.repr
                   (Retriever.Returned
                      ("[" ++ Str.quoted "dental cover" ++ ", "
                           ++ Str.quoted "Dental Cover" ++ "]")%string))
                (fun _ _ => []) "Is dental treatment covered?" 8 10 3).
  vm_compute in H.
  destruct H as [_ [H _]]. inversion H as [|x l Hx Hl]; subst.
  apply Hx. reflexivity.
Qed.

(** C7, as the code has it.  The queries executed by [retrieve] are the
    question followed by the expansion variants, in order, that differ from
    the question when both are lower-cased: no executed variant equals the
    question up to case, every other variant is executed, and variants are
    not compared with one another. *)
Theorem queries_deduplicated_against_question :
  forall (expand : string -> Z -> list string)
         (store_query : string -> Z -> list Retriever.Hit)
         (question : string) (top_k_per_query final_top_k num_variants : Z),
    let qs :=
      Retriever.query_variants
        (Retriever.retrieve expand store_query question top_k_per_query
           final_top_k num_variants) in
    qs = question
           :: filter (fun v => negb (String.eqb (Str.lower v) (Str.lower question)))
                     (expand question num_variants)
    /\ Forall (fun v => ~ Retriever.same_query v question
                        /\ In v (expand question num_variants)) (tl qs)
    /\ Forall (fun v => Retriever.same_query v question \/ In v (tl qs))
              (expand question num_variants).
Proof.
  intros expand store_query question k1 k2 n qs.
  split; [reflexivity|]. unfold qs. simpl. split.
  - apply Forall_forall. intros v Hv. apply filter_In in Hv.
    destruct Hv as [Hin Hb]. split; [|exact Hin].
    apply negb_true_iff, String.eqb_neq in Hb. exact Hb.
  - apply Forall_forall. intros v Hv.
    destruct (String.eqb (Str.lower v) (Str.lower question)) eqn:E.
    + left. now apply String.eqb_eq in E.
    + right. apply filter_In. split; [exact Hv|]. now rewrite E.
Qed.

(** C8.  Whenever the generation-service call of [expand_query] fails (it
    raises, or its output is not a parseable JSON array), [expand_query]
    returns the heuristic expansion: the question, the question after the
    coverage-terms hint and the question after the exclusions hint, cut to
    [n].  The model of [expand_query] is a total function: the handler of
    the source catches every exception. *)
Theorem expansion_falls_back :
  forall (json_loads : string -> option Py.value) (repr : Py.value -> string)
         (call : Retriever.Outcome) (question : string) (n : Z),
    Retriever.expansion_failed json_loads call ->
    Retriever.expand_query json_loads repr call question n
    = slice_to n
        [ question;
          ("coverage policy benefits " ++ question)%string;
          ("exclusions waiting period sub-limit " ++ question)%string ].
Proof.
  intros json_loads repr call question n H.
  unfold Retriever.expand_query, Retriever.expansion_failed in *.
  destruct call as [msg|raw]; [reflexivity|].
  destruct (json_loads (Retriever.strip_fences raw)) as [v|]; [|reflexivity].
  destruct v; try reflexivity. contradiction.
Qed.

Lemma expansion_falls_back_witness :
  Retriever.expansion_failed Sample.json_loads
    (Retriever.Returned "Sorry, I cannot answer that.")
  /\ Retriever.expand_query Sample.json_loads Sample.repr
       (Retriever.Returned "Sorry, I cannot answer that.")
       "Is knee surgery covered?" 3
     = [ "Is knee surgery covered?";
         "coverage policy benefits Is knee surgery covered?";
         "exclusions waiting period sub-limit Is knee surgery covered?" ].
Proof.
  split.
  - vm_compute. exact I.
  - apply (expansion_falls_back Sample.json_loads Sample.repr
             (Retriever.Returned "Sorry, I cannot answer that.")
             "Is knee surgery covered?" 3).
    vm_compute. exact I.
Defined.

(* ================================================================== *)
(** * Facts about the answer normaliser *)
(* ================================================================== *)

Section NormaliserFacts.

Import Py Agent.

Variable json_loads : string -> loaded.
Variable float_of_str : string -> option float.
Variable int_of_str : string -> option Z.
Variable repr : value -> string.

Lemma unparseable_response_shape question raw :
  fallback_shape (Ok (unparseable_response question raw)).
Proof.
  unfold unparseable_response, fallback_shape.
  destruct (20 <? Str.slen (Str.strip raw));
    eexists; eexists; (split; [reflexivity|]); simpl; repeat split.
Qed.

Lemma normalise_unparseable model retrieval chunks question flt raw :
  _extract_json json_loads raw = Ok None ->
  normalise json_loads float_of_str int_of_str repr model retrieval chunks
    question flt raw
  = Ok (unparseable_response question raw).
Proof. intros H. unfold normalise. now rewrite H. Qed.

Lemma ask_response model base_url retrieval question flt raw :
  is_empty (apply_filename_filter flt (Retriever.results retrieval)) = false ->
  ask json_loads float_of_str int_of_str repr model base_url retrieval
    (Response raw) question flt
  = normalise json_loads float_of_str int_of_str repr model retrieval
      (apply_filename_filter flt (Retriever.results retrieval))
      question flt raw.
Proof. intros H. unfold ask. now rewrite H. Qed.

Lemma not_json_unparseable :
  json_loads "This is not JSON at all" = JSONDecodeError ->
  _extract_json json_loads "This is not JSON at all" = Ok None.
Proof.
  intros H. unfold _extract_json.
  replace (clean_text "This is not JSON at all")
    with "This is not JSON at all" by (vm_compute; reflexivity).
  unfold try_loads. rewrite H. cbn [bind].
  replace (brace_span "This is not JSON at all")
    with (@None string) by (vm_compute; reflexivity).
  reflexivity.
Qed.

(** An exception of [json.loads] that is not a decode error leaves
    [_extract_json], at the direct parse or at the parse of the brace
    span. *)
Lemma extract_json_raises_direct raw e :
  json_loads (clean_text raw) = LoadsRaised e ->
  _extract_json json_loads raw = Raise e.
Proof. intros H. unfold _extract_json, try_loads. now rewrite H. Qed.

Lemma extract_json_raises_span raw span e :
  json_loads (clean_text raw) = JSONDecodeError ->
  brace_span (clean_text raw) = Some span ->
  json_loads span = LoadsRaised e ->
  _extract_json json_loads raw = Raise e.
Proof.
  intros H1 H2 H3. unfold _extract_json, try_loads.
  rewrite H1. cbn [bind]. now rewrite H2, H3.
Qed.


Lemma normalise_raises model retrieval chunks question flt raw e :
  _extract_json json_loads raw = Raise e ->
  normalise json_loads float_of_str int_of_str repr model retrieval chunks
    question flt raw = Raise e.
Proof. intros H. unfold normalise. now rewrite H. Qed.

(** ** Confidence *)

Lemma clamp_in_unit_interval f : in_unit_interval (max2 zero (min2 one f)).
Proof.
  unfold in_unit_interval.
  destruct f as [q| | |].
  - unfold min2, one, zero. simpl flt.
    destruct (Qle_bool 1 q) eqn:E1; simpl.
    + exists 1%Q. repeat split; discriminate.
    + unfold max2. simpl flt.
      destruct (Qle_bool q 0) eqn:E0; simpl.
      * exists 0%Q. repeat split; discriminate.
      * exists q. split; [reflexivity|]. split.
        -- now apply Qle_bool_false.
        -- now apply Qle_bool_false.
  - exists 1%Q. repeat split; discriminate.
  - exists 0%Q. repeat split; discriminate.
  - exists 1%Q. repeat split; discriminate.
Qed.

Lemma validate_confidence_rule data :
  match to_float float_of_str (get "confidence" data (VFloat zero)) with
  | Ok f =>
      validate_confidence float_of_str data = Ok (max2 zero (min2 one f))
  | Raise TypeError | Raise ValueError =>
      validate_confidence float_of_str data = Ok zero
  | Raise _ => True
  end.
Proof.
  unfold validate_confidence.
  destruct (to_float float_of_str (get "confidence" data (VFloat zero)))
    as [f|[]]; auto.
Qed.

Lemma validate_confidence_range data f :
  validate_confidence float_of_str data = Ok f -> in_unit_interval f.
Proof.
  unfold validate_confidence.
  destruct (to_float float_of_str (get "confidence" data (VFloat zero)))
    as [c|[]]; intros H; inversion H; subst.
  - apply clamp_in_unit_interval.
  - exists 0%Q. repeat split; discriminate.
  - exists 0%Q. repeat split; discriminate.
Qed.

(** What [_validate_response] returns, field by field, on the flattened
    dictionary. *)
Lemma validate_response_fields data v :
  _validate_response float_of_str int_of_str repr data = Ok v ->
  exists fdata,
    _flatten_value (VDict data) = VDict fdata
    /\ validate_confidence float_of_str fdata = Ok (confidence v)
    /\ validate_citations int_of_str repr fdata = Ok (citations v)
    /\ covered v = validate_covered fdata
    /\ caveats v = validate_caveats repr fdata.
Proof.
  unfold _validate_response.
  destruct (_flatten_value (VDict data)) as [| | | | | |fdata]; try discriminate.
  destruct (validate_confidence float_of_str fdata) as [conf|e] eqn:Ec;
    simpl; [|discriminate].
  destruct (validate_citations int_of_str repr fdata) as [cits|e] eqn:Ek;
    simpl; [|discriminate].
  intros H. inversion H; subst; simpl.
  exists fdata. repeat split; assumption.
Qed.

(** ** Citation backfill *)

Lemma backfill_one_keeps chunks question cit :
  blank (quote cit) = false -> backfill_one chunks question cit = cit.
Proof. intros H. unfold backfill_one. now rewrite H. Qed.

Lemma backfill_one_exact chunks question cit chunk :
  blank (quote cit) = true ->
  find (exact_match cit) chunks = Some chunk ->
  blank (_best_sentence (Retriever.text chunk) question) = false ->
  backfill_one chunks question cit
  = set_quote cit (_best_sentence (Retriever.text chunk) question).
Proof.
  intros Hb Hf Hq. unfold backfill_one. rewrite Hb, Hf. simpl.
  now rewrite Hq.
Qed.

Lemma backfill_one_file chunks question cit chunk :
  blank (quote cit) = true ->
  (find (exact_match cit) chunks = None
   \/ exists c1, find (exact_match cit) chunks = Some c1
                 /\ blank (_best_sentence (Retriever.text c1) question) = true) ->
  find (file_match cit) chunks = Some chunk ->
  backfill_one chunks question cit
  = set_quote cit (_best_sentence (Retriever.text chunk) question).
Proof.
  intros Hb He Hf. unfold backfill_one. rewrite Hb. simpl.
  destruct He as [He|[c1 [He Hq]]]; rewrite He.
  - rewrite Hb, Hf. reflexivity.
  - simpl quote. rewrite Hq.
    change (file_match (set_quote cit (_best_sentence (Retriever.text c1) question)))
      with (file_match cit).
    rewrite Hf. reflexivity.
Qed.

Lemma find_exact_file cit chunks :
  find (file_match cit) chunks = None -> find (exact_match cit) chunks = None.
Proof.
  induction chunks as [|c r IH]; simpl; [reflexivity|].
  unfold exact_match at 1.
  destruct (file_match cit c); [discriminate|]. simpl. exact IH.
Qed.

Lemma backfill_one_unmatched chunks question cit :
  blank (quote cit) = true ->
  find (file_match cit) chunks = None ->
  backfill_one chunks question cit = cit.
Proof.
  intros Hb Hf. unfold backfill_one.
  rewrite Hb, (find_exact_file _ _ Hf), Hb, Hf. reflexivity.
Qed.

Lemma backfill_all_quoted citations chunks question :
  Forall (fun c => blank (quote c) = false)
         (_backfill_citations citations chunks question).
Proof.
  unfold _backfill_citations. apply Forall_forall.
  intros c Hc. apply filter_In in Hc. destruct Hc as [_ Hc].
  now apply negb_true_iff in Hc.
Qed.

Lemma backfill_keeps_quoted l1 cit l2 chunks question :
  blank (quote cit) = false ->
  _backfill_citations (l1 ++ cit :: l2) chunks question
  = filter (fun c => negb (blank (quote c)))
      (map (backfill_one chunks question) l1)
    ++ cit
    :: filter (fun c => negb (blank (quote c)))
         (map (backfill_one chunks question) l2).
Proof.
  intros Hb. unfold _backfill_citations.
  destruct (map (backfill_one chunks question) (l1 ++ cit :: l2)) eqn:E.
  - destruct l1; discriminate.
  - rewrite <- E. rewrite map_app, filter_app. simpl.
    rewrite (backfill_one_keeps _ _ _ Hb), Hb. reflexivity.
Qed.

Lemma normalise_parsed model retrieval chunks question flt raw parsed v0 :
  _extract_json json_loads raw = Ok (Some parsed) ->
  _validate_response float_of_str int_of_str repr parsed = Ok v0 ->
  exists v,
    normalise json_loads float_of_str int_of_str repr model retrieval chunks
      question flt raw = Ok v
    /\ covered v = covered v0
    /\ confidence v = confidence v0
    /\ explanation v = explanation v0
    /\ caveats v = caveats v0
    /\ citations v = _backfill_citations (citations v0) chunks question.
Proof.
  intros Hp Hv. unfold normalise. rewrite Hp. cbn [bind]. rewrite Hv. simpl.
  eexists. split; [reflexivity|]. simpl. repeat split.
Qed.

End NormaliserFacts.

(* ================================================================== *)
(** * Facts about the answer chain's backfill *)
(* ================================================================== *)

Section AnswerChainFacts.

Import Py AnswerChain.

Variable repr : value -> string.

Lemma key_eqb_eq a b : key_eqb a b = true <-> a = b.
Proof.
  destruct a as [a1 a2], b as [b1 b2]. unfold key_eqb. simpl.
  rewrite andb_true_iff, !String.eqb_eq. split.
  - intros [-> ->]. reflexivity.
  - intros H. inversion H. auto.
Qed.

Lemma find_snoc {A : Type} (P : A -> bool) (l : list A) (x : A) :
  find P (l ++ [x])
  = match find P l with
    | Some e => Some e
    | None => if P x then Some x else None
    end.
Proof.
  induction l as [|y r IH]; simpl; [reflexivity|].
  destruct (P y); [reflexivity|exact IH].
Qed.

(** The dictionary answers a key with the first chunk that carries it. *)
Lemma build_lookup_key k chunks : forall acc,
  lookup_key k (build_lookup chunks acc)
  = match lookup_key k acc with
    | Some c => Some c
    | None => find (fun c => key_eqb (chunk_key c) k) chunks
    end.
Proof.
  induction chunks as [|c r IH]; intros acc; simpl.
  - destruct (lookup_key k acc); reflexivity.
  - rewrite IH. destruct (lookup_key (chunk_key c) acc) as [c'|] eqn:Ec.
    + destruct (lookup_key k acc) as [x|] eqn:Ek; [reflexivity|].
      destruct (key_eqb (chunk_key c) k) eqn:E; [|reflexivity].
      apply key_eqb_eq in E. rewrite E in Ec. congruence.
    + unfold lookup_key in *. rewrite find_snoc.
      destruct (find (fun e => key_eqb (fst e) k) acc) as [e|]; simpl;
        [reflexivity|].
      destruct (key_eqb (chunk_key c) k); simpl; [reflexivity|].
      reflexivity.
Qed.

(** Its first entry for a file name is the first chunk of that file. *)
Lemma build_lookup_file fn chunks : forall acc,
  option_map snd
    (find (fun e => String.eqb (fst (fst e)) fn) (build_lookup chunks acc))
  = match find (fun e => String.eqb (fst (fst e)) fn) acc with
    | Some e => Some (snd e)
    | None =>
        find (fun c => String.eqb (Retriever.md_filename (Retriever.metadata c)) fn)
             chunks
    end.
Proof.
  induction chunks as [|c r IH]; intros acc; simpl.
  - destruct (find _ acc); reflexivity.
  - rewrite IH. destruct (lookup_key (chunk_key c) acc) as [c'|] eqn:Ec.
    + destruct (find (fun e => String.eqb (fst (fst e)) fn) acc) as [e|] eqn:Ef;
        [reflexivity|].
      destruct (String.eqb (Retriever.md_filename (Retriever.metadata c)) fn)
        eqn:E; [|reflexivity].
      exfalso. unfold lookup_key in Ec.
      destruct (find (fun e => key_eqb (fst e) (chunk_key c)) acc) as [e|] eqn:Ee;
        [|discriminate].
      apply find_some in Ee. destruct Ee as [Hin He].
      apply key_eqb_eq in He.
      pose proof (find_none _ _ Ef _ Hin) as Hn. simpl in Hn.
      rewrite He in Hn. simpl in Hn. congruence.
    + rewrite find_snoc.
      destruct (find (fun e => String.eqb (fst (fst e)) fn) acc) as [e|];
        [reflexivity|].
      simpl. destruct (String.eqb _ fn); reflexivity.
Qed.

Lemma set_quote_same (cit : Citation) : set_quote cit (quote cit) = cit.
Proof. destruct cit; reflexivity. Qed.

Lemma set_quote_twice (cit : Citation) q1 q2 :
  set_quote (set_quote cit q1) q2 = set_quote cit q2.
Proof. reflexivity. Qed.

(** The loop body follows the three tiers. *)
Lemma backfill_one_tiers chunks question_words cit :
  backfill_one repr chunks question_words cit
  = if needs_quote cit
    then set_quote cit (tiered_quote repr chunks question_words cit)
    else cit.
Proof.
  unfold backfill_one. destruct (needs_quote cit); [|reflexivity].
  unfold tiered_quote.
  rewrite build_lookup_key. simpl lookup_key.
  change (fun c => key_eqb (chunk_key c) (filename cit, to_str repr (page cit)))
    with (fun c =>
            String.eqb (Retriever.md_filename (Retriever.metadata c)) (filename cit)
            && String.eqb
                 (str_of_int (Retriever.md_page_number (Retriever.metadata c)))
                 (to_str repr (page cit))).
  destruct (find _ chunks) as [chunk|] eqn:E1.
  - simpl quote.
    destruct chunks as [|top rest]; [discriminate|].
    destruct (Str.truthy _); reflexivity.
  - pose proof (build_lookup_file (filename cit) chunks []) as Hf.
    simpl in Hf.
    destruct (find (fun e => String.eqb (fst (fst e)) (filename cit))
                (build_lookup chunks [])) as [[k ch]|] eqn:E2;
      simpl in Hf; rewrite <- Hf.
    + simpl quote. destruct chunks as [|top rest].
      * simpl in Hf. discriminate.
      * destruct (Str.truthy _); reflexivity.
    + destruct chunks as [|top rest].
      * destruct (Str.truthy (quote cit)); now rewrite set_quote_same.
      * destruct (Str.truthy (quote cit)) eqn:Eq; simpl.
        -- rewrite Eq. simpl. now rewrite set_quote_same.
        -- rewrite Eq. reflexivity.
Qed.

Lemma chain_backfill_all_quoted citations chunks question :
  Forall (fun c => Str.truthy (quote c) = true)
         (_backfill_citations repr citations chunks question).
Proof.
  unfold _backfill_citations. apply Forall_forall.
  intros c Hc. apply filter_In in Hc. apply Hc.
Qed.

End AnswerChainFacts.

(** Where the fallback is produced.  A raw text in which [_extract_json]
    finds no object ([json.loads] reports a decode error or gives a
    value that is not a dict: directly, after the fence is stripped,
    and on the brace span) gives the fallback verdict: covered Unknown,
    confidence 0.0, no citation, no caveat, fallback flag set.  So does
    a call that could not reach the service.  The text
    "This is not JSON at all" is such a text as soon as [json.loads]
    reports a decode error on it. *)
Lemma decode_error_gives_fallback :
  forall (json_loads : string -> Py.loaded)
         (float_of_str : string -> option Py.float)
         (int_of_str : string -> option Z) (repr : Py.value -> string)
         (model base_url : string) (retrieval : Retriever.Retrieval)
         (question : string) (filename_filter : option string),
    (forall chunks raw,
       Agent._extract_json json_loads raw = Py.Ok None ->
       Agent.fallback_shape
         (Agent.normalise json_loads float_of_str int_of_str repr model
            retrieval chunks question filename_filter raw))
    /\ (forall raw,
          is_empty (Agent.apply_filename_filter filename_filter
                      (Retriever.results retrieval)) = false ->
          Agent._extract_json json_loads raw = Py.Ok None ->
          Agent.fallback_shape
            (Agent.ask json_loads float_of_str int_of_str repr model base_url
               retrieval (Agent.Response raw) question filename_filter))
    /\ (forall llm,
          is_empty (Agent.apply_filename_filter filename_filter
                      (Retriever.results retrieval)) = false ->
          (match llm with Agent.Response _ => False | _ => True end) ->
          Agent.fallback_shape
            (Agent.ask json_loads float_of_str int_of_str repr model base_url
               retrieval llm question filename_filter))
    /\ (is_empty (Agent.apply_filename_filter filename_filter
                    (Retriever.results retrieval)) = false ->
        json_loads "This is not JSON at all" = Py.JSONDecodeError ->
        Agent.fallback_shape
          (Agent.ask json_loads float_of_str int_of_str repr model base_url
             retrieval (Agent.Response "This is not JSON at all") question
             filename_filter)).
Proof.
  intros json_loads fos ios repr model base_url retrieval question flt.
  assert (Hn : forall chunks raw,
             Agent._extract_json json_loads raw = Py.Ok None ->
             Agent.fallback_shape
               (Agent.normalise json_loads fos ios repr model retrieval chunks
                  question flt raw)).
  { intros chunks raw H. rewrite normalise_unparseable by exact H.
    apply unparseable_response_shape. }
  assert (Ha : forall raw,
             is_empty (Agent.apply_filename_filter flt
                         (Retriever.results retrieval)) = false ->
             Agent._extract_json json_loads raw = Py.Ok None ->
             Agent.fallback_shape
               (Agent.ask json_loads fos ios repr model base_url retrieval
                  (Agent.Response raw) question flt)).
  { intros raw Hc H. rewrite ask_response by exact Hc. now apply Hn. }
  split; [exact Hn|]. split; [exact Ha|]. split.
  - intros llm Hc Hl. unfold Agent.ask. rewrite Hc.
    destruct llm as [|msg|raw]; [| |contradiction];
      unfold Agent.fallback_shape, Agent._fallback_response;
      eexists; eexists; (split; [reflexivity|]); simpl; repeat split.
  - intros Hc Hj. apply Ha; [exact Hc|]. now apply not_json_unparseable.
Qed.

Example not_json_sample_run :
  Agent._extract_json Sample.loads "This is not JSON at all" = Py.Ok None
  /\ Agent.fallback_shape
       (Agent.ask Sample.loads Sample.float_of_str Sample.int_of_str
          Sample.repr "llama3" "http://localhost:11434" Agent.sample_retrieval
          (Agent.Response "This is not JSON at all") Agent.sample_question None)
  /\ Agent.fallback_shape
       (Agent.ask Sample.loads Sample.float_of_str Sample.int_of_str
          Sample.repr "llama3" "http://localhost:11434" Agent.sample_retrieval
          Agent.ConnectionError Agent.sample_question None).
Proof.
  destruct (decode_error_gives_fallback Sample.loads Sample.float_of_str
              Sample.int_of_str Sample.repr "llama3" "http://localhost:11434"
              Agent.sample_retrieval Agent.sample_question None)
    as (H1 & H2 & H3 & H4).
  split; [vm_compute; reflexivity|].
  split; [apply H4; vm_compute; reflexivity|].
  apply H3; [vm_compute; reflexivity|exact I].
Qed.

(** C3.  The claim fails on the code for a reply on which [json.loads]
    raises something else than a decode error (the [ValueError] of an
    integer literal of more than 4300 digits, the [RecursionError] of
    deep nesting): [_extract_json] catches [json.JSONDecodeError] only,
    so the exception leaves [ask] and no fallback verdict is returned,
    although the reply is unparseable. *)
Theorem json_error_escapes_ask :
  forall (json_loads : string -> Py.loaded)
         (float_of_str : string -> option Py.float)
         (int_of_str : string -> option Z) (repr : Py.value -> string)
         (model base_url : string) (retrieval : Retriever.Retrieval)
         (question : string) (filename_filter : option string)
         (raw : string) (e : Py.exn),
    is_empty (Agent.apply_filename_filter filename_filter
                (Retriever.results retrieval)) = false ->
    json_loads (Agent.clean_text raw) = Py.LoadsRaised e ->
    Agent.ask json_loads float_of_str int_of_str repr model base_url
      retrieval (Agent.Response raw) question filename_filter = Py.Raise e
    /\ ~ Agent.fallback_shape
           (Agent.ask json_loads float_of_str int_of_str repr model base_url
              retrieval (Agent.Response raw) question filename_filter).
Proof.
  intros json_loads fos ios repr model base_url retrieval question flt raw e
         Hc Hj.
  assert (H : Agent.ask json_loads fos ios repr model base_url retrieval
                (Agent.Response raw) question flt = Py.Raise e).
  { rewrite ask_response by exact Hc.
    apply normalise_raises. now apply extract_json_raises_direct. }
  split; [exact H|].
  intros (v & m & Hv & _). rewrite H in Hv. discriminate.
Qed.

Lemma json_error_escapes_ask_witness :
  Agent.ask Sample.loads Sample.float_of_str Sample.int_of_str Sample.repr
    "llama3" "http://localhost:11434" Agent.sample_retrieval
    (Agent.Response Sample.long_integer) Agent.sample_question None
  = Py.Raise Py.ValueError
  /\ ~ Agent.fallback_shape
         (Agent.ask Sample.loads Sample.float_of_str Sample.int_of_str
            Sample.repr "llama3" "http://localhost:11434"
            Agent.sample_retrieval (Agent.Response Sample.long_integer)
            Agent.sample_question None).
Proof.
  apply (json_error_escapes_ask Sample.loads Sample.float_of_str
           Sample.int_of_str Sample.repr "llama3" "http://localhost:11434"
           Agent.sample_retrieval Agent.sample_question None
           Sample.long_integer Py.ValueError).
  - vm_compute. reflexivity.
  - vm_compute. reflexivity.
Defined.

(** C9, against the answer chain: [_normalise_llm_output] stores 0.5, not
    0.0, for a confidence string that [float] rejects. *)
Lemma confidence_claim_counterexample :
  ~ Agent.confidence_claim Sample.float_of_str
      (AnswerChain.normalised_confidence Sample.float_of_str Sample.repr).
Proof.
  intros H.
  specialize (H [("answer", Py.VStr "Yes");
                 ("confidence", Py.VStr "not-a-number")]
                (Py.VStr "not-a-number") eq_refl eq_refl).
  vm_compute in H. discriminate H.
Qed.

(** C9, as the code has it.  In [agent._validate_response] the confidence
    is coerced with [float]; when the coercion succeeds the stored value is
    the coerced one clamped to [0, 1], and when it fails with [TypeError]
    or [ValueError] the stored value is 0.0; whatever is stored lies in
    [0, 1]; 5 is stored as 1.0 and "not-a-number" as 0.0.  In
    [AnswerChain._normalise_llm_output] a string that [float] rejects and a
    value that is not a number are stored as 0.5 whenever the function
    returns; when it raises instead (step 7, on an explanation that is
    not a string), nothing is returned. *)
Theorem confidence_coercion :
  forall (float_of_str : string -> option Py.float)
         (int_of_str : string -> option Z) (repr : Py.value -> string),
    (forall data,
       match Py.to_float float_of_str
               (Py.get "confidence" data (Py.VFloat Py.zero)) with
       | Py.Ok f =>
           Agent.validate_confidence float_of_str data
           = Py.Ok (Py.max2 Py.zero (Py.min2 Py.one f))
       | Py.Raise Py.TypeError | Py.Raise Py.ValueError =>
           Agent.validate_confidence float_of_str data = Py.Ok Py.zero
       | Py.Raise _ => True
       end)
    /\ (forall f, Agent.in_unit_interval (Py.max2 Py.zero (Py.min2 Py.one f)))
    /\ (forall data v,
          Agent._validate_response float_of_str int_of_str repr data = Py.Ok v ->
          exists fdata,
            Agent._flatten_value (Py.VDict data) = Py.VDict fdata
            /\ Agent.validate_confidence float_of_str fdata
               = Py.Ok (Agent.confidence v)
            /\ Agent.in_unit_interval (Agent.confidence v))
    /\ (exists v,
          Agent._validate_response float_of_str int_of_str repr
            [("confidence", Py.VInt 5)] = Py.Ok v
          /\ Agent.confidence v = Py.one)
    /\ (float_of_str "not-a-number" = None ->
        exists v,
          Agent._validate_response float_of_str int_of_str repr
            [("confidence", Py.VStr "not-a-number")] = Py.Ok v
          /\ Agent.confidence v = Py.zero)
    /\ (forall data,
          (match Py.get "confidence" (AnswerChain.flatten_all data) (Py.VInt 0) with
           | Py.VStr s => float_of_str s = None
           | Py.VNone | Py.VList _ | Py.VDict _ => True
           | _ => False
           end) ->
          match AnswerChain.normalised_answer float_of_str repr data with
          | Py.Ok _ =>
              AnswerChain.normalised_confidence float_of_str repr data
              = Py.Ok Py.half
          | Py.Raise e =>
              AnswerChain.normalised_confidence float_of_str repr data
              = Py.Raise e
          end).
Proof.
  intros fos ios repr.
  split; [apply validate_confidence_rule|].
  split; [apply clamp_in_unit_interval|].
  split.
  { intros data v H. apply validate_response_fields in H.
    destruct H as (fdata & Hf & Hc & _). exists fdata.
    split; [exact Hf|]. split; [exact Hc|].
    eapply validate_confidence_range; eauto. }
  split; [eexists; split; reflexivity|].
  split.
  { intros H. unfold Agent._validate_response. simpl Agent._flatten_value.
    unfold Agent.validate_confidence. simpl Py.get. simpl Py.to_float.
    rewrite H. simpl. eexists; split; reflexivity. }
  intros data H.
  assert (Hc : AnswerChain.coerce_confidence fos (AnswerChain.flatten_all data)
               = Py.Ok Py.half).
  { unfold AnswerChain.coerce_confidence.
    destruct (Py.get "confidence" (AnswerChain.flatten_all data) (Py.VInt 0))
      as [| | | |s| |]; try contradiction; simpl; try rewrite H; reflexivity. }
  unfold AnswerChain.normalised_answer, AnswerChain.normalised_confidence.
  rewrite Hc. cbn [Py.bind].
  destruct (Str.mem
              (Str.lower (AnswerChain.answer_val repr
                            (AnswerChain.flatten_all data)))
              AnswerChain.valid_answers); [reflexivity|].
  destruct (AnswerChain.combined_text repr (AnswerChain.flatten_all data)
              (AnswerChain.answer_val repr (AnswerChain.flatten_all data)));
    reflexivity.
Qed.

Lemma confidence_coercion_witness :
  Sample.float_of_str "not-a-number" = None
  /\ (exists v,
        Agent._validate_response Sample.float_of_str Sample.int_of_str
          Sample.repr [("confidence", Py.VStr "not-a-number")] = Py.Ok v
        /\ Agent.confidence v = Py.zero)
  /\ (exists fdata,
        Agent._flatten_value
          (Py.VDict [("covered", Py.VStr "Yes"); ("confidence", Py.VStr "0.7")])
        = Py.VDict fdata
        /\ Agent.validate_confidence Sample.float_of_str fdata
           = Py.Ok (Py.Fin (7 # 10))
        /\ Agent.in_unit_interval (Py.Fin (7 # 10)))
  /\ match AnswerChain.normalised_answer Sample.float_of_str Sample.repr
             [("answer", Py.VStr "Yes"); ("confidence", Py.VNone)] with
     | Py.Ok _ =>
         AnswerChain.normalised_confidence Sample.float_of_str Sample.repr
           [("answer", Py.VStr "Yes"); ("confidence", Py.VNone)]
         = Py.Ok Py.half
     | Py.Raise e =>
         AnswerChain.normalised_confidence Sample.float_of_str Sample.repr
           [("answer", Py.VStr "Yes"); ("confidence", Py.VNone)]
         = Py.Raise e
     end.
Proof.
  destruct (confidence_coercion Sample.float_of_str Sample.int_of_str Sample.repr)
    as (_ & _ & H3 & _ & H5 & H6).
  split; [vm_compute; reflexivity|].
  split; [apply H5; vm_compute; reflexivity|].
  split.
  - apply (H3 [("covered", Py.VStr "Yes"); ("confidence", Py.VStr "0.7")]
              {| Agent.covered := "Yes"; Agent.confidence := Py.Fin (7 # 10);
                 Agent.explanation := ""; Agent.citations := [];
                 Agent.caveats := []; Agent.meta := None |}).
    vm_compute. reflexivity.
  - apply H6. vm_compute. exact I.
Defined.

(** The two outcomes in the answer chain.  With an answer the model gave
    and no usable confidence, 0.5 is stored; with an answer that is none
    of yes, no, partial and a list as explanation, step 7 raises before
    a confidence is settled. *)
Example chain_confidence_sample_run :
  AnswerChain.normalised_confidence Sample.float_of_str Sample.repr
    [("answer", Py.VStr "Yes"); ("confidence", Py.VNone)]
  = Py.Ok Py.half
  /\ AnswerChain.normalised_confidence Sample.float_of_str Sample.repr
       [ ("answer", Py.VStr "maybe");
         ("explanation", Py.VList [Py.VStr "x"]);
         ("confidence", Py.VStr "high") ]
     = Py.Raise Py.AttributeError.
Proof. vm_compute. split; reflexivity. Qed.

(** The answer chain on its own fallback dictionary (built by
    [_parse_response] when the text does not parse): the answer "Unknown"
    is not one of yes, no, partial, so the zero confidence is reset to
    0.5. *)
Example chain_fallback_confidence :
  AnswerChain.normalised_confidence Sample.float_of_str Sample.repr
    [ ("answer", Py.VStr "Unknown");
      ("explanation", Py.VStr "This is not JSON at all");
      ("confidence", Py.VFloat Py.zero);
      ("citations", Py.VList []);
      ("caveats", Py.VList [Py.VStr "LLM response was not valid JSON"]) ]
  = Py.Ok Py.half.
Proof. vm_compute. reflexivity. Qed.

(** C6, as the specification states it, fails in [agent.py]: a citation
    whose file matches no retrieved chunk is not given the quote of the
    top-ranked chunk; it keeps its empty quote and is removed. *)
Lemma backfill_claim_counterexample : ~ Agent.backfill_claim.
Proof.
  intros H.
  specialize (H [Agent.mkCitation "z.pdf" 1 "Scope" ""] [Agent.sample_chunk]
                Agent.sample_question
                (Agent.mkCitation "z.pdf" 1 "Scope" "") Agent.sample_chunk
                (or_introl eq_refl) eq_refl eq_refl eq_refl).
  vm_compute in H. exact H.
Qed.

(** C6, as the code has it.  In [agent._backfill_citations] a citation
    whose quote is blank takes the sentence picked from the first retrieved
    chunk that matches exactly (file name contained in the chunk's file
    name, up to case, and page within the chunk's page range); when that
    leaves the quote blank, from the first chunk that matches by file name
    alone; when no chunk matches by file name it is left as it is: there is
    no last resort.  In [AnswerChain._backfill_citations] a citation whose
    quote is empty or shorter than five characters takes the sentences
    picked from the first chunk whose file name and start page equal the
    citation's, else from the first chunk with the same file name, and,
    the quote being still empty, from the top-ranked chunk.  Both keep
    exactly the citations whose quote is not empty after that (made from
    the top three chunks when there was no citation at all). *)
Theorem backfill_two_tiers :
  forall (chunks : list Retriever.Hit) (question : string),
    (forall citations : list Agent.Citation,
       Forall (fun c => Agent.blank (Agent.quote c) = false)
              (Agent._backfill_citations citations chunks question)
       /\ Agent._backfill_citations citations chunks question
          = filter (fun c => negb (Agent.blank (Agent.quote c)))
              (match citations with
               | [] => map (Agent.citation_of_chunk question) (slice_to 3 chunks)
               | _ => map (Agent.backfill_one chunks question) citations
               end))
    /\ (forall cit chunk,
          Agent.blank (Agent.quote cit) = true ->
          find (Agent.exact_match cit) chunks = Some chunk ->
          Agent.blank (Agent._best_sentence (Retriever.text chunk) question) = false ->
          Agent.backfill_one chunks question cit
          = Agent.set_quote cit
              (Agent._best_sentence (Retriever.text chunk) question))
    /\ (forall cit chunk,
          Agent.blank (Agent.quote cit) = true ->
          (find (Agent.exact_match cit) chunks = None
           \/ exists c1,
               find (Agent.exact_match cit) chunks = Some c1
               /\ Agent.blank (Agent._best_sentence (Retriever.text c1) question)
                  = true) ->
          find (Agent.file_match cit) chunks = Some chunk ->
          Agent.backfill_one chunks question cit
          = Agent.set_quote cit
              (Agent._best_sentence (Retriever.text chunk) question))
    /\ (forall citations cit,
          Agent.blank (Agent.quote cit) = true ->
          find (Agent.file_match cit) chunks = None ->
          Agent.backfill_one chunks question cit = cit
          /\ ~ In cit (Agent._backfill_citations citations chunks question))
    /\ (forall (repr : Py.value -> string),
          (forall citations : list AnswerChain.Citation,
             Forall (fun c => Str.truthy (AnswerChain.quote c) = true)
                    (AnswerChain._backfill_citations repr citations chunks question))
          /\ (forall question_words cit,
                AnswerChain.backfill_one repr chunks question_words cit
                = if AnswerChain.needs_quote cit
                  then AnswerChain.set_quote cit
                         (AnswerChain.tiered_quote repr chunks question_words cit)
                  else cit)).
Proof.
  intros chunks question.
  split.
  { intros citations. split; [apply backfill_all_quoted|].
    destruct citations; reflexivity. }
  split; [intros; now apply backfill_one_exact|].
  split; [intros; now apply backfill_one_file|].
  split.
  { intros citations cit Hb Hf. split; [now apply backfill_one_unmatched|].
    intros Hin.
    pose proof (backfill_all_quoted citations chunks question) as Hall.
    rewrite Forall_forall in Hall. specialize (Hall _ Hin). congruence. }
  intros repr. split.
  - intros citations. apply chain_backfill_all_quoted.
  - intros qw cit. apply backfill_one_tiers.
Qed.

Lemma backfill_two_tiers_witness :
  Agent.backfill_one [Agent.sample_chunk] Agent.sample_question
    (Agent.mkCitation "a.pdf" 3 "" "")
  = Agent.set_quote (Agent.mkCitation "a.pdf" 3 "" "")
      (Agent._best_sentence (Retriever.text Agent.sample_chunk)
         Agent.sample_question)
  /\ Agent.backfill_one [Agent.sample_chunk] Agent.sample_question
       (Agent.mkCitation "A.PDF" 9 "" "")
     = Agent.set_quote (Agent.mkCitation "A.PDF" 9 "" "")
         (Agent._best_sentence (Retriever.text Agent.sample_chunk)
            Agent.sample_question)
  /\ (Agent.backfill_one [Agent.sample_chunk] Agent.sample_question
        (Agent.mkCitation "z.pdf" 1 "Scope" "")
      = Agent.mkCitation "z.pdf" 1 "Scope" ""
      /\ ~ In (Agent.mkCitation "z.pdf" 1 "Scope" "")
              (Agent._backfill_citations
                 [Agent.mkCitation "a.pdf" 3 "" "";
                  Agent.mkCitation "z.pdf" 1 "Scope" ""]
                 [Agent.sample_chunk] Agent.sample_question)).
Proof.
  destruct (backfill_two_tiers [Agent.sample_chunk] Agent.sample_question)
    as (_ & H3 & H4 & H5 & _).
  split; [apply H3; vm_compute; reflexivity|].
  split.
  - apply H4; [vm_compute; reflexivity| |vm_compute; reflexivity].
    left. vm_compute. reflexivity.
  - apply H5; vm_compute; reflexivity.
Defined.

(** The backfill example of the specification: the citation for page 3 of
    a.pdf takes the sentence about the question from the chunk of a.pdf
    that spans pages 1 to 5; the citation that matches no chunk is
    removed. *)
Example backfill_sample_run :
  Agent._backfill_citations
    [Agent.mkCitation "a.pdf" 3 "" ""; Agent.mkCitation "z.pdf" 1 "Scope" ""]
    [Agent.sample_chunk] Agent.sample_question
  = [Agent.mkCitation "a.pdf" 3 ""
       "Knee replacement is included under surgical benefits."].
Proof. vm_compute. reflexivity. Qed.

(** The same situation in the answer chain, with two chunks of a.pdf
    (pages 1 to 2 and pages 3 to 5): a citation for page 4 equals no start
    page, so it is filled from the first chunk of the file, where
    [agent.py] takes the chunk whose page range holds page 4. *)
Example chain_backfill_sample_run :
  let c1 := {| Retriever.chunk_id := "a__chunk_0001";
               Retriever.text := "Room rent is capped at one percent of the sum insured.";
               Retriever.score := 9 # 10;
               Retriever.metadata := Retriever.mkMetadata "a.pdf" 1 2 "Limits" |} in
  let c2 := {| Retriever.chunk_id := "a__chunk_0002";
               Retriever.text := "Dental treatment is excluded unless required after an accident.";
               Retriever.score := 8 # 10;
               Retriever.metadata := Retriever.mkMetadata "a.pdf" 3 5 "Exclusions" |} in
  AnswerChain._backfill_citations Sample.repr
    [AnswerChain.mkCitation "a.pdf" (Py.VInt 4) "" ""] [c1; c2]
    "Is dental treatment covered?"
  = [AnswerChain.mkCitation "a.pdf" (Py.VInt 4) ""
       "Room rent is capped at one percent of the sum insured."]
  /\ Agent._backfill_citations [Agent.mkCitation "a.pdf" 4 "" ""] [c1; c2]
       "Is dental treatment covered?"
     = [Agent.mkCitation "a.pdf" 4 ""
          "Dental treatment is excluded unless required after an accident."].
Proof. vm_compute. split; reflexivity. Qed.

(** C10.  Citation backfill in [agent.py] leaves a citation whose quote is
    not blank as it is (file, page, section and quote), at its place among
    the citations that are kept; and the backfill step of [ask] changes
    only the citations of the validated verdict: covered, confidence,
    explanation and caveats are those [_validate_response] returned. *)
Theorem backfill_frame :
  forall (json_loads : string -> Py.loaded)
         (float_of_str : string -> option Py.float)
         (int_of_str : string -> option Z) (repr : Py.value -> string)
         (model : string) (retrieval : Retriever.Retrieval)
         (chunks : list Retriever.Hit) (question : string)
         (filename_filter : option string),
    (forall cit,
       Agent.blank (Agent.quote cit) = false ->
       Agent.backfill_one chunks question cit = cit)
    /\ (forall l1 cit l2,
          Agent.blank (Agent.quote cit) = false ->
          Agent._backfill_citations (l1 ++ cit :: l2) chunks question
          = filter (fun c => negb (Agent.blank (Agent.quote c)))
              (map (Agent.backfill_one chunks question) l1)
            ++ cit
            :: filter (fun c => negb (Agent.blank (Agent.quote c)))
                 (map (Agent.backfill_one chunks question) l2))
    /\ (forall raw parsed v0,
          Agent._extract_json json_loads raw = Py.Ok (Some parsed) ->
          Agent._validate_response float_of_str int_of_str repr parsed
          = Py.Ok v0 ->
          exists v,
            Agent.normalise json_loads float_of_str int_of_str repr model
              retrieval chunks question filename_filter raw = Py.Ok v
            /\ Agent.covered v = Agent.covered v0
            /\ Agent.confidence v = Agent.confidence v0
            /\ Agent.explanation v = Agent.explanation v0
            /\ Agent.caveats v = Agent.caveats v0
            /\ Agent.citations v
               = Agent._backfill_citations (Agent.citations v0) chunks question).
Proof.
  intros json_loads fos ios repr model retrieval chunks question flt.
  split; [intros; now apply backfill_one_keeps|].
  split; [intros; now apply backfill_keeps_quoted|].
  intros raw parsed v0 Hp Hv. eapply normalise_parsed; eauto.
Qed.

Lemma backfill_frame_witness :
  Agent.backfill_one [Agent.sample_chunk] Agent.sample_question
    (Agent.mkCitation "b.pdf" 7 "Waiting periods" "48 months apply.")
  = Agent.mkCitation "b.pdf" 7 "Waiting periods" "48 months apply."
  /\ Agent._backfill_citations
       ([Agent.mkCitation "a.pdf" 3 "" ""]
        ++ Agent.mkCitation "b.pdf" 7 "Waiting periods" "48 months apply."
        :: [Agent.mkCitation "z.pdf" 1 "Scope" ""])
       [Agent.sample_chunk] Agent.sample_question
     = filter (fun c => negb (Agent.blank (Agent.quote c)))
         (map (Agent.backfill_one [Agent.sample_chunk] Agent.sample_question)
            [Agent.mkCitation "a.pdf" 3 "" ""])
       ++ Agent.mkCitation "b.pdf" 7 "Waiting periods" "48 months apply."
       :: filter (fun c => negb (Agent.blank (Agent.quote c)))
            (map (Agent.backfill_one [Agent.sample_chunk] Agent.sample_question)
               [Agent.mkCitation "z.pdf" 1 "Scope" ""])
  /\ exists v,
       Agent.normalise Sample.loads Sample.float_of_str Sample.int_of_str
         Sample.repr "llama3" Agent.sample_retrieval [Agent.sample_chunk]
         Agent.sample_question None
         Agent.sample_answer_text
       = Py.Ok v
       /\ Agent.covered v = "Partial"
       /\ Agent.confidence v = Py.Fin (85 # 100)
       /\ Agent.explanation v = "Covered with conditions."
       /\ Agent.caveats v = ["30-day wait"]
       /\ Agent.citations v
          = Agent._backfill_citations [Agent.mkCitation "a.pdf" 3 "S1" ""]
              [Agent.sample_chunk] Agent.sample_question.
Proof.
  destruct (backfill_frame Sample.loads Sample.float_of_str
              Sample.int_of_str Sample.repr "llama3" Agent.sample_retrieval
              [Agent.sample_chunk] Agent.sample_question None)
    as (H1 & H2 & H3).
  split; [apply H1; vm_compute; reflexivity|].
  split; [apply H2; vm_compute; reflexivity|].
  apply (H3 _
           [("covered", Py.VStr "Partial");
            ("confidence", Py.VFloat (Py.Fin (85 # 100)));
            ("explanation", Py.VStr "Covered with conditions.");
            ("citations",
             Py.VList [Py.VDict [("file", Py.VStr "a.pdf"); ("page", Py.VInt 3);
                                 ("section", Py.VStr "S1"); ("quote", Py.VStr "")]]);
            ("caveats", Py.VList [Py.VStr "30-day wait"])]
           {| Agent.covered := "Partial";
              Agent.confidence := Py.Fin (85 # 100);
              Agent.explanation := "Covered with conditions.";
              Agent.citations := [Agent.mkCitation "a.pdf" 3 "S1" ""];
              Agent.caveats := ["30-day wait"];
              Agent.meta := None |});
    vm_compute; reflexivity.
Defined.

(* ================================================================== *)
(** * Further properties of the segmenter *)
(* ================================================================== *)

Section ChunkCoverage.

Variable encode_len : string -> nat.
Variable path_stem : string -> string.
Variable pages : list PageText.
Variable sections : list Section_.
Variable fname : string.
Variable target_tokens overlap_tokens : Z.
Variable sentences : list string.

Local Abbreviation n := (len sentences).
Local Abbreviation step' :=
  (chunk_step encode_len path_stem pages sections fname
     target_tokens overlap_tokens sentences).
Local Abbreviation loop' :=
  (chunk_loop encode_len path_stem pages sections fname
     target_tokens overlap_tokens sentences).
Local Abbreviation ok :=
  (step_ok encode_len target_tokens overlap_tokens sentences).
Local Abbreviation chain' :=
  (chain encode_len target_tokens overlap_tokens sentences).
Local Abbreviation build' :=
  (build_chunk path_stem pages sections fname sentences).

Lemma step_ok_next_le_end i st : ok i st -> next_cursor st <= end_sent_idx st.
Proof.
  intros (_ & H1 & H2 & _ & _ & _ & _ & H3 & H4).
  destruct (Z_lt_ge_dec (end_sent_idx st) n) as [L|L].
  - specialize (H3 L). lia.
  - rewrite H4; lia.
Qed.

(** Every sentence from the cursor on falls in the range of some step. *)
Lemma chain_covers i steps :
  chain' i steps -> 0 <= i ->
  forall j, i <= j < n ->
    Exists (fun st => start_sent_idx st <= j < end_sent_idx st) steps.
Proof.
  induction 1 as [i Hn|i st rest Hi Hok Hc IH]; intros H0 j Hj; [lia|].
  pose proof (step_ok_progress _ _ _ _ _ _ Hok) as [Hp1 Hp2].
  pose proof (step_ok_next_le_end _ _ Hok) as Hne.
  destruct Hok as (Hs & H1 & _).
  destruct (Z_lt_ge_dec j (end_sent_idx st)) as [L|L].
  - apply Exists_cons_hd. lia.
  - apply Exists_cons_tl. apply IH; lia.
Qed.

Lemma chain_first i steps :
  chain' i steps ->
  option_map start_sent_idx (hd_error steps)
  = if i <? n then Some i else None.
Proof.
  destruct 1 as [i Hn|i st rest Hi Hok Hc]; simpl.
  - replace (i <? n) with false by (symmetry; apply Z.ltb_ge; lia). reflexivity.
  - replace (i <? n) with true by (symmetry; apply Z.ltb_lt; lia).
    destruct Hok as (Hs & _). now rewrite Hs.
Qed.

Lemma chain_last i steps :
  chain' i steps ->
  Forall (fun st => end_sent_idx st = n) (firstn 1 (rev steps)).
Proof.
  induction 1 as [i Hn|i st rest Hi Hok Hc IH]; [constructor|].
  change (rev (st :: rest)) with (rev rest ++ [st]).
  destruct rest as [|st' rest'].
  - simpl. constructor; [|constructor].
    inversion Hc; subst.
    pose proof (step_ok_next_le_end _ _ Hok) as Hne.
    destruct Hok as (_ & _ & H2 & _). lia.
  - remember (st' :: rest') as r eqn:Er.
    assert (Hlen : (1 <= List.length (rev r))%nat).
    { rewrite length_rev, Er. simpl. lia. }
    rewrite firstn_app.
    replace (1 - List.length (rev r))%nat with 0%nat by lia.
    simpl. rewrite app_nil_r. exact IH.
Qed.

Lemma chain_length i steps :
  chain' i steps -> 0 <= i -> len steps <= Z.max 0 (n - i).
Proof.
  induction 1 as [i Hn|i st rest Hi Hok Hc IH]; intros H0; unfold len in *;
    simpl List.length; [lia|].
  pose proof (step_ok_progress _ _ _ _ _ _ Hok) as [Hp1 Hp2].
  assert (0 <= next_cursor st) by lia. specialize (IH H). lia.
Qed.

Lemma chain_starts i steps :
  chain' i steps -> Forall (fun st => 0 <= start_sent_idx st < n) steps.
Proof.
  induction 1 as [i Hn|i st rest Hi Hok Hc IH]; constructor; auto.
  destruct Hok as (Hs & _). now rewrite Hs.
Qed.

(** The chunk a pass of the body emits. *)
Lemma chunk_step_emitted i idx st :
  step' i idx = Some st ->
  start_sent_idx st = i
  /\ exists chunk_sents chunk_tok_count,
       emitted st = build' i chunk_sents chunk_tok_count (idx + 1).
Proof.
  unfold chunk_step.
  destruct (accumulate encode_len target_tokens sentences
              (List.length sentences) i [] 0) as [[i1 cs1] tok1].
  destruct (is_empty cs1 && (i1 <? n)).
  - destruct (is_empty (cs1 ++ [item "" sentences i1])); [discriminate|].
    intros H. inversion H; subst; simpl. split; [reflexivity|]. eauto.
  - destruct (is_empty cs1); [discriminate|].
    intros H. inversion H; subst; simpl. split; [reflexivity|]. eauto.
Qed.

Lemma chunk_loop_numbered fuel : forall i idx steps,
  loop' fuel i idx = Some steps ->
  numbered
    (fun k st =>
       exists chunk_sents chunk_tok_count,
         emitted st = build' (start_sent_idx st) chunk_sents chunk_tok_count k)
    (idx + 1) steps.
Proof.
  induction fuel as [|fuel IH]; intros i idx steps H; [discriminate|].
  simpl in H. destruct (i <? n); [|inversion H; exact I].
  destruct (step' i idx) as [st|] eqn:Est; [|inversion H; exact I].
  destruct (loop' fuel (next_cursor st) (idx + 1)) as [rest|] eqn:Er;
    [|discriminate].
  simpl in H. inversion H; subst. simpl. split.
  - apply chunk_step_emitted in Est. destruct Est as [Hs [cs [tok He]]].
    exists cs, tok. now rewrite Hs.
  - apply (IH _ _ _ Er).
Qed.

End ChunkCoverage.

Lemma numbered_impl {A : Type} (P Q : Z -> A -> Prop) (l : list A) : forall k,
  (forall j x, P j x -> Q j x) -> numbered P k l -> numbered Q k l.
Proof.
  induction l as [|x r IH]; intros k HPQ; simpl; [auto|].
  intros [H1 H2]. split; auto.
Qed.

Lemma numbered_Forall {A : Type} (P : Z -> A -> Prop) (Q : A -> Prop)
    (l : list A) : forall k,
  (forall j x, P j x -> Q x) -> numbered P k l -> Forall Q l.
Proof.
  induction l as [|x r IH]; intros k HPQ; simpl; [constructor|].
  intros [H1 H2]. constructor; eauto.
Qed.

Lemma split_sentences_nonempty re_split text :
  _split_sentences re_split text <> [].
Proof.
  unfold _split_sentences.
  destruct (filter _ (re_split text)); [|discriminate].
  destruct (filter _ (Str.split_char Str.newline text)); discriminate.
Qed.

(** X1.  No sentence is left out: the run on a sentence list returns
    chunks whose sentence ranges cover every index, the first chunk
    starting at the first sentence and the last one ending at the last;
    each chunk's text is its sentences joined by single spaces. *)
Theorem every_sentence_in_a_chunk :
  forall (encode_len : string -> nat) (path_stem : string -> string)
         (pages : list PageText) (sections : list Section_) (fname : string)
         (target_tokens overlap_tokens : Z)
         (sentences : list string) (extra : nat),
    exists steps,
      chunk_loop encode_len path_stem pages sections fname target_tokens
        overlap_tokens sentences (S (List.length sentences) + extra) 0 0
      = Some steps
      /\ Forall (fun i =>
                   Exists (fun st => start_sent_idx st <= i < end_sent_idx st)
                          steps)
                (zrange 0 (len sentences))
      /\ Forall (covers encode_len sentences) steps
      /\ option_map start_sent_idx (hd_error steps)
         = (if is_empty sentences then None else Some 0)
      /\ Forall (fun st => end_sent_idx st = len sentences)
                (firstn 1 (rev steps)).
Proof.
  intros encode_len path_stem pages sections fname target overlap
         sentences extra.
  destruct (chunk_loop_total encode_len path_stem pages sections fname
              target overlap sentences extra) as [steps [Hs Hc]].
  exists steps. split; [exact Hs|]. split.
  { apply Forall_forall. intros i Hi. unfold zrange in Hi.
    apply in_map_iff in Hi. destruct Hi as [k [<- Hk]]. apply in_seq in Hk.
    eapply chain_covers; [exact Hc|lia|]. unfold len in *. lia. }
  split.
  { eapply Forall_impl; [|eapply chain_budget; exact Hc].
    intros st [H _]. exact H. }
  split.
  - rewrite (chain_first _ _ _ _ _ _ Hc).
    destruct sentences; reflexivity.
  - eapply chain_last; eauto.
Qed.

(** X2.  There are at most as many chunks as sentences, and the chunks
    come in document order: from one chunk to the next the starting
    sentence and the starting character offset strictly increase. *)
Theorem chunks_in_document_order :
  forall (encode_len : string -> nat) (path_stem : string -> string)
         (pages : list PageText) (sections : list Section_) (fname : string)
         (target_tokens overlap_tokens : Z)
         (sentences : list string) (extra : nat),
    exists steps,
      chunk_loop encode_len path_stem pages sections fname target_tokens
        overlap_tokens sentences (S (List.length sentences) + extra) 0 0
      = Some steps
      /\ len steps <= len sentences
      /\ adjacent_pairs
           (fun a b =>
              start_sent_idx a < start_sent_idx b
              /\ char_start (emitted a) < char_start (emitted b))
           steps.
Proof.
  intros encode_len path_stem pages sections fname target overlap
         sentences extra.
  destruct (chunk_loop_total encode_len path_stem pages sections fname
              target overlap sentences extra) as [steps [Hs Hc]].
  exists steps. split; [exact Hs|]. split.
  { pose proof (chain_length _ _ _ _ _ _ Hc). unfold len in *. lia. }
  pose proof (chunk_loop_numbered _ _ _ _ _ _ _ _ _ _ _ _ Hs) as Hnum.
  assert (Hem : Forall
                  (fun st =>
                     char_start (emitted st)
                     = zsum (map (fun j => Str.slen (item "" sentences j) + 1)
                                 (zrange 0 (start_sent_idx st)))) steps).
  { eapply numbered_Forall in Hnum.
    - exact Hnum.
    - intros j st [cs [tok He]]. rewrite He. reflexivity. }
  clear Hnum.
  pose proof (chain_overlap _ _ _ _ _ _ Hc) as Hov.
  pose proof (chain_starts _ _ _ _ _ _ Hc) as Hst.
  revert Hem Hov Hst. clear. induction steps as [|a rest IH]; simpl; [auto|].
  intros Hem [Hab Hov] Hst. inversion Hem as [|? ? Ha Hrest]; subst.
  inversion Hst as [|? ? Ha0 Hst']; subst.
  split; [|apply IH; assumption].
  destruct rest as [|b rest']; [exact I|].
  inversion Hrest as [|? ? Hb _]; subst.
  destruct Hab as (_ & _ & Hlt & _).
  split; [exact Hlt|].
  rewrite Ha, Hb.
  rewrite (zrange_app 0 (start_sent_idx a) (start_sent_idx b)) by lia.
  rewrite map_app, zsum_app.
  set (f := fun j => Str.slen (item "" sentences j) + 1).
  assert (Hf : forall l, 0 <= zsum (map f l)).
  { intros l. apply zsum_nonneg, Forall_forall. intros x Hx.
    apply in_map_iff in Hx. destruct Hx as [j [<- _]].
    unfold f, Str.slen. lia. }
  assert (0 < zsum (map f (zrange (start_sent_idx a) (start_sent_idx b)))).
  { rewrite zrange_cons by lia.
    change (zsum (map f (start_sent_idx a :: ?l)))
      with (f (start_sent_idx a) + zsum (map f l)).
    specialize (Hf (zrange (start_sent_idx a + 1) (start_sent_idx b))).
    assert (0 < f (start_sent_idx a)) by (unfold f, Str.slen; lia).
    lia. }
  lia.
Qed.

(* ================================================================== *)
(** * Further properties of [chunk_document] *)
(* ================================================================== *)

Section StringFacts.

Lemma chars_app a b : Str.chars (a ++ b) = Str.chars a ++ Str.chars b.
Proof.
  unfold Str.chars. induction a as [|c a IH]; simpl; [reflexivity|].
  now rewrite IH.
Qed.

Lemma of_chars_truthy l :
  Str.truthy (Str.of_chars l) = negb (is_empty l).
Proof. destruct l; reflexivity. Qed.

Lemma lstrip_chars_empty l :
  is_empty (Str.lstrip_chars l) = forallb Str.is_space l.
Proof.
  induction l as [|c r IH]; simpl; [reflexivity|].
  destruct (Str.is_space c); simpl; [exact IH|reflexivity].
Qed.

Lemma lstrip_chars_fix l :
  forallb Str.is_space (Str.lstrip_chars l) = forallb Str.is_space l.
Proof.
  induction l as [|c r IH]; simpl; [reflexivity|].
  destruct (Str.is_space c) eqn:E; simpl; [exact IH|].
  now rewrite E.
Qed.

Lemma forallb_rev {A : Type} (p : A -> bool) l :
  forallb p (rev l) = forallb p l.
Proof.
  induction l as [|x r IH]; simpl; [reflexivity|].
  rewrite forallb_app, IH. simpl. rewrite andb_true_r. apply andb_comm.
Qed.

Lemma is_empty_rev {A : Type} (l : list A) : is_empty (rev l) = is_empty l.
Proof.
  destruct l as [|x r]; [reflexivity|]. simpl.
  destruct (rev r); reflexivity.
Qed.

(** [s.strip()] is non-empty exactly when [s] has a character that is
    not white space. *)
Lemma strip_truthy s :
  Str.truthy (Str.strip s) = negb (forallb Str.is_space (Str.chars s)).
Proof.
  unfold Str.strip, Str.rstrip_chars.
  rewrite of_chars_truthy, is_empty_rev, lstrip_chars_empty, forallb_rev.
  now rewrite lstrip_chars_fix.
Qed.

Lemma join_first_nonblank sep p rest :
  Str.truthy (Str.strip p) = true ->
  Str.truthy (Str.strip (Str.join sep (p :: rest))) = true.
Proof.
  rewrite !strip_truthy. intros H.
  destruct rest as [|q rest]; [exact H|].
  change (Str.join sep (p :: q :: rest))
    with (p ++ sep ++ Str.join sep (q :: rest))%string.
  rewrite chars_app, forallb_app.
  destruct (forallb Str.is_space (Str.chars p)); [discriminate|reflexivity].
Qed.

Lemma string_app_inj_l (p a b : string) :
  (p ++ a)%string = (p ++ b)%string -> a = b.
Proof.
  induction p as [|c p IH]; simpl; [auto|]. intros H. inversion H. auto.
Qed.

(** Reading the digits of [format_04d n] gives [n] back. *)
Lemma uint_of_zeros pad s :
  NilEmpty.uint_of_string (Str.of_chars (repeat "0"%char pad) ++ s)
  = option_map (fun d => Nat.iter pad Decimal.D0 d) (NilEmpty.uint_of_string s).
Proof.
  induction pad as [|pad IH].
  - simpl. destruct (NilEmpty.uint_of_string s); reflexivity.
  - change (Str.of_chars (repeat "0"%char (S pad)) ++ s)%string
      with (String "0"%char (Str.of_chars (repeat "0"%char pad) ++ s)).
    change (NilEmpty.uint_of_string (String "0"%char ?t))
      with (uint_of_char "0"%char (NilEmpty.uint_of_string t)).
    rewrite IH. destruct (NilEmpty.uint_of_string s); reflexivity.
Qed.

Lemma of_uint_zeros pad d :
  N.of_uint (Nat.iter pad Decimal.D0 d) = N.of_uint d.
Proof.
  induction pad as [|pad IH]; [reflexivity|]. simpl Nat.iter.
  rewrite <- IH. reflexivity.
Qed.

Lemma string_of_to_uint n :
  NilZero.string_of_uint (N.to_uint n) = NilEmpty.string_of_uint (N.to_uint n).
Proof.
  destruct n as [|p]; [reflexivity|]. simpl.
  pose proof (DecimalPos.Unsigned.to_uint_nonnil p) as H.
  destruct (Pos.to_uint p); [congruence|reflexivity..].
Qed.

Lemma format_04d_read n :
  0 <= n ->
  option_map (fun d => Z.of_N (N.of_uint d))
             (NilEmpty.uint_of_string (format_04d n)) = Some n.
Proof.
  intros H. unfold format_04d.
  rewrite uint_of_zeros, string_of_to_uint, NilEmpty.usu. simpl.
  rewrite of_uint_zeros, DecimalN.Unsigned.of_to. f_equal. lia.
Qed.

Lemma format_04d_inj a b :
  0 <= a -> 0 <= b -> format_04d a = format_04d b -> a = b.
Proof.
  intros Ha Hb E. pose proof (format_04d_read a Ha) as Ra.
  rewrite E, (format_04d_read b Hb) in Ra. congruence.
Qed.

End StringFacts.

Section ScanFacts.

Lemma scan_until_In {A : Type} offset (entries : list (A * Z)) : forall r,
  In (scan_until offset r entries) (r :: map fst entries).
Proof.
  induction entries as [|[v s] rest IH]; intros r; simpl; [auto|].
  destruct (offset <? s); [auto|].
  destruct (IH v) as [H|H]; [right; left; exact H|right; right; exact H].
Qed.

(** Before the first start the initial value stays. *)
Lemma scan_until_before {A : Type} offset (r v : A) s rest :
  offset < s -> scan_until offset r ((v, s) :: rest) = r.
Proof. intros H. simpl. apply Z.ltb_lt in H. now rewrite H. Qed.

Lemma scan_until_ge offset (entries : list (Z * Z)) : forall r,
  StronglySorted Z.le (r :: map fst entries) ->
  r <= scan_until offset r entries.
Proof.
  intros r H. inversion H as [|? ? _ Hall]; subst.
  destruct (scan_until_In offset entries r) as [E|E]; [lia|].
  rewrite Forall_forall in Hall. auto.
Qed.

(** With values in non-decreasing order the scan is monotone in the
    offset. *)
Lemma scan_until_mono o1 o2 (entries : list (Z * Z)) : forall r,
  StronglySorted Z.le (r :: map fst entries) -> o1 <= o2 ->
  scan_until o1 r entries <= scan_until o2 r entries.
Proof.
  induction entries as [|[v s] rest IH]; intros r Hs Ho; simpl; [lia|].
  simpl in Hs. inversion Hs as [|? ? Hrest Hall]; subst.
  destruct (o2 <? s) eqn:E2.
  - apply Z.ltb_lt in E2.
    replace (o1 <? s) with true by (symmetry; apply Z.ltb_lt; lia). lia.
  - destruct (o1 <? s) eqn:E1.
    + pose proof (scan_until_ge o2 rest v Hrest).
      inversion Hall; subst. lia.
    + apply IH; assumption.
Qed.

Lemma build_page_map_numbers pages : forall offset,
  map fst (build_page_map_from offset pages) = map pt_page_number pages.
Proof.
  induction pages as [|p rest IH]; intros offset; simpl; [reflexivity|].
  now rewrite IH.
Qed.

Lemma page_for_offset_In pages offset :
  pages <> [] ->
  In (_page_for_offset (_build_page_map pages) offset)
     (map pt_page_number pages).
Proof.
  intros Hne. destruct pages as [|p rest]; [congruence|].
  unfold _build_page_map, _page_for_offset.
  remember (build_page_map_from 0 (p :: rest)) as m eqn:Em.
  pose proof (build_page_map_numbers (p :: rest) 0) as Hm. rewrite <- Em in Hm.
  destruct m as [|[p0 o0] m']; [discriminate|].
  destruct (scan_until_In offset ((p0, o0) :: m') p0) as [H|H].
  - rewrite <- H, <- Hm. left. reflexivity.
  - rewrite <- Hm. exact H.
Qed.

Lemma page_for_offset_mono pages o1 o2 :
  StronglySorted Z.le (map pt_page_number pages) -> o1 <= o2 ->
  _page_for_offset (_build_page_map pages) o1
  <= _page_for_offset (_build_page_map pages) o2.
Proof.
  intros Hs Ho. unfold _build_page_map, _page_for_offset.
  pose proof (build_page_map_numbers pages 0) as Hm.
  destruct (build_page_map_from 0 pages) as [|[p0 o0] m']; [lia|].
  apply scan_until_mono; [|exact Ho].
  rewrite <- Hm in Hs. simpl in *. constructor; [exact Hs|].
  inversion Hs; subst. constructor; [lia|assumption].
Qed.

(** An offset within the span of a page is mapped to that page. *)
Lemma scan_page_span pre p post off : forall offset r,
  Forall (fun q => 0 <= char_count q) (pre ++ p :: post) ->
  offset + zsum (map (fun q => char_count q + 1) pre) <= off ->
  off <= offset + zsum (map (fun q => char_count q + 1) pre) + char_count p ->
  scan_until off r (build_page_map_from offset (pre ++ p :: post))
  = pt_page_number p.
Proof.
  induction pre as [|q pre IH]; intros offset r Hall Hlo Hhi; simpl in *.
  - replace (off <? offset) with false by (symmetry; apply Z.ltb_ge; lia).
    destruct post as [|p' post]; simpl; [reflexivity|].
    replace (off <? offset + char_count p + 1) with true
      by (symmetry; apply Z.ltb_lt; lia).
    reflexivity.
  - inversion Hall as [|? ? Hq Hall']; subst.
    assert (0 <= zsum (map (fun q => char_count q + 1) pre)).
    { apply zsum_nonneg, Forall_forall. intros x Hx.
      apply in_map_iff in Hx. destruct Hx as [y [<- Hy]].
      rewrite Forall_forall in Hall'.
      assert (0 <= char_count y) by (apply Hall', in_or_app; auto). lia. }
    replace (off <? offset) with false by (symmetry; apply Z.ltb_ge; lia).
    apply IH; [exact Hall'|lia|lia].
Qed.

Lemma section_for_offset_In sections pages page_map offset :
  In (_section_for_offset sections pages page_map offset)
     ("Unknown" :: map title sections).
Proof.
  unfold _section_for_offset. destruct sections as [|s0 rest]; [left; auto|].
  right.
  set (entries := map (fun sec => (title sec, section_offset pages page_map sec))
                      (s0 :: rest)).
  assert (Hm : map fst entries = map title (s0 :: rest)).
  { unfold entries. rewrite map_map. reflexivity. }
  destruct (scan_until_In offset entries (title s0)) as [H|H].
  - rewrite <- H. left. reflexivity.
  - rewrite <- Hm. exact H.
Qed.

End ScanFacts.

Section ListFacts.

Lemma numbered_map {A B : Type} (f : A -> B) (P : Z -> B -> Prop) l : forall k,
  numbered P k (map f l) <-> numbered (fun j x => P j (f x)) k l.
Proof.
  induction l as [|x r IH]; intros k; simpl; [tauto|].
  rewrite IH. tauto.
Qed.

Lemma numbered_ids {A : Type} (f : Z -> string) (g : A -> string) l : forall k,
  numbered (fun j x => g x = f j) k l ->
  map g l = map f (zrange k (k + len l)).
Proof.
  induction l as [|x r IH]; intros k; simpl.
  - intros _. rewrite zrange_nil by (unfold len; simpl; lia). reflexivity.
  - intros [H1 H2]. rewrite zrange_cons by (unfold len; simpl; lia).
    simpl. rewrite H1. f_equal. rewrite (IH _ H2). f_equal. f_equal.
    unfold len. simpl List.length. lia.
Qed.

Lemma NoDup_map_inj_on {A B : Type} (f : A -> B) (l : list A) :
  (forall a b, In a l -> In b l -> f a = f b -> a = b) ->
  NoDup l -> NoDup (map f l).
Proof.
  induction l as [|x r IH]; intros Hinj Hnd; simpl; [constructor|].
  inversion Hnd as [|? ? Hnot Hnd']; subst. constructor.
  - intros Hin. apply in_map_iff in Hin. destruct Hin as [y [Hy Hin]].
    assert (y = x) by (apply Hinj; simpl; auto). subst. contradiction.
  - apply IH; [|exact Hnd']. intros a b Ha Hb. apply Hinj; simpl; auto.
Qed.

Lemma zrange_NoDup lo hi : NoDup (zrange lo hi).
Proof.
  unfold zrange. apply NoDup_map_inj_on.
  - intros a b _ _ H. lia.
  - apply seq_NoDup.
Qed.

Lemma zrange_In lo hi x : In x (zrange lo hi) -> lo <= x < hi.
Proof.
  unfold zrange. intros H. apply in_map_iff in H.
  destruct H as [k [<- Hk]]. apply in_seq in Hk. lia.
Qed.

End ListFacts.

Section DocumentFacts.

Variable encode_len : string -> nat.
Variable path_stem : string -> string.
Variable re_split : string -> list string.
Variable pages : list PageText.
Variable sections : list Section_.
Variable fname : string.
Variable target_tokens overlap_tokens : Z.

Local Abbreviation sentences := (_split_sentences re_split (full_text pages)).
Local Abbreviation blank := (negb (Str.truthy (Str.strip (full_text pages)))).

Lemma split_sentences_nonblank text :
  Str.truthy (Str.strip text) = true ->
  Forall (fun p => Str.truthy (Str.strip p) = true)
         (_split_sentences re_split text).
Proof.
  intros Ht. unfold _split_sentences.
  set (keep := fun p => Str.truthy (Str.strip p)).
  assert (Hf : forall l, Forall (fun p => keep p = true) (filter keep l)).
  { intros l. apply Forall_forall. intros x Hx.
    apply filter_In in Hx. exact (proj2 Hx). }
  destruct (filter keep (re_split text)) as [|a r] eqn:E1.
  - destruct (filter keep (Str.split_char Str.newline text)) as [|b r'] eqn:E2.
    + constructor; [exact Ht|constructor].
    + rewrite <- E2. apply Hf.
  - rewrite <- E1. apply Hf.
Qed.

(** The run of [chunk_document]: nothing on a blank document, else the
    steps of the loop over the sentences. *)
Lemma chunk_document_run extra :
  exists steps,
    chunk_document_steps encode_len path_stem re_split
      (S (List.length sentences) + extra) pages sections fname
      target_tokens overlap_tokens = Some steps
    /\ ((blank = true /\ steps = [])
        \/ (blank = false
            /\ pages <> []
            /\ chunk_loop encode_len path_stem pages sections fname
                 target_tokens overlap_tokens sentences
                 (S (List.length sentences) + extra) 0 0 = Some steps
            /\ chain encode_len target_tokens overlap_tokens sentences
                 0 steps)).
Proof.
  unfold chunk_document_steps.
  destruct blank eqn:Eb.
  - exists []. split; [reflexivity|]. left. auto.
  - destruct (chunk_loop_total encode_len path_stem pages sections fname
                target_tokens overlap_tokens sentences extra)
      as [steps [Hs Hc]].
    exists steps. split; [exact Hs|]. right.
    split; [reflexivity|]. split; [|split; assumption].
    intros ->. discriminate.
Qed.

Lemma chain_nonempty sents steps :
  chain encode_len target_tokens overlap_tokens sents 0 steps ->
  sents <> [] -> steps <> [].
Proof.
  intros Hc Hne. inversion Hc; subst; [|discriminate].
  destruct sents; [congruence|]. unfold len in *. simpl in *. lia.
Qed.

End DocumentFacts.

(** X3.  A document whose text is blank gives no chunk, any other gives
    at least one, and no chunk is blank. *)
Theorem chunks_exist_unless_blank :
  forall (encode_len : string -> nat) (path_stem : string -> string)
         (re_split : string -> list string)
         (pages : list PageText) (sections : list Section_) (fname : string)
         (target_tokens overlap_tokens : Z) (extra : nat),
    exists chunks,
      chunk_document encode_len path_stem re_split
        (S (List.length (_split_sentences re_split (full_text pages))) + extra)
        pages sections fname target_tokens overlap_tokens = Some chunks
      /\ is_empty chunks = negb (Str.truthy (Str.strip (full_text pages)))
      /\ Forall (fun c => Str.truthy (Str.strip (text c)) = true) chunks.
Proof.
  intros encode_len path_stem re_split pages sections fname target overlap
         extra.
  destruct (chunk_document_run encode_len path_stem re_split pages sections
              fname target overlap extra) as [steps [Hs Hcase]].
  exists (map emitted steps). unfold chunk_document. rewrite Hs.
  split; [reflexivity|].
  destruct Hcase as [[Hb ->]|(Hb & _ & _ & Hc)].
  - rewrite Hb. split; [reflexivity|constructor].
  - rewrite Hb. split.
    + pose proof (chain_nonempty _ _ _ _ _ Hc
                    (split_sentences_nonempty re_split (full_text pages))).
      destruct steps; [congruence|reflexivity].
    + apply negb_false_iff in Hb.
      pose proof (split_sentences_nonblank re_split _ Hb) as Hnb.
      pose proof (chain_budget _ _ _ _ _ _ Hc) as Hcov.
      pose proof (chain_starts _ _ _ _ _ _ Hc) as Hst.
      pose proof (chain_progress _ _ _ _ _ _ Hc) as Hpr.
      apply Forall_map. rewrite Forall_forall in *. intros st Hin.
      destruct (Hcov st Hin) as [[Ht _] _]. rewrite Ht.
      specialize (Hst st Hin). destruct (Hpr st Hin) as [Hp1 Hp2].
      unfold sent_range. rewrite zrange_cons by lia. simpl map.
      apply join_first_nonblank, Hnb, item_In. exact Hst.
Qed.

(** X4.  Chunks are numbered from 1 in the order they are produced, carry
    the file name they were cut from, and no two chunks of a document
    have the same identifier. *)
Theorem chunk_ids_distinct :
  forall (encode_len : string -> nat) (path_stem : string -> string)
         (re_split : string -> list string)
         (pages : list PageText) (sections : list Section_) (fname : string)
         (target_tokens overlap_tokens : Z) (extra : nat),
    exists chunks,
      chunk_document encode_len path_stem re_split
        (S (List.length (_split_sentences re_split (full_text pages))) + extra)
        pages sections fname target_tokens overlap_tokens = Some chunks
      /\ numbered
           (fun k c =>
              chunk_id c
              = (path_stem fname ++ "__chunk_" ++ format_04d k)%string
              /\ filename c = fname)
           1 chunks
      /\ NoDup (map chunk_id chunks).
Proof.
  intros encode_len path_stem re_split pages sections fname target overlap
         extra.
  destruct (chunk_document_run encode_len path_stem re_split pages sections
              fname target overlap extra) as [steps [Hs Hcase]].
  exists (map emitted steps). unfold chunk_document. rewrite Hs.
  split; [reflexivity|].
  assert (Hnum : numbered
            (fun k c =>
               chunk_id c
               = (path_stem fname ++ "__chunk_" ++ format_04d k)%string
               /\ filename c = fname)
            1 (map emitted steps)).
  { destruct Hcase as [[_ ->]|(_ & _ & Hl & _)]; [exact I|].
    apply chunk_loop_numbered in Hl. change (0 + 1) with 1 in Hl.
    apply (proj2 (numbered_map emitted _ steps 1)).
    eapply numbered_impl; [|exact Hl].
    intros j st [cs [tok He]]. simpl. rewrite He. split; reflexivity. }
  split; [exact Hnum|].
  eapply numbered_impl in Hnum; [|intros j x [H _]; exact H].
  rewrite (numbered_ids
             (fun k => (path_stem fname ++ "__chunk_" ++ format_04d k)%string)
             chunk_id _ _ Hnum).
  apply NoDup_map_inj_on; [|apply zrange_NoDup].
  intros a b Ha Hb E. apply zrange_In in Ha, Hb.
  apply string_app_inj_l, string_app_inj_l in E.
  apply format_04d_inj; [lia|lia|exact E].
Qed.

(** X5.  Every chunk lies on pages of the document: its first and last
    page numbers are page numbers of the document, found from character
    offsets with the start not after the end; its section title is the
    title of one of the detected sections, or [Unknown] when none was
    detected. *)
Theorem chunk_provenance :
  forall (encode_len : string -> nat) (path_stem : string -> string)
         (re_split : string -> list string)
         (pages : list PageText) (sections : list Section_) (fname : string)
         (target_tokens overlap_tokens : Z) (extra : nat),
    exists chunks,
      chunk_document encode_len path_stem re_split
        (S (List.length (_split_sentences re_split (full_text pages))) + extra)
        pages sections fname target_tokens overlap_tokens = Some chunks
      /\ Forall
           (fun c =>
              In (page_number c) (map pt_page_number pages)
              /\ In (page_end c) (map pt_page_number pages)
              /\ 0 <= char_start c
              /\ char_end c = char_start c + Str.slen (text c)
              /\ page_number c
                 = _page_for_offset (_build_page_map pages) (char_start c)
              /\ page_end c
                 = _page_for_offset (_build_page_map pages) (char_end c)
              /\ (if is_empty sections
                  then section_title c = "Unknown"
                  else In (section_title c) (map title sections)))
           chunks.
Proof.
  intros encode_len path_stem re_split pages sections fname target overlap
         extra.
  destruct (chunk_document_run encode_len path_stem re_split pages sections
              fname target overlap extra) as [steps [Hs Hcase]].
  exists (map emitted steps). unfold chunk_document. rewrite Hs.
  split; [reflexivity|].
  destruct Hcase as [[_ ->]|(_ & Hne & Hl & _)]; [constructor|].
  apply chunk_loop_numbered in Hl. apply Forall_map.
  eapply numbered_Forall; [|exact Hl].
  intros j st [cs [tok He]]. simpl. rewrite He. simpl.
  split; [apply page_for_offset_In; exact Hne|].
  split; [apply page_for_offset_In; exact Hne|].
  split.
  { apply zsum_nonneg, Forall_forall. intros x Hx.
    apply in_map_iff in Hx. destruct Hx as [y [<- _]]. unfold Str.slen. lia. }
  split; [reflexivity|]. split; [reflexivity|]. split; [reflexivity|].
  pose proof (section_for_offset_In sections pages (_build_page_map pages)
                (zsum (map (fun j0 => Str.slen (item "" (_split_sentences re_split (full_text pages)) j0) + 1)
                           (zrange 0 (start_sent_idx st))))) as Hin.
  destruct sections as [|s0 rest]; [reflexivity|].
  simpl is_empty. cbv iota.
  unfold _section_for_offset in *.
  set (entries := map (fun sec => (title sec, section_offset pages (_build_page_map pages) sec))
                      (s0 :: rest)).
  assert (Hm : map fst entries = map title (s0 :: rest)).
  { unfold entries. rewrite map_map. reflexivity. }
  match goal with |- In (scan_until ?o _ _) _ =>
    destruct (scan_until_In o entries (title s0)) as [H|H] end.
  - rewrite <- H. left. reflexivity.
  - rewrite <- Hm. exact H.
Qed.

(* ================================================================== *)
(** * Properties of pages, section headers and [parse_pdf] *)
(* ================================================================== *)

Section PageFacts.

Lemma take_length n : forall s,
  String.length (Str.take n s) = Nat.min n (String.length s).
Proof.
  unfold Str.take. induction n as [|n IH]; intros s.
  - destruct s; reflexivity.
  - destruct s as [|c s]; [reflexivity|]. simpl. now rewrite IH.
Qed.

Lemma page_for_offset_span pre p post off :
  Forall (fun q => 0 <= char_count q) (pre ++ p :: post) ->
  zsum (map (fun q => char_count q + 1) pre) <= off ->
  off <= zsum (map (fun q => char_count q + 1) pre) + char_count p ->
  _page_for_offset (_build_page_map (pre ++ p :: post)) off = pt_page_number p.
Proof.
  intros Hall Hlo Hhi. unfold _build_page_map, _page_for_offset.
  destruct (build_page_map_from 0 (pre ++ p :: post)) as [|[p0 o0] m'] eqn:Em.
  - apply (f_equal (map fst)) in Em. rewrite build_page_map_numbers in Em.
    destruct pre; discriminate.
  - rewrite <- Em. apply scan_page_span; [exact Hall|lia|lia].
Qed.

Lemma enumerate_from_app {A : Type} (a b : list A) : forall k,
  Parser.enumerate_from k (a ++ b)
  = Parser.enumerate_from k a ++ Parser.enumerate_from (k + len a) b.
Proof.
  induction a as [|x a IH]; intros k; simpl.
  - unfold len. simpl. now rewrite Z.add_0_r.
  - rewrite IH. do 3 f_equal. unfold len. simpl List.length. lia.
Qed.

Lemma enumerate_from_In {A : Type} (l : list A) d i x : forall k,
  In (i, x) (Parser.enumerate_from k l) ->
  k <= i < k + len l /\ item d l (i - k) = x.
Proof.
  induction l as [|y l IH]; intros k; simpl; [tauto|].
  intros [H|H].
  - inversion H; subst. unfold len, item. simpl List.length.
    replace (i - i) with 0 by lia. simpl. split; [lia|reflexivity].
  - apply IH in H. destruct H as [H1 H2]. unfold len, item in *.
    simpl List.length. split; [lia|].
    replace (Z.to_nat (i - k)) with (S (Z.to_nat (i - (k + 1)))) by lia.
    exact H2.
Qed.

Lemma enumerate_from_complete {A : Type} (l : list A) d : forall k i,
  k <= i < k + len l ->
  In (i, item d l (i - k)) (Parser.enumerate_from k l).
Proof.
  induction l as [|y l IH]; intros k i; unfold len in *; simpl List.length;
    [lia|].
  intros H. simpl. destruct (Z.eq_dec i k) as [->|Hne].
  - left. unfold item. replace (k - k) with 0 by lia. reflexivity.
  - right. unfold item in *.
    replace (Z.to_nat (i - k)) with (S (Z.to_nat (i - (k + 1)))) by lia.
    apply IH. lia.
Qed.

(** The pages [extract_pages] builds, counted from [k]. *)
Lemma pages_numbers extracted : forall k,
  map pt_page_number
      (map (fun '(i, t) => Parser.page_of_text i t)
           (Parser.enumerate_from k extracted))
  = zrange k (k + len extracted).
Proof.
  induction extracted as [|t r IH]; intros k; simpl.
  - rewrite zrange_nil by (unfold len; simpl; lia). reflexivity.
  - rewrite zrange_cons by (unfold len; simpl; lia). f_equal.
    rewrite IH. f_equal. unfold len. simpl List.length. lia.
Qed.

Lemma pages_char_count extracted : forall k,
  Forall (fun q => char_count q = Str.slen (pt_text q))
         (map (fun '(i, t) => Parser.page_of_text i t)
              (Parser.enumerate_from k extracted)).
Proof.
  induction extracted as [|t r IH]; intros k; simpl; constructor; auto.
Qed.

Lemma zrange_sorted lo hi : StronglySorted Z.le (zrange lo hi).
Proof.
  remember (Z.to_nat (hi - lo)) as m eqn:Hm. revert lo Hm.
  induction m as [|m IH]; intros lo Hm.
  - rewrite zrange_nil by lia. constructor.
  - rewrite zrange_cons by lia. constructor.
    + apply IH. lia.
    + apply Forall_forall. intros x Hx. apply zrange_In in Hx. lia.
Qed.

Lemma string_app_assoc (a b c : string) :
  ((a ++ b) ++ c)%string = (a ++ b ++ c)%string.
Proof. induction a; simpl; congruence. Qed.

Lemma string_app_nil_r (a : string) : (a ++ "")%string = a.
Proof. induction a; simpl; congruence. Qed.

Lemma slen_app a b : Str.slen (a ++ b) = Str.slen a + Str.slen b.
Proof.
  unfold Str.slen. rewrite <- Nat2Z.inj_add. f_equal.
  induction a; simpl; congruence.
Qed.

(** The text that precedes a page in the joined document: the pages
    before it, each followed by the separator. *)
Lemma full_text_app pre p post :
  full_text (pre ++ p :: post)
  = (fold_right (fun q acc => pt_text q ++ Str.nl ++ acc) "" pre
     ++ pt_text p
     ++ match post with [] => "" | _ => Str.nl ++ full_text post end)%string.
Proof.
  unfold full_text. induction pre as [|q pre IH].
  - simpl. destruct post as [|p' post]; simpl.
    + now rewrite string_app_nil_r.
    + reflexivity.
  - change (Str.join Str.nl (map pt_text ((q :: pre) ++ p :: post)))
      with (Str.join Str.nl (pt_text q :: map pt_text (pre ++ p :: post))).
    destruct (map pt_text (pre ++ p :: post)) as [|a r] eqn:E.
    { destruct pre; discriminate. }
    change (Str.join Str.nl (pt_text q :: a :: r))
      with (pt_text q ++ Str.nl ++ Str.join Str.nl (a :: r))%string.
    rewrite IH. cbn [fold_right].
    now rewrite !string_app_assoc.
Qed.

Lemma slen_before_page pre :
  Forall (fun q => char_count q = Str.slen (pt_text q)) pre ->
  Str.slen (fold_right (fun q acc => pt_text q ++ Str.nl ++ acc) "" pre)%string
  = zsum (map (fun q => char_count q + 1) pre).
Proof.
  induction 1 as [|q pre Hq Hall IH]; [reflexivity|].
  unfold zsum in *. cbn [map fold_right]. rewrite !slen_app, IH, Hq.
  change (Str.slen Str.nl) with 1. lia.
Qed.

End PageFacts.

Section HeaderFacts.

Variable re_numbered re_allcaps re_keywords : string -> bool.

Local Abbreviation is_header :=
  (Parser.is_section_header re_numbered re_allcaps re_keywords).

(** A header is between 4 and 120 characters long once stripped. *)
Lemma header_length line :
  is_header line = true -> 4 <= Str.slen (Str.strip line) <= 120.
Proof.
  unfold Parser.is_section_header.
  destruct (negb (Str.truthy (Str.strip line))); simpl; [discriminate|].
  destruct (120 <? Str.slen (Str.strip line)) eqn:E1; [discriminate|].
  destruct (Str.slen (Str.strip line) <? 4) eqn:E2; [discriminate|].
  intros _. apply Z.ltb_ge in E1, E2. lia.
Qed.

Lemma clean_header_length line :
  Str.slen (Parser.clean_header line)
  = Z.min 100 (Str.slen (Str.strip line)).
Proof.
  unfold Parser.clean_header, Str.slen. rewrite take_length. lia.
Qed.

Lemma page_sections_In page sec :
  In sec (Parser.page_sections re_numbered re_allcaps re_keywords page) <->
  exists i line,
    In (i, line)
       (Parser.enumerate_from 0 (Str.split_char Str.newline (pt_text page)))
    /\ is_header line = true
    /\ sec = {| title := Parser.clean_header line;
                sec_page_number := pt_page_number page;
                line_index := i |}.
Proof.
  unfold Parser.page_sections. rewrite in_flat_map. split.
  - intros [[i line] [Hin Hs]]. exists i, line.
    destruct (is_header line); [|contradiction].
    destruct Hs as [<-|[]]. auto.
  - intros (i & line & Hin & Hh & ->). exists (i, line).
    split; [exact Hin|]. rewrite Hh. left. reflexivity.
Qed.

Lemma detect_sections_title_length pages :
  Forall (fun sec => 4 <= Str.slen (title sec) <= 100)
         (Parser.detect_sections re_numbered re_allcaps re_keywords pages).
Proof.
  apply Forall_forall. intros sec Hin. unfold Parser.detect_sections in Hin.
  apply in_flat_map in Hin. destruct Hin as [page [_ Hs]].
  apply page_sections_In in Hs. destruct Hs as (i & line & _ & Hh & ->).
  simpl. rewrite clean_header_length. apply header_length in Hh. lia.
Qed.

End HeaderFacts.

(** X6.  [_page_for_offset] answers the page whose span of the joined
    text holds the offset, the separator after a page counted with it,
    when no page has a negative character count. *)
Theorem page_for_offset_locates :
  forall (pre : list PageText) (p : PageText) (post : list PageText) (off : Z),
    Forall (fun q => 0 <= char_count q) (pre ++ p :: post) ->
    zsum (map (fun q => char_count q + 1) pre) <= off ->
    off <= zsum (map (fun q => char_count q + 1) pre) + char_count p ->
    _page_for_offset (_build_page_map (pre ++ p :: post)) off
    = pt_page_number p.
Proof. exact page_for_offset_span. Qed.

Lemma page_for_offset_locates_witness :
  _page_for_offset
    (_build_page_map
       ([mkPageText 1 "ab" 2 1] ++ mkPageText 2 "cde" 3 1
        :: [mkPageText 3 "f" 1 1])) 5
  = pt_page_number (mkPageText 2 "cde" 3 1).
Proof.
  apply (page_for_offset_locates [mkPageText 1 "ab" 2 1]
           (mkPageText 2 "cde" 3 1) [mkPageText 3 "f" 1 1] 5).
  - repeat constructor; simpl; lia.
  - simpl. lia.
  - simpl. lia.
Defined.

(** X7.  Pages made by [extract_pages] are numbered from 1, and the page
    map finds them again: the offset of any character of a page's text
    in the joined document is mapped to that page's number. *)
Theorem extracted_page_found_by_offset :
  forall (pre : list (option string)) (t : option string)
         (post : list (option string)) (j : Z),
    0 <= j <= Str.slen (pt_text (Parser.page_of_text 0 t)) ->
    map pt_page_number (Parser.extract_pages (pre ++ t :: post))
    = zrange 1 (1 + len (pre ++ t :: post))
    /\ exists before after,
         full_text (Parser.extract_pages (pre ++ t :: post))
         = (before ++ pt_text (Parser.page_of_text 0 t) ++ after)%string
         /\ _page_for_offset
              (_build_page_map (Parser.extract_pages (pre ++ t :: post)))
              (Str.slen before + j)
            = len pre + 1.
Proof.
  intros pre t post j Hj. unfold Parser.extract_pages.
  split; [apply pages_numbers|].
  rewrite enumerate_from_app, map_app. cbn [Parser.enumerate_from map].
  set (P1 := map (fun '(i, t0) => Parser.page_of_text i t0)
                 (Parser.enumerate_from 1 pre)).
  set (P2 := map (fun '(i, t0) => Parser.page_of_text i t0)
                 (Parser.enumerate_from (1 + len pre + 1) post)).
  set (p := Parser.page_of_text (1 + len pre) t).
  assert (Hc1 : Forall (fun q => char_count q = Str.slen (pt_text q)) P1)
    by apply pages_char_count.
  assert (Hc2 : Forall (fun q => char_count q = Str.slen (pt_text q)) P2)
    by apply pages_char_count.
  exists (fold_right (fun q acc => pt_text q ++ Str.nl ++ acc) "" P1)%string,
         (match P2 with [] => "" | _ => Str.nl ++ full_text P2 end)%string.
  change (pt_text (Parser.page_of_text 0 t)) with (pt_text p) in *.
  split; [apply full_text_app|].
  rewrite (slen_before_page _ Hc1).
  replace (len pre + 1) with (pt_page_number p)
    by (change (pt_page_number p) with (1 + len pre); lia).
  apply page_for_offset_span.
  - apply Forall_app. split; [|constructor].
    + eapply Forall_impl; [|exact Hc1]. intros q Hq. rewrite Hq.
      unfold Str.slen. lia.
    + change (char_count p) with (Str.slen (pt_text p)).
      unfold Str.slen. lia.
    + eapply Forall_impl; [|exact Hc2]. intros q Hq. rewrite Hq.
      unfold Str.slen. lia.
  - lia.
  - change (char_count p) with (Str.slen (pt_text p)). lia.
Qed.

Lemma extracted_page_found_by_offset_witness :
  map pt_page_number
      (Parser.extract_pages ([Some "ab"; None] ++ Some "cde" :: [Some "f"]))
  = zrange 1 (1 + len ([Some "ab"; None] ++ Some "cde" :: [Some "f"]))
  /\ exists before after,
       full_text
         (Parser.extract_pages ([Some "ab"; None] ++ Some "cde" :: [Some "f"]))
       = (before ++ pt_text (Parser.page_of_text 0 (Some "cde")) ++ after)%string
       /\ _page_for_offset
            (_build_page_map
               (Parser.extract_pages
                  ([Some "ab"; None] ++ Some "cde" :: [Some "f"])))
            (Str.slen before + 2)
          = len [Some "ab"; (None : option string)] + 1.
Proof.
  apply (extracted_page_found_by_offset [Some "ab"; None] (Some "cde")
           [Some "f"] 2).
  vm_compute. split; discriminate.
Defined.

(** X8.  [detect_sections] reports exactly the header lines: every
    section it returns comes from a line of a page that
    [is_section_header] accepts, with that page's number, the line's
    index and a title of 4 to 100 characters; and every such line of
    every page is reported. *)
Theorem detect_sections_sound_complete :
  forall (re_numbered re_allcaps re_keywords : string -> bool)
         (pages : list PageText),
    Forall
      (fun sec =>
         4 <= Str.slen (title sec) <= 100
         /\ exists page,
              In page pages
              /\ pt_page_number page = sec_page_number sec
              /\ 0 <= line_index sec
                 < len (Str.split_char Str.newline (pt_text page))
              /\ Parser.is_section_header re_numbered re_allcaps re_keywords
                   (item "" (Str.split_char Str.newline (pt_text page))
                         (line_index sec)) = true
              /\ title sec
                 = Parser.clean_header
                     (item "" (Str.split_char Str.newline (pt_text page))
                           (line_index sec)))
      (Parser.detect_sections re_numbered re_allcaps re_keywords pages)
    /\ Forall
         (fun page =>
            Forall
              (fun i =>
                 Parser.is_section_header re_numbered re_allcaps re_keywords
                   (item "" (Str.split_char Str.newline (pt_text page)) i)
                 = false
                 \/ In {| title :=
                            Parser.clean_header
                              (item "" (Str.split_char Str.newline
                                          (pt_text page)) i);
                          sec_page_number := pt_page_number page;
                          line_index := i |}
                       (Parser.detect_sections re_numbered re_allcaps
                          re_keywords pages))
              (zrange 0 (len (Str.split_char Str.newline (pt_text page)))))
         pages.
Proof.
  intros rn ra rk pages. split.
  - apply Forall_forall. intros sec Hin. unfold Parser.detect_sections in Hin.
    apply in_flat_map in Hin. destruct Hin as [page [Hp Hs]].
    apply page_sections_In in Hs. destruct Hs as (i & line & Hi & Hh & ->).
    apply (enumerate_from_In _ "") in Hi. destruct Hi as [Hr Hl].
    rewrite Z.sub_0_r in Hl. simpl. split.
    + rewrite clean_header_length. apply header_length in Hh. lia.
    + exists page. rewrite Hl. split; [exact Hp|]. split; [reflexivity|].
      split; [lia|]. split; [exact Hh|reflexivity].
  - apply Forall_forall. intros page Hp. apply Forall_forall. intros i Hi.
    apply zrange_In in Hi.
    destruct (Parser.is_section_header rn ra rk
                (item "" (Str.split_char Str.newline (pt_text page)) i))
      eqn:Hh; [right|left; reflexivity].
    unfold Parser.detect_sections. apply in_flat_map. exists page.
    split; [exact Hp|]. apply page_sections_In.
    exists i, (item "" (Str.split_char Str.newline (pt_text page)) i).
    split; [|split; [exact Hh|reflexivity]].
    pose proof (enumerate_from_complete
                  (Str.split_char Str.newline (pt_text page)) "" 0 i) as H.
    rewrite Z.sub_0_r in H. apply H. lia.
Qed.

(** X9.  Through the whole pipeline of one file every chunk carries the
    file's name, a first page and a last page with
    [1 <= first <= last <= number of pages], and a section title that is
    never empty: [Unknown] or a header of at most 100 characters. *)
Theorem parse_pdf_chunk_metadata :
  forall (encode_len : string -> nat) (path_stem : string -> string)
         (re_split : string -> list string)
         (re_numbered re_allcaps re_keywords : string -> bool)
         (extracted : list (option string)) (name : string) (extra : nat),
    exists chunks,
      Parser.parse_pdf encode_len path_stem re_split
        re_numbered re_allcaps re_keywords
        (S (List.length
              (_split_sentences re_split
                 (full_text (Parser.extract_pages extracted)))) + extra)
        extracted name = Some chunks
      /\ Forall
           (fun c =>
              filename c = name
              /\ 1 <= page_number c
              /\ page_number c <= page_end c
              /\ page_end c <= len extracted
              /\ 4 <= Str.slen (section_title c) <= 100)
           chunks.
Proof.
  intros encode_len path_stem re_split rn ra rk extracted name extra.
  unfold Parser.parse_pdf.
  set (pages := Parser.extract_pages extracted).
  set (sections := Parser.detect_sections rn ra rk pages).
  destruct (chunk_document_run encode_len path_stem re_split pages sections
              name TARGET_TOKENS OVERLAP_TOKENS extra) as [steps [Hs Hcase]].
  exists (map emitted steps). unfold chunk_document. rewrite Hs.
  split; [reflexivity|].
  destruct Hcase as [[_ ->]|(_ & Hne & Hl & _)]; [constructor|].
  assert (Hnums : map pt_page_number pages = zrange 1 (1 + len extracted))
    by apply pages_numbers.
  pose proof (detect_sections_title_length rn ra rk pages) as Hsec.
  fold sections in Hsec. rewrite Forall_forall in Hsec.
  apply chunk_loop_numbered in Hl. apply Forall_map.
  eapply numbered_Forall; [|exact Hl].
  intros j st [cs [tok He]]. cbv beta. rewrite He.
  unfold build_chunk.
  cbn [filename page_number page_end section_title].
  set (start := zsum (map (fun j0 => Str.slen (item "" (_split_sentences re_split (full_text pages)) j0) + 1)
                          (zrange 0 (start_sent_idx st)))).
  split; [reflexivity|].
  pose proof (page_for_offset_In pages start Hne) as Hp1.
  pose proof (page_for_offset_In pages
                (start + Str.slen (Str.join " " cs)) Hne) as Hp2.
  rewrite Hnums in Hp1, Hp2. apply zrange_In in Hp1, Hp2.
  split; [lia|]. split.
  { apply page_for_offset_mono.
    - rewrite Hnums. apply zrange_sorted.
    - unfold Str.slen. lia. }
  split; [lia|].
  destruct (section_for_offset_In sections pages (_build_page_map pages) start)
    as [Hu|Hin].
  - rewrite <- Hu. vm_compute. split; discriminate.
  - apply in_map_iff in Hin. destruct Hin as [sec [<- Hin]].
    apply Hsec. exact Hin.
Qed.

(* ================================================================== *)
(** * Further properties of the retrieval engine *)
(* ================================================================== *)

Section RetrievalFacts.

Import Retriever.

Lemma lower_length s : String.length (Str.lower s) = String.length s.
Proof.
  unfold Str.lower, Str.of_chars, Str.chars.
  induction s as [|c s IH]; simpl; congruence.
Qed.

Lemma string_app_length (a b : string) :
  String.length (a ++ b) = (String.length a + String.length b)%nat.
Proof. induction a; simpl; congruence. Qed.

Lemma prefixed_not_same (p q : string) :
  p <> "" -> String.eqb (Str.lower (p ++ q)) (Str.lower q) = false.
Proof.
  intros Hp. apply String.eqb_neq. intros E.
  apply (f_equal String.length) in E.
  rewrite !lower_length, string_app_length in E.
  destruct p; [congruence|]. simpl in E. lia.
Qed.

Lemma slice_to_length {A : Type} (k : nat) (l : list A) :
  len (slice_to (Z.of_nat k) l) = Z.min (Z.of_nat k) (len l).
Proof.
  rewrite slice_to_nat. unfold len. rewrite length_firstn. lia.
Qed.

Lemma slice_to_In {A : Type} (n : Z) (l : list A) x :
  In x (slice_to n l) -> In x l.
Proof.
  destruct (slice_to_prefix n l) as [rest E]. intros H.
  rewrite E. apply in_or_app. now left.
Qed.

Lemma descending_strong l :
  descending l ->
  StronglySorted (fun a b : Hit => Qle (score b) (score a)) l.
Proof.
  apply Sorted_StronglySorted. intros a b c Hab Hbc.
  eapply Qle_trans; eauto.
Qed.

Lemma StronglySorted_app_inv {A : Type} (R : A -> A -> Prop) l1 : forall l2,
  StronglySorted R (l1 ++ l2) ->
  forall a b, In a l1 -> In b l2 -> R a b.
Proof.
  induction l1 as [|x l1 IH]; intros l2 Hs a b Ha Hb; [contradiction|].
  simpl in Hs. inversion Hs as [|? ? Hrest Hall]; subst.
  destruct Ha as [<-|Ha].
  - rewrite Forall_forall in Hall. apply Hall, in_or_app. now right.
  - eapply IH; eauto.
Qed.

Lemma merged_sorted hits :
  descending (Py.sorted_desc score_leb (map snd (merge_hits hits))).
Proof.
  apply sorted_desc_sorted.
  - intros y x H. now apply Qle_bool_iff.
  - intros y x H. now apply Qle_bool_false.
Qed.

(** Every hit is represented among the merged ones by a hit of the same
    chunk id that scores at least as high. *)
Lemma merged_dominates hits h :
  In h hits ->
  exists m, In m (map snd (merge_hits hits))
            /\ chunk_id m = chunk_id h /\ Qle (score h) (score m).
Proof.
  intros Hin. destruct (merge_hits_inv hits) as (Hnd & Hent & Hcov).
  specialize (Hcov h Hin). apply in_map_iff in Hcov.
  destruct Hcov as [[k m] [Hk Hm]]. simpl in Hk. subst k.
  destruct (Hent _ _ Hm) as [Hid [_ Hbest]].
  exists m. split; [apply in_map_iff; exists (chunk_id h, m); auto|].
  split; [now symmetry|].
  rewrite Forall_forall in Hbest. apply Hbest; [exact Hin|now symmetry].
Qed.

Lemma rank_top hits k h :
  In h hits ->
  In (chunk_id h) (map chunk_id (rank hits k))
  \/ Forall (fun r => Qle (score h) (score r)) (rank hits k).
Proof.
  intros Hin. destruct (merged_dominates hits h Hin) as (m & Hm & Hid & Hle).
  unfold rank.
  set (S := Py.sorted_desc score_leb (map snd (merge_hits hits))).
  destruct (slice_to_prefix k S) as [rest E].
  assert (HmS : In m S).
  { eapply Permutation_in; [|exact Hm]. apply Permutation_sym.
    apply sorted_desc_perm. }
  rewrite E in HmS. apply in_app_or in HmS. destruct HmS as [H|H].
  - left. rewrite <- Hid. now apply in_map.
  - right. apply Forall_forall. intros r Hr.
    pose proof (descending_strong _ (merged_sorted hits)) as Hs.
    fold S in Hs. rewrite E in Hs.
    eapply Qle_trans; [exact Hle|].
    exact (StronglySorted_app_inv _ _ _ Hs r m Hr H).
Qed.

Lemma merge_length hits : len (merge_hits hits) <= len hits.
Proof.
  destruct (merge_hits_inv hits) as (Hnd & Hent & _).
  unfold len. apply inj_le.
  rewrite <- (length_map fst (merge_hits hits)),
          <- (length_map chunk_id hits).
  apply NoDup_incl_length; [exact Hnd|].
  intros k Hk. apply in_map_iff in Hk. destruct Hk as [[k' m] [<- Hm]].
  destruct (Hent _ _ Hm) as [-> [Hin _]]. simpl. now apply in_map.
Qed.

Lemma rank_from_hits hits k h : In h (rank hits k) -> In h hits.
Proof.
  unfold rank. intros H. apply slice_to_In in H.
  eapply Permutation_in in H; [|apply sorted_desc_perm].
  apply in_map_iff in H. destruct H as [[k' m] [<- Hm]].
  destruct (merge_hits_inv hits) as (_ & Hent & _).
  destruct (Hent _ _ Hm) as [_ [Hin _]]. exact Hin.
Qed.

Lemma heuristic_length question (k : nat) :
  len (_heuristic_expand question (Z.of_nat k)) = Z.min (Z.of_nat k) 3.
Proof. unfold _heuristic_expand. now rewrite slice_to_length. Qed.

Lemma expand_query_length json_loads repr call question (k : nat) :
  Z.min (Z.of_nat k) 1
  <= len (expand_query json_loads repr call question (Z.of_nat k))
  <= Z.of_nat k.
Proof.
  pose proof (heuristic_length question k) as Hh.
  unfold expand_query. destruct call as [msg|raw]; [lia|].
  destruct (json_loads (strip_fences raw)) as [v|]; [|lia].
  destruct v; try lia.
  destruct (1 <=? len l) eqn:E; [|lia]. apply Z.leb_le in E.
  replace (len (map (Py.to_str repr) (slice_to (Z.of_nat k) l)))
    with (len (slice_to (Z.of_nat k) l))
    by (unfold len; now rewrite length_map).
  rewrite slice_to_length. lia.
Qed.

Lemma flat_map_length_le {A B : Type} (f : A -> list B) (bound : Z) l :
  0 <= bound ->
  (forall x, len (f x) <= bound) ->
  len (flat_map f l) <= len l * bound.
Proof.
  intros Hb Hf.
  induction l as [|x r IH]; unfold len in *; cbn [flat_map List.length];
    [lia|].
  rewrite length_app, Nat2Z.inj_add, Nat2Z.inj_succ. specialize (Hf x). nia.
Qed.

Lemma filter_length_le {A : Type} (p : A -> bool) l :
  len (filter p l) <= len l.
Proof. unfold len. apply inj_le, filter_length_le. Qed.

End RetrievalFacts.

(** X10.  The results are the best of what the store returned: every hit
    of every executed query either has its chunk among the results or
    scores no higher than each of them; and every result is a hit the
    store returned for one of the executed queries. *)
Theorem results_are_the_top_hits :
  forall (expand : string -> Z -> list string)
         (store_query : string -> Z -> list Retriever.Hit)
         (question : string) (top_k_per_query final_top_k num_variants : Z),
    Forall
      (fun q =>
         Forall
           (fun h =>
              In (Retriever.chunk_id h)
                 (map Retriever.chunk_id
                    (Retriever.results
                       (Retriever.retrieve expand store_query question
                          top_k_per_query final_top_k num_variants)))
              \/ Forall
                   (fun r => Qle (Retriever.score h) (Retriever.score r))
                   (Retriever.results
                      (Retriever.retrieve expand store_query question
                         top_k_per_query final_top_k num_variants)))
           (store_query q top_k_per_query))
      (Retriever.query_variants
         (Retriever.retrieve expand store_query question
            top_k_per_query final_top_k num_variants))
    /\ Forall
         (fun r =>
            Exists (fun q => In r (store_query q top_k_per_query))
              (Retriever.query_variants
                 (Retriever.retrieve expand store_query question
                    top_k_per_query final_top_k num_variants)))
         (Retriever.results
            (Retriever.retrieve expand store_query question
               top_k_per_query final_top_k num_variants)).
Proof.
  intros expand store_query question k1 k2 n. unfold Retriever.retrieve.
  cbn [Retriever.results Retriever.query_variants].
  set (queries := Retriever.all_queries question (expand question n)).
  split.
  - apply Forall_forall. intros q Hq. apply Forall_forall. intros h Hh.
    apply rank_top. apply in_flat_map. exists q. auto.
  - apply Forall_forall. intros r Hr. apply rank_from_hits in Hr.
    apply in_flat_map in Hr. destruct Hr as [q [Hq Hh]].
    apply Exists_exists. exists q. auto.
Qed.

(** X11.  The counts a retrieval reports are consistent: there are no
    more distinct chunks than hits, and the number of results is the
    smaller of the requested number and the number of distinct chunks. *)
Theorem retrieval_counts :
  forall (expand : string -> Z -> list string)
         (store_query : string -> Z -> list Retriever.Hit)
         (question : string) (top_k_per_query : Z) (final_top_k : nat)
         (num_variants : Z),
    Retriever.unique_chunks
      (Retriever.retrieve expand store_query question top_k_per_query
         (Z.of_nat final_top_k) num_variants)
    <= Retriever.total_retrieved
         (Retriever.retrieve expand store_query question top_k_per_query
            (Z.of_nat final_top_k) num_variants)
    /\ len (Retriever.results
              (Retriever.retrieve expand store_query question top_k_per_query
                 (Z.of_nat final_top_k) num_variants))
       = Z.min (Z.of_nat final_top_k)
           (Retriever.unique_chunks
              (Retriever.retrieve expand store_query question top_k_per_query
                 (Z.of_nat final_top_k) num_variants)).
Proof.
  intros expand store_query question k1 k2 n. unfold Retriever.retrieve.
  cbn [Retriever.results Retriever.unique_chunks Retriever.total_retrieved].
  split; [apply merge_length|].
  unfold Retriever.rank. rewrite slice_to_length. f_equal.
  unfold len. f_equal.
  rewrite (Permutation_length (sorted_desc_perm _ _)). apply length_map.
Qed.

(** X12.  Asked for [k] variants, [expand_query] returns at most [k]
    strings, and at least one when [k] is positive, whatever the
    generation service answered. *)
Theorem expansion_size :
  forall (json_loads : string -> option Py.value) (repr : Py.value -> string)
         (call : Retriever.Outcome) (question : string) (k : nat),
    Z.min (Z.of_nat k) 1
    <= len (Retriever.expand_query json_loads repr call question (Z.of_nat k))
    <= Z.of_nat k.
Proof. exact expand_query_length. Qed.

(** X13.  With the generation service failing and at least three
    variants asked for, a retrieval runs exactly three queries: the
    question, then the coverage and the exclusions rewrites of it. *)
Theorem failed_expansion_runs_three_queries :
  forall (json_loads : string -> option Py.value) (repr : Py.value -> string)
         (call : Retriever.Outcome)
         (store_query : string -> Z -> list Retriever.Hit)
         (question : string) (top_k_per_query final_top_k num_variants : Z),
    Retriever.expansion_failed json_loads call ->
    3 <= num_variants ->
    Retriever.query_variants
      (Retriever.retrieve (Retriever.expand_query json_loads repr call)
         store_query question top_k_per_query final_top_k num_variants)
    = [ question;
        ("coverage policy benefits " ++ question)%string;
        ("exclusions waiting period sub-limit " ++ question)%string ].
Proof.
  intros json_loads repr call store_query question k1 k2 n Hf Hn.
  unfold Retriever.retrieve. cbn [Retriever.query_variants].
  assert (He : Retriever.expand_query json_loads repr call question n
               = Retriever._heuristic_expand question n).
  { unfold Retriever.expand_query, Retriever.expansion_failed in *.
    destruct call as [msg|raw]; [reflexivity|].
    destruct (json_loads (Retriever.strip_fences raw)) as [v|]; [|reflexivity].
    destruct v; try reflexivity. contradiction. }
  rewrite He. unfold Retriever._heuristic_expand, slice_to.
  replace (0 <=? n) with true by (symmetry; apply Z.leb_le; lia).
  replace (Z.to_nat n) with (3 + (Z.to_nat n - 3))%nat by lia.
  cbn [firstn Nat.add]. rewrite firstn_nil.
  unfold Retriever.all_queries. cbn [filter].
  rewrite String.eqb_refl. cbn [negb].
  rewrite !prefixed_not_same by discriminate. reflexivity.
Qed.

Lemma failed_expansion_runs_three_queries_witness :
  Retriever.query_variants
    (Retriever.retrieve
       (Retriever.expand_query Sample.json_loads Sample.repr
          (Retriever.Raised "connection refused"))
       (fun _ _ => Retriever.sample_hits)
       "Is dental covered?" 8 10 3)
  = [ "Is dental covered?";
      ("coverage policy benefits " ++ "Is dental covered?")%string;
      ("exclusions waiting period sub-limit " ++ "Is dental covered?")%string ].
Proof.
  apply (failed_expansion_runs_three_queries Sample.json_loads Sample.repr
           (Retriever.Raised "connection refused")
           (fun _ _ => Retriever.sample_hits) "Is dental covered?" 8 10 3).
  - exact I.
  - lia.
Defined.

(** X14.  The work of a retrieval is bounded: with [n] variants asked
    for it runs between 1 and [n + 1] queries, and when the store
    answers each query with at most [top_k_per_query] hits it collects
    at most [(n + 1) * top_k_per_query] of them. *)
Theorem retrieval_size_bounded :
  forall (json_loads : string -> option Py.value) (repr : Py.value -> string)
         (call : Retriever.Outcome)
         (store_query : string -> Z -> list Retriever.Hit)
         (question : string) (top_k_per_query final_top_k : Z) (n : nat),
    (forall q, len (store_query q top_k_per_query) <= top_k_per_query) ->
    1 <= len (Retriever.query_variants
                (Retriever.retrieve
                   (Retriever.expand_query json_loads repr call)
                   store_query question top_k_per_query final_top_k
                   (Z.of_nat n)))
      <= Z.of_nat n + 1
    /\ Retriever.total_retrieved
         (Retriever.retrieve (Retriever.expand_query json_loads repr call)
            store_query question top_k_per_query final_top_k (Z.of_nat n))
       <= (Z.of_nat n + 1) * top_k_per_query.
Proof.
  intros json_loads repr call store_query question k1 k2 n Hstore.
  unfold Retriever.retrieve.
  cbn [Retriever.query_variants Retriever.total_retrieved].
  set (variants := Retriever.expand_query json_loads repr call question
                     (Z.of_nat n)).
  assert (Hv : len variants <= Z.of_nat n)
    by apply expand_query_length.
  assert (Hq : 1 <= len (Retriever.all_queries question variants)
               <= Z.of_nat n + 1).
  { unfold Retriever.all_queries.
    pose proof (filter_length_le
                  (fun v => negb (String.eqb (Str.lower v) (Str.lower question)))
                  variants) as Hf.
    unfold len in *. simpl List.length. lia. }
  split; [exact Hq|].
  assert (H0 : 0 <= k1).
  { specialize (Hstore question). unfold len in Hstore. lia. }
  pose proof (flat_map_length_le (fun q => store_query q k1) k1
                (Retriever.all_queries question variants) H0 Hstore) as Hfl.
  nia.
Qed.

Lemma retrieval_size_bounded_witness :
  1 <= len (Retriever.query_variants
              (Retriever.retrieve
                 (Retriever.expand_query Sample.json_loads Sample.repr
                    (Retriever.Raised "timeout"))
                 (fun _ _ => Retriever.sample_hits)
                 "Is dental covered?" 8 10 (Z.of_nat 3)))
    <= Z.of_nat 3 + 1
  /\ Retriever.total_retrieved
       (Retriever.retrieve
          (Retriever.expand_query Sample.json_loads Sample.repr
             (Retriever.Raised "timeout"))
          (fun _ _ => Retriever.sample_hits)
          "Is dental covered?" 8 10 (Z.of_nat 3))
     <= (Z.of_nat 3 + 1) * 8.
Proof.
  apply (retrieval_size_bounded Sample.json_loads Sample.repr
           (Retriever.Raised "timeout") (fun _ _ => Retriever.sample_hits)
           "Is dental covered?" 8 10 3).
  intros q. vm_compute. discriminate.
Defined.

(* ================================================================== *)
(** * Further properties of the answer normaliser *)
(* ================================================================== *)

Section AskFacts.

Import Py Agent.

Variable json_loads : string -> loaded.
Variable float_of_str : string -> option float.
Variable int_of_str : string -> option Z.
Variable repr : value -> string.









Lemma unparseable_response_fields question raw :
  covered (unparseable_response question raw) = "Unknown"
  /\ confidence (unparseable_response question raw) = zero
  /\ citations (unparseable_response question raw) = []
  /\ option_map m_question (meta (unparseable_response question raw))
     = Some question.
Proof.
  unfold unparseable_response.
  destruct (20 <? Str.slen (Str.strip raw)); repeat split.
Qed.

End AskFacts.


Section FlattenFacts.

Import Py.

(** The two local loops of [agent._flatten_value], by list functions. *)
Lemma agent_flatten_dict d :
  Agent._flatten_value (VDict d)
  = match (if len d <=? 3
           then option_map Agent._flatten_value (lookup "value" d)
           else None) with
    | Some v => v
    | None => VDict (map (fun kv => (fst kv, Agent._flatten_value (snd kv))) d)
    end.
Proof.
  cbn [Agent._flatten_value].
  assert (H1 : forall d0,
    (fix find_value (d1 : list (string * value)) : option value :=
       match d1 with
       | [] => None
       | (k, v) :: r =>
           if String.eqb k "value" then Some (Agent._flatten_value v)
           else find_value r
       end) d0
    = option_map Agent._flatten_value (lookup "value" d0)).
  { induction d0 as [|[k v] r IH]; [reflexivity|]. cbn [lookup].
    destruct (String.eqb k "value"); [reflexivity|exact IH]. }
  assert (H2 : forall d0,
    (fix flatten_items (d1 : list (string * value)) : list (string * value) :=
       match d1 with
       | [] => []
       | (k, v) :: r => (k, Agent._flatten_value v) :: flatten_items r
       end) d0
    = map (fun kv => (fst kv, Agent._flatten_value (snd kv))) d0).
  { induction d0 as [|[k v] r IH]; [reflexivity|]. cbn [map fst snd].
    now rewrite IH. }
  rewrite H1, H2. reflexivity.
Qed.

Lemma wrapper_free_dict d :
  wrapper_free (VDict d)
  = negb (has_key "value" d && (len d <=? 3))
    && forallb (fun kv => wrapper_free (snd kv)) d.
Proof.
  cbn [wrapper_free]. f_equal.
  induction d as [|[k v] r IH]; [reflexivity|]. cbn [forallb snd].
  now rewrite IH.
Qed.

Lemma wrapper_free_list l :
  wrapper_free (VList l) = forallb wrapper_free l.
Proof.
  cbn [wrapper_free].
  induction l as [|x r IH]; [reflexivity|]. cbn [forallb]. now rewrite IH.
Qed.

Lemma lookup_map_values {A B : Type} (f : A -> B) k (d : list (string * A)) :
  lookup k (map (fun kv => (fst kv, f (snd kv))) d)
  = option_map f (lookup k d).
Proof.
  induction d as [|[k' v] r IH]; [reflexivity|]. cbn [map lookup fst snd].
  destruct (String.eqb k' k); [reflexivity|exact IH].
Qed.

Lemma forallb_map_comp {A B : Type} (f : A -> B) (p : B -> bool) l :
  forallb p (map f l) = forallb (fun x => p (f x)) l.
Proof.
  induction l as [|x r IH]; [reflexivity|]. cbn [map forallb].
  now rewrite IH.
Qed.

Lemma agent_flatten_wrapper_free v :
  wrapper_free (Agent._flatten_value v) = true.
Proof.
  induction v as [| | | | |l IH|d IH] using value_nested_ind;
    try reflexivity.
  - cbn [Agent._flatten_value]. rewrite wrapper_free_list, forallb_map_comp.
    apply forallb_forall. rewrite Forall_forall in IH. exact IH.
  - rewrite agent_flatten_dict.
    destruct (len d <=? 3) eqn:El.
    + destruct (lookup "value" d) as [x|] eqn:Ex; cbn [option_map].
      * apply lookup_In in Ex. rewrite Forall_forall in IH.
        exact (IH _ Ex).
      * rewrite wrapper_free_dict. unfold has_key.
        rewrite lookup_map_values, Ex. cbn [option_map negb andb].
        rewrite forallb_map_comp. apply forallb_forall.
        rewrite Forall_forall in IH. exact IH.
    + rewrite wrapper_free_dict.
      replace (len (map (fun kv => (fst kv, Agent._flatten_value (snd kv))) d))
        with (len d) by (unfold len; now rewrite length_map).
      rewrite El, andb_false_r. cbn [negb andb].
      rewrite forallb_map_comp. apply forallb_forall.
      rewrite Forall_forall in IH. exact IH.
Qed.

Lemma agent_flatten_fixed v :
  wrapper_free v = true -> Agent._flatten_value v = v.
Proof.
  induction v as [| | | | |l IH|d IH] using value_nested_ind;
    try reflexivity.
  - rewrite wrapper_free_list. intros H. cbn [Agent._flatten_value].
    f_equal. rewrite forallb_forall in H. rewrite Forall_forall in IH.
    rewrite <- (map_id l) at 2. apply map_ext_in. auto.
  - rewrite wrapper_free_dict. intros H. apply andb_true_iff in H.
    destruct H as [Hw Hall]. rewrite agent_flatten_dict.
    assert (Hnone : (if len d <=? 3
                     then option_map Agent._flatten_value (lookup "value" d)
                     else None) = None).
    { destruct (len d <=? 3); [|reflexivity].
      unfold has_key in Hw. destruct (lookup "value" d); [discriminate|].
      reflexivity. }
    rewrite Hnone. f_equal.
    rewrite forallb_forall in Hall. rewrite Forall_forall in IH.
    rewrite <- (map_id d) at 2. apply map_ext_in.
    intros [k x] Hin. cbn [fst snd]. f_equal. apply (IH _ Hin).
    apply (Hall _ Hin).
Qed.

End FlattenFacts.

(** X16.  [agent._flatten_value] unwraps completely: its result holds
    no dict of at most three entries with a ["value"] key at any depth,
    and flattening a second time changes nothing. *)
Theorem agent_flatten_is_complete :
  forall v : Py.value,
    wrapper_free (Agent._flatten_value v) = true
    /\ Agent._flatten_value (Agent._flatten_value v) = Agent._flatten_value v.
Proof.
  intros v. split; [apply agent_flatten_wrapper_free|].
  apply agent_flatten_fixed, agent_flatten_wrapper_free.
Qed.

Section BestSentenceFacts.

Import Py.

(** A stable descending sort puts first the earliest element of maximal
    key. *)
Lemma sorted_desc_head {A : Type} (key : A -> Z) (l : list A) :
  match sorted_desc (fun a b => key a <=? key b) l with
  | [] => l = []
  | x :: _ =>
      exists pre post,
        l = pre ++ x :: post
        /\ Forall (fun y => key y < key x) pre
        /\ Forall (fun y => key y <= key x) post
  end.
Proof.
  induction l as [|x r IH]; [reflexivity|]. cbn [sorted_desc fold_right].
  fold (sorted_desc (fun a b => key a <=? key b) r).
  destruct (sorted_desc (fun a b => key a <=? key b) r) as [|y L].
  - subst r. cbn [insert_desc]. exists [], []. repeat constructor.
  - destruct IH as (pre & post & Hr & Hpre & Hpost). cbn [insert_desc].
    destruct (key y <=? key x) eqn:E.
    + apply Z.leb_le in E. exists [], r. split; [reflexivity|].
      split; [constructor|]. rewrite Hr. apply Forall_app. split.
      * eapply Forall_impl; [|exact Hpre]. cbv beta. intros; lia.
      * constructor; [exact E|].
        eapply Forall_impl; [|exact Hpost]. cbv beta. intros; lia.
    + apply Z.leb_gt in E. exists (x :: pre), post. rewrite Hr.
      split; [reflexivity|]. split; [|exact Hpost].
      constructor; [exact E|exact Hpre].
Qed.

Lemma score_sentences_long q_words sentences :
  Forall (fun p => 20 <= Str.slen (snd p))
         (Agent.score_sentences q_words sentences).
Proof.
  apply Forall_forall. intros p Hp. unfold Agent.score_sentences in Hp.
  apply in_flat_map in Hp. destruct Hp as [s [_ Hp]].
  destruct (Str.slen (Str.strip s) <? 20) eqn:E; [contradiction|].
  destruct Hp as [<-|[]]. apply Z.ltb_ge in E. exact E.
Qed.

Lemma score_sentences_none q_words sentences :
  Agent.score_sentences q_words sentences = [] ->
  Forall (fun s => Str.slen (Str.strip s) < 20) sentences.
Proof.
  induction sentences as [|s r IH]; [constructor|].
  unfold Agent.score_sentences. cbn [flat_map].
  destruct (Str.slen (Str.strip s) <? 20) eqn:E; [|discriminate].
  intros H. constructor; [now apply Z.ltb_lt|]. apply IH. exact H.
Qed.

End BestSentenceFacts.

(** X17.  [_best_sentence] returns the earliest sentence of the text
    that has the most words in common with the question among the
    sentences of 20 characters or more; when the text has no such
    sentence it returns the first 300 characters of the text (the scan
    for a sentence of 30 characters or more can then find nothing). *)
Theorem best_sentence_choice :
  forall text question : string,
    (Agent.score_sentences (Str.words3 (Str.lower question))
       (Str.split_after ".;" text) = []
     /\ Forall (fun s => Str.slen (Str.strip s) < 20)
               (Str.split_after ".;" text)
     /\ Agent._best_sentence text question = Str.take 300 text)
    \/ (exists pre post overlap,
          Agent.score_sentences (Str.words3 (Str.lower question))
            (Str.split_after ".;" text)
          = pre ++ (overlap, Agent._best_sentence text question) :: post
          /\ Forall (fun p => fst p < overlap) pre
          /\ Forall (fun p => fst p <= overlap) post
          /\ 20 <= Str.slen (Agent._best_sentence text question)).
Proof.
  intros text question. unfold Agent._best_sentence.
  set (sentences := Str.split_after ".;" text).
  set (scored := Agent.score_sentences (Str.words3 (Str.lower question))
                   sentences).
  pose proof (sorted_desc_head fst scored) as Hh.
  destruct (Py.sorted_desc (fun a b => fst a <=? fst b) scored)
    as [|[k s] L].
  - left. split; [exact Hh|].
    pose proof (score_sentences_none _ _ Hh) as Hshort.
    split; [exact Hshort|].
    assert (Hf : filter (fun s => 30 <=? Str.slen (Str.strip s)) sentences
                 = []).
    { clear -Hshort. induction Hshort as [|s r Hs _ IH]; [reflexivity|].
      cbn [filter].
      replace (30 <=? Str.slen (Str.strip s)) with false
        by (symmetry; apply Z.leb_gt; lia).
      exact IH. }
    rewrite Hf. reflexivity.
  - right. destruct Hh as (pre & post & Hs & Hpre & Hpost).
    exists pre, post, k. split; [exact Hs|].
    split; [exact Hpre|]. split; [exact Hpost|].
    pose proof (score_sentences_long (Str.words3 (Str.lower question))
                  sentences) as Hlong.
    fold scored in Hlong. rewrite Hs in Hlong.
    apply Forall_app in Hlong. destruct Hlong as [_ Hlong].
    inversion Hlong; subst. assumption.
Qed.

Section BackfillSourceFacts.

Import Agent.

Lemma exact_match_file cit chunk :
  exact_match cit chunk = true -> file_match cit chunk = true.
Proof.
  unfold exact_match. intros H.
  apply andb_true_iff in H. destruct H as [H _].
  apply andb_true_iff in H. destruct H as [H _]. exact H.
Qed.

(** Where the quote of a citation comes from after one pass of the
    loop. *)
Lemma backfill_one_source chunks question cit :
  file (backfill_one chunks question cit) = file cit
  /\ page (backfill_one chunks question cit) = page cit
  /\ section (backfill_one chunks question cit) = section cit
  /\ (quote (backfill_one chunks question cit) = quote cit
      \/ (blank (quote cit) = true
          /\ Exists
               (fun chunk =>
                  file_match cit chunk = true
                  /\ quote (backfill_one chunks question cit)
                     = _best_sentence (Retriever.text chunk) question)
               chunks)).
Proof.
  unfold backfill_one.
  destruct (blank (quote cit)) eqn:Eb; cbn [negb];
    [|repeat split; left; reflexivity].
  destruct (find (exact_match cit) chunks) as [c1|] eqn:E1.
  - apply find_some in E1. destruct E1 as [Hin1 Hm1].
    apply exact_match_file in Hm1.
    destruct (blank (quote (set_quote cit
                (_best_sentence (Retriever.text c1) question)))) eqn:Eb1.
    + change (file_match (set_quote cit
                (_best_sentence (Retriever.text c1) question)))
        with (file_match cit).
      destruct (find (file_match cit) chunks) as [c2|] eqn:E2.
      * apply find_some in E2. destruct E2 as [Hin2 Hm2].
        repeat split. right. split; [reflexivity|].
        apply Exists_exists. exists c2. auto.
      * repeat split. right. split; [reflexivity|].
        apply Exists_exists. exists c1. auto.
    + repeat split. right. split; [reflexivity|].
      apply Exists_exists. exists c1. auto.
  - rewrite Eb.
    destruct (find (file_match cit) chunks) as [c2|] eqn:E2.
    + apply find_some in E2. destruct E2 as [Hin2 Hm2].
      repeat split. right. split; [reflexivity|].
      apply Exists_exists. exists c2. auto.
    + repeat split. left. reflexivity.
Qed.

End BackfillSourceFacts.

(** X18.  [_backfill_citations] never moves a citation and never quotes
    from another file: each citation it returns has the file, page and
    section of one of the given citations, with that citation's own
    quote or, when that was blank, the sentence picked from a retrieved
    chunk whose file name contains the cited file name; only when no
    citation was given are citations made, from the first three chunks.
    The list never grows. *)
Theorem backfill_never_relocates :
  forall (citations : list Agent.Citation) (chunks : list Retriever.Hit)
         (question : string),
    Forall
      (fun c =>
         (is_empty citations = true
          /\ Exists (fun chunk => c = Agent.citation_of_chunk question chunk)
                    (slice_to 3 chunks))
         \/ Exists
              (fun c0 =>
                 Agent.file c = Agent.file c0
                 /\ Agent.page c = Agent.page c0
                 /\ Agent.section c = Agent.section c0
                 /\ (Agent.quote c = Agent.quote c0
                     \/ (Agent.blank (Agent.quote c0) = true
                         /\ Exists
                              (fun chunk =>
                                 Agent.file_match c0 chunk = true
                                 /\ Agent.quote c
                                    = Agent._best_sentence
                                        (Retriever.text chunk) question)
                              chunks)))
              citations)
      (Agent._backfill_citations citations chunks question)
    /\ len (Agent._backfill_citations citations chunks question)
       <= (if is_empty citations then Z.min 3 (len chunks)
           else len citations).
Proof.
  intros citations chunks question. unfold Agent._backfill_citations.
  destruct citations as [|c0 rest].
  - cbn [map is_empty]. split.
    + apply Forall_forall. intros c Hc. apply filter_In in Hc.
      destruct Hc as [Hc _]. apply in_map_iff in Hc.
      destruct Hc as [chunk [<- Hin]]. left. split; [reflexivity|].
      apply Exists_exists. exists chunk. auto.
    + etransitivity; [apply filter_length_le|].
      unfold len. rewrite length_map. fold (len (slice_to 3 chunks)).
      change 3 with (Z.of_nat 3). rewrite slice_to_length. unfold len. lia.
  - remember (c0 :: rest) as cits eqn:Ec.
    assert (Hmap : map (Agent.backfill_one chunks question) cits <> []).
    { rewrite Ec. discriminate. }
    destruct (map (Agent.backfill_one chunks question) cits) as [|m ms] eqn:Em;
      [congruence|].
    rewrite <- Em. split.
    + apply Forall_forall. intros c Hc. apply filter_In in Hc.
      destruct Hc as [Hc _]. apply in_map_iff in Hc.
      destruct Hc as [c1 [<- Hin]]. right.
      apply Exists_exists. exists c1. split; [exact Hin|].
      apply backfill_one_source.
    + replace (is_empty cits) with false by (rewrite Ec; reflexivity).
      etransitivity; [apply filter_length_le|].
      unfold len. rewrite length_map. lia.
Qed.

Section ContextFacts.

Import Context.

Lemma slen_nonneg s : 0 <= Str.slen s.
Proof. unfold Str.slen. lia. Qed.

Lemma slen_take n s : Str.slen (Str.take n s) = Z.min (Z.of_nat n) (Str.slen s).
Proof. unfold Str.slen. rewrite take_length. lia. Qed.

(** Total length of the parts. *)
Lemma context_parts_total results max_chars : forall i total,
  0 <= total ->
  total + zsum (map Str.slen (context_parts i total results max_chars))
  <= Z.max total max_chars + 13.
Proof.
  induction results as [|r rest IH]; intros i total Ht;
    cbn [context_parts map zsum fold_right]; [lia|].
  cbv zeta.
  destruct (max_chars <? total + Str.slen (block i r)) eqn:E.
  - apply Z.ltb_lt in E.
    destruct (200 <? max_chars - total) eqn:E2;
      cbn [map zsum fold_right]; [|lia].
    apply Z.ltb_lt in E2. rewrite slen_app, slen_take.
    change (Str.slen truncated_mark) with 13. lia.
  - apply Z.ltb_ge in E. cbn [map zsum fold_right].
    pose proof (slen_nonneg (block i r)) as Hb.
    specialize (IH (i + 1) (total + Str.slen (block i r))).
    unfold zsum in *. lia.
Qed.

Lemma context_parts_count results max_chars : forall i total,
  len (context_parts i total results max_chars) <= len results.
Proof.
  induction results as [|r rest IH]; intros i total;
    cbn [context_parts]; [reflexivity|].
  cbv zeta.
  destruct (max_chars <? total + Str.slen (block i r)).
  - destruct (200 <? max_chars - total); unfold len; simpl List.length; lia.
  - specialize (IH (i + 1) (total + Str.slen (block i r))).
    unfold len in *. simpl List.length. lia.
Qed.

Lemma slen_join sep parts :
  Str.slen (Str.join sep parts)
  = zsum (map Str.slen parts) + Str.slen sep * Z.max 0 (len parts - 1).
Proof.
  induction parts as [|p rest IH].
  { unfold len. cbn [Str.join map zsum fold_right List.length].
    change (Str.slen "") with 0. lia. }
  destruct rest as [|q rest].
  - cbn [Str.join map zsum fold_right]. unfold len. simpl List.length. lia.
  - change (Str.join sep (p :: q :: rest))
      with (p ++ sep ++ Str.join sep (q :: rest))%string.
    rewrite !slen_app, IH. unfold zsum, len.
    cbn [map fold_right List.length]. rewrite !Nat2Z.inj_succ.
    set (k := Z.of_nat (List.length rest)).
    assert (0 <= k) by (unfold k; lia).
    replace (Z.max 0 (Z.succ k - 1)) with k by lia.
    replace (Z.max 0 (Z.succ (Z.succ k) - 1)) with (k + 1) by lia.
    ring.
Qed.

End ContextFacts.

(** X19.  The prompt context is bounded, though not by [max_chars]
    itself: its length is at most [max_chars] plus the 13 characters of
    the truncation mark plus one separator between excerpts, and no more
    excerpts are included than were retrieved.  A single excerpt longer
    than the limit already gives a context longer than the limit. *)
Theorem context_length_bounded :
  (forall (results : list Retriever.Hit) (max_chars : Z),
     Str.slen (Context._build_context results max_chars)
     <= Z.max 0 max_chars + 13 + Z.max 0 (len results - 1)
     /\ Context.build_context results max_chars
        = Context._build_context results max_chars)
  /\ Str.slen (Context._build_context [Context.filler_chunk 300] 250) = 263.
Proof.
  split.
  - intros results max_chars. split; [|reflexivity].
    unfold Context._build_context. rewrite slen_join.
    pose proof (context_parts_total results max_chars 1 0) as Ht.
    pose proof (context_parts_count results max_chars 1 0) as Hc.
    change (Str.slen Str.nl) with 1. lia.
  - vm_compute. reflexivity.
Qed.

(* ================================================================== *)
(** * Further properties of the answer chain *)
(* ================================================================== *)

Section ChainAnswerFacts.

Import Py AnswerChain.

Variable float_of_str : string -> option float.
Variable repr : value -> string.







(** A text that holds [a ++ b] holds [b]. *)
Lemma prefix_app_contains a b : forall s,
  String.prefix (a ++ b) s = true -> Str.contains b s = true.
Proof.
  induction a as [|c a IH]; intros s H.
  - change ("" ++ b)%string with b in H.
    destruct s; cbn [Str.contains]; rewrite H; reflexivity.
  - destruct s as [|c' s]; [discriminate|].
    change (String c a ++ b)%string with (String c (a ++ b)) in H.
    cbn [String.prefix] in H.
    destruct (Ascii.ascii_dec c c') as [->|]; [|discriminate].
    cbn [Str.contains]. rewrite (IH _ H). apply orb_true_r.
Qed.

Lemma contains_app a b : forall s,
  Str.contains (a ++ b) s = true -> Str.contains b s = true.
Proof.
  induction s as [|c s IH]; cbn [Str.contains]; intros H.
  - rewrite orb_false_r in H. now apply prefix_app_contains in H.
  - apply orb_true_iff in H. destruct H as [H|H].
    + now apply prefix_app_contains in H.
    + cbn [Str.contains]. rewrite (IH H). apply orb_true_r.
Qed.

End ChainAnswerFacts.



(** X21.  The inference looks for the word covered before it looks for
    not covered: when the answer is none of yes, no and partial and the
    explanation says not covered, the answer becomes Yes or Partial,
    never No. *)
Theorem not_covered_is_read_as_covered :
  forall (float_of_str : string -> option Py.float)
         (repr : Py.value -> string) (data : list (string * Py.value))
         (explanation : string) (conf : Py.float),
    Str.mem (Str.lower (AnswerChain.answer_val repr
                          (AnswerChain.flatten_all data)))
            AnswerChain.valid_answers = false ->
    AnswerChain.coerce_confidence float_of_str (AnswerChain.flatten_all data)
    = Py.Ok conf ->
    Py.lookup "explanation" (AnswerChain.flatten_all data)
    = Some (Py.VStr explanation) ->
    Str.contains "not covered" (Str.lower explanation) = true ->
    AnswerChain.normalised_answer float_of_str repr data = Py.Ok "Yes"
    \/ AnswerChain.normalised_answer float_of_str repr data = Py.Ok "Partial".
Proof.
  intros fos repr data e conf Hv Hc He Hn.
  assert (Ht : Str.truthy e = true).
  { destruct e; [discriminate|reflexivity]. }
  assert (Hx : AnswerChain.explanation_val repr (AnswerChain.flatten_all data)
               = Py.VStr e).
  { unfold AnswerChain.explanation_val, Py.get. rewrite He.
    unfold Py.or_else. cbn [Py.truthy]. rewrite Ht. cbn [negb].
    destruct (negb (is_empty (AnswerChain.extra_parts repr
                                (AnswerChain.flatten_all data))));
      cbn [Py.truthy]; rewrite Ht; reflexivity. }
  assert (Hres : AnswerChain.normalised_answer fos repr data
                 = Py.Ok (AnswerChain.infer_answer (Str.lower e))).
  { unfold AnswerChain.normalised_answer. rewrite Hc. cbn [Py.bind].
    rewrite Hv. unfold AnswerChain.combined_text. rewrite Hx.
    unfold Py.or_else at 1. cbn [Py.truthy]. rewrite Ht.
    reflexivity. }
  rewrite Hres. unfold AnswerChain.infer_answer.
  assert (Hcov : AnswerChain.any_in
                   ["covered"; "eligible"; "payable"; "included"]
                   (Str.lower e) = true).
  { unfold AnswerChain.any_in. cbn [existsb].
    rewrite (contains_app "not " "covered" _ Hn). reflexivity. }
  rewrite Hcov.
  destruct (AnswerChain.any_in
              ["condition"; "waiting"; "sub-limit"; "co-pay"; "limit"]
              (Str.lower e)); [right|left]; reflexivity.
Qed.

Lemma not_covered_is_read_as_covered_witness :
  AnswerChain.normalised_answer Sample.float_of_str Sample.repr
    AnswerChain.sample_not_covered = Py.Ok "Yes"
  \/ AnswerChain.normalised_answer Sample.float_of_str Sample.repr
       AnswerChain.sample_not_covered = Py.Ok "Partial".
Proof.
  apply (not_covered_is_read_as_covered Sample.float_of_str Sample.repr
           AnswerChain.sample_not_covered
           "Dental treatment is not covered." (Py.Fin (9 # 10))).
  - vm_compute. reflexivity.
  - vm_compute. reflexivity.
  - vm_compute. reflexivity.
  - vm_compute. reflexivity.
Defined.

Example not_covered_sample_answer :
  AnswerChain.normalised_answer Sample.float_of_str Sample.repr
    AnswerChain.sample_not_covered = Py.Ok "Yes".
Proof. vm_compute. reflexivity. Qed.

Section ChainFlattenFacts.

Import Py.

(** The two local loops of [AnswerChain._flatten_value], by list
    functions. *)
Lemma chain_flatten_dict d :
  AnswerChain._flatten_value (VDict d)
  = match option_map AnswerChain._flatten_value (lookup "value" d) with
    | Some x => x
    | None =>
        if has_key "type" d && (len d <=? 2) then
          match find (fun kv => negb (String.eqb (fst kv) "type")) d with
          | Some kv => AnswerChain._flatten_value (snd kv)
          | None => VDict d
          end
        else VDict d
    end.
Proof.
  cbn [AnswerChain._flatten_value].
  assert (H1 : forall d0,
    (fix find_value (d1 : list (string * value)) : option value :=
       match d1 with
       | [] => None
       | (k, x) :: r =>
           if String.eqb k "value" then Some (AnswerChain._flatten_value x)
           else find_value r
       end) d0
    = option_map AnswerChain._flatten_value (lookup "value" d0)).
  { induction d0 as [|[k v] r IH]; [reflexivity|]. cbn [lookup].
    destruct (String.eqb k "value"); [reflexivity|exact IH]. }
  assert (H2 : forall d0,
    (fix first_other (d1 : list (string * value)) : option value :=
       match d1 with
       | [] => None
       | (k, x) :: r =>
           if negb (String.eqb k "type")
           then Some (AnswerChain._flatten_value x)
           else first_other r
       end) d0
    = option_map (fun kv => AnswerChain._flatten_value (snd kv))
        (find (fun kv => negb (String.eqb (fst kv) "type")) d0)).
  { induction d0 as [|[k v] r IH]; [reflexivity|]. cbn [find fst snd].
    destruct (negb (String.eqb k "type")); [reflexivity|exact IH]. }
  rewrite H1, H2.
  destruct (option_map AnswerChain._flatten_value (lookup "value" d));
    [reflexivity|].
  destruct (has_key "type" d && (len d <=? 2)); [|reflexivity].
  destruct (find (fun kv => negb (String.eqb (fst kv) "type")) d);
    reflexivity.
Qed.

End ChainFlattenFacts.

(** X23.  [AnswerChain._flatten_value] is idempotent: flattening what it
    returned changes nothing. *)
Theorem chain_flatten_idempotent :
  forall v : Py.value,
    AnswerChain._flatten_value (AnswerChain._flatten_value v)
    = AnswerChain._flatten_value v.
Proof.
  induction v as [| | | | |l IH|d IH] using value_nested_ind;
    try reflexivity.
  - cbn [AnswerChain._flatten_value]. f_equal. rewrite map_map.
    apply map_ext_in. rewrite Forall_forall in IH. exact IH.
  - rewrite Forall_forall in IH.
    rewrite (chain_flatten_dict d).
    destruct (Py.lookup "value" d) as [x|] eqn:Ex; cbn [option_map].
    { apply lookup_In in Ex. exact (IH _ Ex). }
    destruct (Py.has_key "type" d && (len d <=? 2)) eqn:Et.
    + destruct (find (fun kv => negb (String.eqb (fst kv) "type")) d)
        as [kv|] eqn:Ef.
      * apply find_some in Ef. exact (IH _ (proj1 Ef)).
      * rewrite (chain_flatten_dict d), Ex, Et, Ef. reflexivity.
    + rewrite (chain_flatten_dict d), Ex, Et. reflexivity.
Qed.


(* ================================================================== *)
(** * Properties of the ingestion *)
(* ================================================================== *)

Section BatchFacts.

Import Store.

Lemma range_step_nil hi step : 0 < step -> hi <= 0 -> range_step 0 hi step = [].
Proof.
  intros Hs Hh. unfold range_step.
  rewrite zrange_nil; [reflexivity|].
  assert ((hi - 0 + step - 1) / step < 1); [|lia].
  apply Z.div_lt_upper_bound; lia.
Qed.

Lemma range_step_cons hi step :
  0 < step -> 0 < hi ->
  range_step 0 hi step
  = 0 :: map (fun s => s + step) (range_step 0 (hi - step) step).
Proof.
  intros Hs Hh. unfold range_step.
  replace ((hi - 0 + step - 1) / step)
    with (0 + (1 + (hi - step - 0 + step - 1) / step)).
  2:{ replace (hi - 0 + step - 1) with ((hi - step - 0 + step - 1) + 1 * step)
        by lia.
      rewrite Z.div_add by lia. lia. }
  assert (Hq : 0 <= (hi - step - 0 + step - 1) / step)
    by (apply Z.div_pos; lia).
  set (q := (hi - step - 0 + step - 1) / step) in *.
  rewrite zrange_cons by lia. cbn [map]. f_equal.
  rewrite map_map. unfold zrange.
  rewrite !map_map.
  replace (Z.to_nat (0 + (1 + q) - (0 + 1))) with (Z.to_nat (q - 0)) by lia.
  apply map_ext. intros k. lia.
Qed.

Lemma slice_shift {A : Type} (s step : Z) (l : list A) :
  0 <= s -> 0 <= step ->
  slice (s + step) (s + step + step) l = slice s (s + step) (skipn (Z.to_nat step) l).
Proof.
  intros Hs Hst. unfold slice.
  replace (s + step + step - (s + step)) with (s + step - s) by lia.
  f_equal. rewrite skipn_skipn. f_equal. lia.
Qed.

Lemma range_step_nonneg hi step s :
  0 < step -> In s (range_step 0 hi step) -> 0 <= s < hi.
Proof.
  intros Hs Hin. unfold range_step in Hin. apply in_map_iff in Hin.
  destruct Hin as [k [<- Hk]]. apply zrange_In in Hk.
  assert (k * step <= (hi - 0 + step - 1) / step * step - step) by nia.
  pose proof (Z.mul_div_le (hi - 0 + step - 1) step Hs). nia.
Qed.

Lemma slice_zero {A : Type} (step : Z) (l : list A) :
  slice 0 (0 + step) l = firstn (Z.to_nat step) l.
Proof. unfold slice. cbn [Z.to_nat skipn]. f_equal. lia. Qed.

Lemma len_skipn {A : Type} (k : nat) (l : list A) :
  len (skipn k l) = Z.max 0 (len l - Z.of_nat k).
Proof. unfold len. rewrite length_skipn. lia. Qed.

Lemma range_step_max hi step :
  0 < step -> range_step 0 hi step = range_step 0 (Z.max 0 hi) step.
Proof.
  intros Hs. destruct (Z_le_gt_dec hi 0) as [H|H].
  - rewrite (range_step_nil hi) by lia.
    rewrite (range_step_nil (Z.max 0 hi)) by lia. reflexivity.
  - f_equal. lia.
Qed.

(** The slices of [step] elements taken at the multiples of [step]
    rebuild the list. *)
Lemma slices_concat {A : Type} (step : Z) (m : nat) : forall l : list A,
  0 < step -> (List.length l <= m)%nat ->
  List.concat (map (fun s => slice s (s + step) l)
                   (range_step 0 (len l) step)) = l.
Proof.
  induction m as [|m IH]; intros l Hs Hm.
  - destruct l; [|simpl in Hm; lia]. unfold len. simpl List.length.
    rewrite range_step_nil by lia. reflexivity.
  - destruct (Z_le_gt_dec (len l) 0) as [H0|Hpos].
    { destruct l; [|unfold len in H0; simpl in H0; lia].
      unfold len. simpl List.length. rewrite range_step_nil by lia.
      reflexivity. }
    rewrite range_step_cons by lia. cbn [map List.concat].
    rewrite map_map, slice_zero.
    rewrite (range_step_max (len l - step)) by lia.
    replace (Z.max 0 (len l - step)) with (len (skipn (Z.to_nat step) l))
      by (rewrite len_skipn; lia).
    rewrite <- (firstn_skipn (Z.to_nat step) l) at 3. f_equal.
    rewrite <- (IH (skipn (Z.to_nat step) l)) at 2; [|lia|].
    + f_equal. apply map_ext_in. intros s Hin.
      apply range_step_nonneg in Hin; [|lia].
      apply slice_shift; lia.
    + rewrite length_skipn. unfold len in Hpos. lia.
Qed.

Lemma slices_bounded {A : Type} (step : Z) (l : list A) :
  0 < step ->
  Forall (fun b => 1 <= len b <= step)
         (map (fun s => slice s (s + step) l) (range_step 0 (len l) step)).
Proof.
  intros Hs. apply Forall_forall. intros b Hb. apply in_map_iff in Hb.
  destruct Hb as [s [<- Hin]]. apply range_step_nonneg in Hin; [|lia].
  unfold slice, len in *. rewrite length_firstn, length_skipn. lia.
Qed.

End BatchFacts.

Section IngestFacts.

Import Store.

Variable E Coll : Type.
Variable embed_texts : list string -> list E.
Variable count : Coll -> Z.
Variable upsert : Coll -> UpsertCall E -> Coll.

Lemma ingest_fold bs : forall coll total,
  fold_left (ingest_step E Coll embed_texts upsert) bs (coll, total)
  = (fold_left upsert (map (call_of E embed_texts) bs) coll,
     total + len (List.concat bs)).
Proof.
  induction bs as [|b bs IH]; intros coll total.
  - cbn [fold_left map List.concat]. unfold len. simpl List.length.
    now rewrite Z.add_0_r.
  - cbn [fold_left map List.concat]. unfold ingest_step at 2.
    cbn [fst snd]. rewrite IH. f_equal.
    unfold len. rewrite length_app. lia.
Qed.

Lemma concat_map_map {A B : Type} (f : A -> B) (ls : list (list A)) :
  List.concat (map (map f) ls) = map f (List.concat ls).
Proof.
  induction ls as [|l ls IH]; [reflexivity|].
  cbn [map List.concat]. now rewrite IH, map_app.
Qed.

End IngestFacts.

(** X22.  [ingest_chunks] either skips, when the collection already
    counts at least as many entries as there are chunks and [force] is
    off, and then leaves the collection as it is; or it upserts every
    chunk exactly once, in order, in batches of 1 to 128 chunks, each
    chunk with its own identifier, text and metadata, and reports the
    number of chunks as [chunks_ingested]. *)
Theorem ingest_covers_every_chunk :
  forall (E Coll : Type) (embed_texts : list string -> list E)
         (count : Coll -> Z) (upsert : Coll -> Store.UpsertCall E -> Coll)
         (collection : Coll) (chunks : list Segmenter.Chunk) (force : bool),
    List.concat (Store.batches chunks) = chunks
    /\ Forall (fun b => 1 <= len b <= Store.BATCH_SIZE) (Store.batches chunks)
    /\ List.concat
         (map (fun b => Store.ids (Store.call_of E embed_texts b))
              (Store.batches chunks))
       = map Segmenter.chunk_id chunks
    /\ List.concat
         (map (fun b => Store.metadatas (Store.call_of E embed_texts b))
              (Store.batches chunks))
       = map Store.metadata_of chunks
    /\ Store.ingest_chunks E Coll embed_texts count upsert collection chunks
         force
       = if (len chunks <=? count collection) && negb force
         then (Store.Skipped (count collection) (len chunks), collection)
         else
           (Store.Success (len chunks)
              (count (fold_left upsert
                        (map (Store.call_of E embed_texts)
                             (Store.batches chunks))
                        collection)),
            fold_left upsert
              (map (Store.call_of E embed_texts) (Store.batches chunks))
              collection).
Proof.
  intros E Coll embed_texts count upsert collection chunks force.
  assert (Hc : List.concat (Store.batches chunks) = chunks).
  { unfold Store.batches.
    apply (slices_concat Store.BATCH_SIZE (List.length chunks));
      [reflexivity|lia]. }
  split; [exact Hc|]. split.
  { unfold Store.batches. apply slices_bounded. reflexivity. }
  split.
  { unfold Store.call_of. cbn [Store.ids].
    change (fun b => map Segmenter.chunk_id b) with (map Segmenter.chunk_id).
    rewrite concat_map_map, Hc. reflexivity. }
  split.
  { unfold Store.call_of. cbn [Store.metadatas].
    change (fun b => map Store.metadata_of b) with (map Store.metadata_of).
    rewrite concat_map_map, Hc. reflexivity. }
  unfold Store.ingest_chunks.
  destruct ((len chunks <=? count collection) && negb force);
    [reflexivity|].
  rewrite ingest_fold. cbn [fst snd]. rewrite Hc. reflexivity.
Qed.

(* ================================================================== *)
(** * Properties of the validation suite *)
(* ================================================================== *)

Section SuiteFacts.

Import Py Suite.

Lemma run_case_passed question outcome :
  t_passed (run_case question outcome) = true ->
  exists v,
    outcome = Ok v
    /\ 0 < len (Agent.citations v)
    /\ match Agent.meta v with
       | Some m =>
           match Agent.m_error m with
           | Some e => Str.truthy e = false
           | None => True
           end
       | None => True
       end.
Proof.
  unfold run_case. destruct outcome as [v|e]; cbn [t_passed].
  - intros H. exists v. split; [reflexivity|].
    apply andb_true_iff in H. destruct H as [Hj Hr].
    apply Z.ltb_lt in Hr. split; [exact Hr|].
    destruct (Agent.meta v) as [m|]; [|exact I].
    destruct (Agent.m_error m) as [e|]; [|exact I].
    destruct (Str.truthy e); [discriminate|reflexivity].
  - intros H. discriminate.
Qed.

Lemma count_if_split (p : TestResult -> bool) results :
  count_if p results + count_if (fun r => negb (p r)) results = len results.
Proof.
  unfold count_if, len.
  induction results as [|r rs IH]; [reflexivity|]. cbn [filter].
  destruct (p r); cbn [negb List.length]; lia.
Qed.

Lemma count_if_le (p q : TestResult -> bool) results :
  (forall r, In r results -> p r = true -> q r = true) ->
  count_if p results <= count_if q results.
Proof.
  unfold count_if, len. induction results as [|r rs IH]; intros H;
    [reflexivity|].
  cbn [filter].
  assert (Hrs : forall r0, In r0 rs -> p r0 = true -> q r0 = true)
    by (intros; apply H; [now right|assumption]).
  specialize (IH Hrs).
  destruct (p r) eqn:Ep.
  - rewrite (H r (or_introl eq_refl) Ep). cbn [List.length]. lia.
  - destruct (q r); cbn [List.length]; lia.
Qed.

Lemma count_if_app (p q : TestResult -> bool) results :
  count_if (fun r => p r || q r) results
  <= count_if p results + count_if q results.
Proof.
  unfold count_if, len. induction results as [|r rs IH]; [reflexivity|].
  cbn [filter]. destruct (p r), (q r); cbn [orb List.length]; lia.
Qed.

Lemma count_if_zero (p : TestResult -> bool) results :
  count_if p results = 0 <-> Forall (fun r => p r = false) results.
Proof.
  unfold count_if, len. induction results as [|r rs IH].
  - split; [constructor|reflexivity].
  - cbn [filter]. destruct (p r) eqn:Ep.
    + split; [cbn [List.length]; lia|].
      intros H. inversion H; subst. congruence.
    + rewrite IH. split; [now constructor|].
      intros H. now inversion H.
Qed.

End SuiteFacts.

(** X24.  A test of the suite passes only on a parsed answer: the
    question is counted as passed only if chunks were retrieved, the
    generation service replied, the reply parsed as a JSON object and
    validated, and at least one citation with a quote survived the
    backfill.  Fallback verdicts, the verdict for no chunks and
    exceptions all count as failures. *)
Theorem suite_passes_only_on_parsed_answers :
  forall (json_loads : string -> Py.loaded)
         (float_of_str : string -> option Py.float)
         (int_of_str : string -> option Z) (repr : Py.value -> string)
         (model base_url : string) (retrieval : Retriever.Retrieval)
         (llm : Agent.Llm) (question : string)
         (filename_filter : option string),
    Suite.t_passed
      (Suite.run_case question
         (Agent.ask json_loads float_of_str int_of_str repr model base_url
            retrieval llm question filename_filter)) = true ->
    exists raw parsed v0 v,
      llm = Agent.Response raw
      /\ is_empty (Agent.apply_filename_filter filename_filter
                     (Retriever.results retrieval)) = false
      /\ Agent._extract_json json_loads raw = Py.Ok (Some parsed)
      /\ Agent._validate_response float_of_str int_of_str repr parsed
         = Py.Ok v0
      /\ Agent.ask json_loads float_of_str int_of_str repr model base_url
           retrieval llm question filename_filter = Py.Ok v
      /\ 0 < len (Agent.citations v)
      /\ Forall (fun c => Agent.blank (Agent.quote c) = false)
                (Agent.citations v).
Proof.
  intros json_loads fos ios repr model base_url retrieval llm question flt H.
  apply run_case_passed in H. destruct H as (v & Hask & Hcit & Hmeta).
  unfold Agent.ask in Hask.
  destruct (is_empty (Agent.apply_filename_filter flt
                        (Retriever.results retrieval))) eqn:Ee.
  { inversion Hask; subst v. vm_compute in Hcit. discriminate. }
  destruct llm as [|msg|raw].
  - inversion Hask; subst v. vm_compute in Hcit. discriminate.
  - inversion Hask; subst v. vm_compute in Hcit. discriminate.
  - unfold Agent.normalise in Hask.
    destruct (Agent._extract_json json_loads raw) as [[parsed|]|e0] eqn:Ep;
      cbn [Py.bind] in Hask; [| |discriminate].
    + destruct (Agent._validate_response fos ios repr parsed) as [v0|e] eqn:Ev;
        cbn [Py.bind] in Hask; [|discriminate].
      exists raw, parsed, v0, v. split; [reflexivity|].
      split; [reflexivity|]. split; [exact Ep|]. split; [exact Ev|].
      split.
      { unfold Agent.ask. rewrite Ee. unfold Agent.normalise.
        rewrite Ep. cbn [Py.bind]. rewrite Ev. exact Hask. }
      split; [exact Hcit|].
      inversion Hask; subst v. cbn [Agent.citations Agent.with_meta
                                     Agent.with_citations].
      apply backfill_all_quoted.
    + inversion Hask; subst v.
      destruct (unparseable_response_fields question raw)
        as (_ & _ & H3 & _).
      rewrite H3 in Hcit. vm_compute in Hcit. discriminate.
Qed.

Lemma suite_passes_only_on_parsed_answers_witness :
  exists raw parsed v0 v,
    Agent.Response Agent.sample_answer_text = Agent.Response raw
    /\ is_empty (Agent.apply_filename_filter None
                   (Retriever.results Agent.sample_retrieval)) = false
    /\ Agent._extract_json Sample.loads raw = Py.Ok (Some parsed)
    /\ Agent._validate_response Sample.float_of_str Sample.int_of_str
         Sample.repr parsed = Py.Ok v0
    /\ Agent.ask Sample.loads Sample.float_of_str Sample.int_of_str
         Sample.repr "llama3" "http://localhost:11434"
         Agent.sample_retrieval (Agent.Response Agent.sample_answer_text)
         Agent.sample_question None = Py.Ok v
    /\ 0 < len (Agent.citations v)
    /\ Forall (fun c => Agent.blank (Agent.quote c) = false)
              (Agent.citations v).
Proof.
  apply (suite_passes_only_on_parsed_answers Sample.loads
           Sample.float_of_str Sample.int_of_str Sample.repr
           "llama3" "http://localhost:11434" Agent.sample_retrieval
           (Agent.Response Agent.sample_answer_text)
           Agent.sample_question None).
  vm_compute. reflexivity.
Defined.

(** X25.  The summary of the suite is consistent with the tests: passes
    and failures add up to the number of questions, every failed test
    has at least one reason listed, so the failures are at most the
    parse failures plus the retrieval failures, and the exit code is 0
    exactly when every test passed. *)
Theorem suite_summary_consistent :
  forall cases : list (string * Py.result Agent.Verdict),
    Suite.pass_count (map (fun c => Suite.run_case (fst c) (snd c)) cases)
    + Suite.fail_count (map (fun c => Suite.run_case (fst c) (snd c)) cases)
    = len cases
    /\ 0 <= Suite.fail_count
              (map (fun c => Suite.run_case (fst c) (snd c)) cases)
       <= Suite.json_fails
            (map (fun c => Suite.run_case (fst c) (snd c)) cases)
          + Suite.retrieval_fails
              (map (fun c => Suite.run_case (fst c) (snd c)) cases)
    /\ Forall (fun r => Suite.t_passed r = true \/ Suite.reasons r <> [])
              (map (fun c => Suite.run_case (fst c) (snd c)) cases)
    /\ (Suite.exit_code (map (fun c => Suite.run_case (fst c) (snd c)) cases)
        = 0
        <-> Forall (fun r => Suite.t_passed r = true)
              (map (fun c => Suite.run_case (fst c) (snd c)) cases)).
Proof.
  intros cases.
  set (results := map (fun c => Suite.run_case (fst c) (snd c)) cases).
  assert (Hlen : len results = len cases)
    by (unfold results, len; now rewrite length_map).
  assert (Hshape : Forall (fun r => Suite.t_passed r
                                    = Suite.t_json_ok r && Suite.t_retrieval_ok r)
                          results).
  { unfold results. apply Forall_map, Forall_forall. intros [q o] _.
    unfold Suite.run_case. cbn [fst snd].
    destruct o as [v|e]; reflexivity. }
  pose proof (count_if_split Suite.t_passed results) as Hsplit.
  assert (Hfail : Suite.fail_count results
                  = Suite.count_if (fun r => negb (Suite.t_passed r)) results).
  { unfold Suite.fail_count, Suite.pass_count. lia. }
  split; [unfold Suite.fail_count; lia|]. split.
  { rewrite Hfail. split.
    - unfold Suite.count_if, len. lia.
    - etransitivity; [|apply count_if_app].
      apply count_if_le. intros r Hin Hp.
      rewrite Forall_forall in Hshape. rewrite (Hshape r Hin) in Hp.
      destruct (Suite.t_json_ok r), (Suite.t_retrieval_ok r);
        simpl in *; congruence. }
  split.
  { eapply Forall_impl; [|exact Hshape]. intros r Hr. rewrite Hr.
    unfold Suite.reasons.
    destruct (Suite.t_json_ok r), (Suite.t_retrieval_ok r); cbn;
      auto; right; discriminate. }
  unfold Suite.exit_code. rewrite Hfail.
  destruct (Suite.count_if (fun r => negb (Suite.t_passed r)) results =? 0)
    eqn:E.
  - apply Z.eqb_eq in E. apply count_if_zero in E. split; [|reflexivity].
    intros _. eapply Forall_impl; [|exact E]. intros r Hr.
    now apply negb_false_iff in Hr.
  - apply Z.eqb_neq in E. split; [discriminate|]. intros Hall.
    exfalso. apply E. apply count_if_zero.
    eapply Forall_impl; [|exact Hall]. intros r Hr. now rewrite Hr.
Qed.
